(** * reference_image_selector.py: scanner, selection store and review session

    A shallow embedding of the core of [reference_image_selector.py]
    (catalog scanner, [save_selection], delete, the session navigation and
    the per-image selection pass of [main]) and the properties of its
    persistence contract.

    Conventions of the embedding.
    - A [str] is a [string] of bytes (UTF-8).  Python compares [str] by code
      point, which on UTF-8 text is the byte-wise lexicographic order of
      [String.compare].  [str.lower] is modelled on the ASCII letters; other
      bytes are left as they are.
    - A [pathlib.Path] is the list of its components ([Path.parts]).  The
      [str] operands of [/] in the program are file names (a directory
      entry's [name], ["selection.json"], the generated [ref_...] name) and
      are attached as one component; separators inside a name are not
      interpreted.
    - The file system is a finite map from paths to nodes.  A directory node
      carries the sequence of names [iterdir] yields for it, so the
      enumeration order of the operating system is part of the state and
      arbitrary.
    - Effects are threaded through a state-and-exception monad [M] over the
      [World]; [try ... except Exception] is [try_except]. *)

From Stdlib Require Import ZArith Ascii List Sorting.Sorted Sorting.Permutation Lia.
From stdpp Require Import base gmap strings list pretty.

Local Open Scope Z_scope.

(* ===================================================================== *)
(** ** Strings *)

(** [str.lower] on one ASCII character: 'A'..'Z' go to 'a'..'z'. *)
Definition lower_ascii (a : ascii) : ascii :=
  let n := N_of_ascii a in
  if ((65 <=? n)%N && (n <=? 90)%N)%bool then ascii_of_N (n + 32) else a.

Fixpoint lower (s : string) : string :=
  match s with
  | EmptyString => EmptyString
  | String a s' => String (lower_ascii a) (lower s')
  end.

(** [str.rfind('.')]: the index of the last dot, [-1] when there is none. *)
Fixpoint rfind_dot_from (i : Z) (s : string) : Z :=
  match s with
  | EmptyString => -1
  | String a s' =>
      let r := rfind_dot_from (i + 1) s' in
      if 0 <=? r then r
      else if Ascii.eqb a "."%char then i else -1
  end.

Definition rfind_dot (s : string) : Z := rfind_dot_from 0 s.

Definition str_len (s : string) : Z := Z.of_nat (String.length s).

(** [name[i:]] for [0 <= i]. *)
Definition str_from (i : Z) (s : string) : string :=
  String.substring (Z.to_nat i) (String.length s - Z.to_nat i)%nat s.

(** [PurePath.suffix] of a path whose final component is [name]:
    [i = name.rfind('.')], and [name[i:]] if [0 < i < len(name) - 1],
    else the empty string. *)
Definition suffix (name : string) : string :=
  let i := rfind_dot name in
  if ((0 <? i) && (i <? str_len name - 1))%bool then str_from i name else "".

(** [', '.join(l)]. *)
Fixpoint join (sep : string) (l : list string) : string :=
  match l with
  | [] => ""
  | [x] => x
  | x :: l' => x +:+ sep +:+ join sep l'
  end.

(* ===================================================================== *)
(** ** Paths *)

Abbreviation Path := (list string).

(** [p / name]. *)
Definition path_join (p : Path) (name : string) : Path := p ++ [name].
Infix "//" := path_join (at level 40, left associativity).

(** [Path.name]: the final component, [''] for the empty path. *)
Definition path_name (p : Path) : string := List.last p "".

(** [Path.parent]. *)
Definition path_parent (p : Path) : Path := removelast p.

(** [Path(p).suffix]. *)
Definition path_suffix (p : Path) : string := suffix (path_name p).

(** [list.sort(key=...)]: Python's sort is stable, and the result of a
    stable sort is determined by the input, so it is specified by stable
    insertion.  [x] is placed before the first [y] whose key is not smaller
    than the key of [x]. *)
Section Sort.
Context {A : Type} (key : A -> string).

Fixpoint insert_by_key (x : A) (l : list A) : list A :=
  match l with
  | [] => [x]
  | y :: l' =>
      if String.ltb (key y) (key x) then y :: insert_by_key x l'
      else x :: y :: l'
  end.

Definition sort_by_key (l : list A) : list A :=
  foldr insert_by_key [] l.

(** The order the sort establishes: keys compared as Python compares [str]. *)
Definition key_le (a b : A) : Prop := (key a ≤ key b)%string.
End Sort.

(* ===================================================================== *)
(** ** Persisted data and the file system *)

(** One element of ["images"] in [selection.json]. *)
Record ImageMeta := {
  original_file : string;
  saved_file : string;
  color : string
}.

(** [selection_data], the document [json.dump] writes. *)
Record SelectionRecord := {
  product_name : string;
  completed : bool;
  selected_by : string;
  timestamp : string;
  images : list ImageMeta
}.

(** A JSON document that is not the record of a save, as far as the program
    looks at it: an object, with the text an f-string shows for the values
    under its keys ["selected_by"] and ["timestamp"] where it has them, or a
    value that is not an object (an array, a string, a number, [true],
    [false], [null]). *)
Inductive OtherJson :=
| JObject (selected_by_text timestamp_text : option string)
| JNonObject.

(** What a regular file holds: bytes that are not JSON text (an image), the
    JSON document of a save (kept as the value that was dumped), another
    JSON document, or the remains of a write that did not finish. *)
Inductive Content :=
| Bytes (b : string)
| Json (r : SelectionRecord)
| JsonOther (d : OtherJson)
| Partial.

(** What [json.load] returns. *)
Inductive JsonData :=
| JRecord (r : SelectionRecord)
| JOther (d : OtherJson).

(** A directory carries the names [iterdir] yields, in that order. *)
Inductive Node :=
| File (c : Content)
| Dir (names : list string).

Abbreviation FsMap := (gmap Path Node).

(** The calls that write to the file system. *)
Inductive FsCall :=
| Mkdir (p : Path)                          (* p.mkdir(parents=True, exist_ok=True) *)
| Copy2 (src dst : Path)                    (* shutil.copy2(src, dst) *)
| WriteJson (p : Path) (r : SelectionRecord) (* with open(p, "w") as f: json.dump(r, f) *)
| Replace (src dst : Path)                  (* src.replace(dst) *)
| Rmtree (p : Path).                        (* shutil.rmtree(p) *)

(** What the environment does to the next writing call: nothing, make it
    fail before it has written anything, or make it fail after it has begun
    to write.  For [copy2] and the dump the target is then left as
    [Partial]; for [rmtree] the entries [removed] that lie below the root of
    the tree are gone; [mkdir] and [replace] are treated as all-or-nothing. *)
Inductive Fault := NoFault | FailBefore | FailDuring (removed : list Path).

(** The exceptions of the modelled calls: a failed file system call (named
    by the call and its path), a missing dictionary key, an unreadable JSON
    file, a method looked up on a value that does not have it.  All are
    subclasses of [Exception]. *)
Inductive exn :=
| OSError (call : string) (p : Path)
| KeyError (k : string)
| JSONDecodeError (p : Path)
| AttributeError (attr : string).

(** Messages handed to the presentation layer. *)
Inductive Msg :=
| MissingFiles (count : nat) (shown : string)   (* st.error("Cannot save: ...") *)
| AlreadySaved                                  (* st.warning("... already saved ...") *)
| SaveError (e : exn)                           (* st.error("Error saving selection: ...") *)
| Deleted (product : string)                    (* st.success("Deleted selection for ...") *)
| DeleteFailed (e : exn)                        (* st.error("Failed to delete: ...") *)
| MetadataInfo (by_ at_ : string)               (* st.info("Selected by"), st.info("Date") *)
| DeleteWarning                                 (* st.warning("This will permanently delete ...") *)
| UnableToRead                                  (* st.error("Unable to read selection metadata") *)
| NotCompleted                                  (* st.info("... not been completed yet") *)
| Saved (count : nat)                           (* st.success("Saved n image(s)") *)
| SaveFailed.                                   (* st.error("Failed to save selection") *)

Record World := {
  fs : FsMap;
  now : string;            (* datetime.now().isoformat() *)
  faults : list Fault;     (* consumed one per writing call; none left: no fault *)
  ui : list Msg;           (* messages shown, oldest first *)
  calls : list FsCall      (* writing calls that completed, oldest first *)
}.

Definition with_fs (m : FsMap) (w : World) : World :=
  {| fs := m; now := now w; faults := faults w; ui := ui w; calls := calls w |}.

Definition say (x : Msg) (w : World) : World :=
  {| fs := fs w; now := now w; faults := faults w; ui := ui w ++ [x]; calls := calls w |}.

Definition done_call (c : FsCall) (w : World) : World :=
  {| fs := fs w; now := now w; faults := faults w; ui := ui w; calls := calls w ++ [c] |}.

Definition next_fault (w : World) : Fault * World :=
  match faults w with
  | [] => (NoFault, w)
  | ft :: rest =>
      (ft, {| fs := fs w; now := now w; faults := rest; ui := ui w; calls := calls w |})
  end.

(* --------------------------------------------------------------------- *)
(** *** Reading the map *)

Definition exists_in (m : FsMap) (p : Path) : bool :=
  match m !! p with Some _ => true | None => false end.

Definition is_dir_in (m : FsMap) (p : Path) : bool :=
  match m !! p with Some (Dir _) => true | _ => false end.

Definition is_file_in (m : FsMap) (p : Path) : bool :=
  match m !! p with Some (File _) => true | _ => false end.

(* --------------------------------------------------------------------- *)
(** *** Writing the map *)

Definition add_name (n : string) (names : list string) : list string :=
  if bool_decide (n ∈ names) then names else names ++ [n].

Definition remove_name (n : string) (names : list string) : list string :=
  filter (λ x, x ≠ n) names.

(** Create or overwrite the regular file [parent / n]; [None] when [parent]
    is not a directory or the target is one. *)
Definition write_file (parent : Path) (n : string) (c : Content) (m : FsMap)
  : option FsMap :=
  match m !! parent, m !! (parent // n) with
  | Some (Dir names), Some (Dir _) => None
  | Some (Dir names), _ =>
      Some (<[parent // n := File c]> (<[parent := Dir (add_name n names)]> m))
  | _, _ => None
  end.

(** Drop the entry [parent / n] together with its name in [parent]. *)
Definition unlink (parent : Path) (n : string) (m : FsMap) : FsMap :=
  let m' := delete (parent // n) m in
  match m' !! parent with
  | Some (Dir names) => <[parent := Dir (remove_name n names)]> m'
  | _ => m'
  end.

(** [os.mkdir(parent / n)]: the parent is a directory and the target is new. *)
Definition os_mkdir (parent : Path) (n : string) (m : FsMap) : option FsMap :=
  match m !! parent, m !! (parent // n) with
  | Some (Dir names), None =>
      Some (<[parent // n := Dir []]> (<[parent := Dir (add_name n names)]> m))
  | _, _ => None
  end.

(** [Path.mkdir(parents=True, exist_ok=True)] on the path whose components,
    last first, are [rp]: an existing directory is accepted, an existing
    file is an error, a missing parent is created first. *)
Fixpoint mkdir_parents (rp : list string) (m : FsMap) : option FsMap :=
  match m !! rev rp with
  | Some (Dir _) => Some m
  | Some (File _) => None
  | None =>
      match rp with
      | [] => None
      | n :: rq =>
          match mkdir_parents rq m with
          | Some m' => os_mkdir (rev rq) n m'
          | None => None
          end
      end
  end.

(** [shutil.rmtree(p)] on the map: everything at or below [p] goes. *)
Definition remove_tree (p : Path) (m : FsMap) : FsMap :=
  let m' := filter (λ kv, ¬ p `prefix_of` kv.1) m in
  match m' !! path_parent p with
  | Some (Dir names) =>
      if bool_decide (p = []) then m'
      else <[path_parent p := Dir (remove_name (path_name p) names)]> m'
  | _ => m'
  end.

(** [shutil.rmtree(p)] interrupted: it removes the entries of the tree one
    after the other and the root last, so some of what lies below [p] is
    gone (the entries [removed], each with what is below it) and [p] itself
    is still there. *)
Definition remove_below (p : Path) (removed : list Path) (m : FsMap) : FsMap :=
  foldl (fun m' q =>
           if bool_decide (p `prefix_of` q /\ q ≠ p) then remove_tree q m' else m')
        m removed.

(* ===================================================================== *)
(** ** The monad of the program: state and exceptions *)

Inductive Result (A : Type) :=
| Return (a : A)
| Raise (e : exn).
Arguments Return {A} a.
Arguments Raise {A} e.

Definition M (A : Type) : Type := World -> Result A * World.

Definition ret {A} (a : A) : M A := fun w => (Return a, w).

Definition bind {A B} (c : M A) (k : A -> M B) : M B :=
  fun w =>
    match c w with
    | (Return a, w') => k a w'
    | (Raise e, w') => (Raise e, w')
    end.

Definition raise {A} (e : exn) : M A := fun w => (Raise e, w).

(** [try: c  except Exception as e: h e].  The state reached when the
    exception was raised is the state the handler starts from. *)
Definition try_except {A} (c : M A) (h : exn -> M A) : M A :=
  fun w =>
    match c w with
    | (Return a, w') => (Return a, w')
    | (Raise e, w') => h e w'
    end.

Declare Scope prog_scope.
Delimit Scope prog_scope with prog.
Notation "x <- c ;; k" := (bind c (fun x => k))
  (at level 100, c at next level, right associativity) : prog_scope.
Notation "c ;; k" := (bind c (fun _ => k))
  (at level 100, right associativity) : prog_scope.
Local Open Scope prog_scope.

Definition st_message (x : Msg) : M unit := fun w => (Return tt, say x w).

(** [datetime.now().isoformat()]. *)
Definition datetime_now : M string := fun w => (Return (now w), w).

(* --------------------------------------------------------------------- *)
(** *** File system calls *)

Definition path_exists (p : Path) : M bool := fun w => (Return (exists_in (fs w) p), w).
Definition is_dir (p : Path) : M bool := fun w => (Return (is_dir_in (fs w) p), w).
Definition is_file (p : Path) : M bool := fun w => (Return (is_file_in (fs w) p), w).

(** [p.iterdir()], consumed whole: the children in the directory's order. *)
Definition iterdir (p : Path) : M (list Path) :=
  fun w =>
    match fs w !! p with
    | Some (Dir names) => (Return (map (path_join p) names), w)
    | _ => (Raise (OSError "iterdir" p), w)
    end.

(** A writing call: the environment may fail it; otherwise [step] decides. *)
Definition writing_call (c : FsCall) (e : exn) (partial : FsMap -> FsMap)
    (step : FsMap -> option FsMap) : M unit :=
  fun w0 =>
    let (ft, w) := next_fault w0 in
    match ft with
    | FailBefore => (Raise e, w)
    | FailDuring _ =>
        match step (fs w) with
        | Some _ => (Raise e, with_fs (partial (fs w)) w)
        | None => (Raise e, w)
        end
    | NoFault =>
        match step (fs w) with
        | Some m' => (Return tt, done_call c (with_fs m' w))
        | None => (Raise e, w)
        end
    end.

(** [p.mkdir(parents=True, exist_ok=True)]. *)
Definition mkdir (p : Path) : M unit :=
  writing_call (Mkdir p) (OSError "mkdir" p) (fun m => m) (mkdir_parents (rev p)).

(** Where [shutil.copy2(src, dst)] writes: into [dst] when it is a
    directory, under the base name of [src]. *)
Definition copy2_target (m : FsMap) (src dst : Path) : Path :=
  if is_dir_in m dst then dst // path_name src else dst.

Definition copy2_step (src dst : Path) (c : option Content) (m : FsMap)
  : option FsMap :=
  let dst' := copy2_target m src dst in
  if bool_decide (src = dst') then None
  else
    match m !! src with
    | Some (File c0) =>
        write_file (path_parent dst') (path_name dst') (default c0 c) m
    | _ => None
    end.

(** [shutil.copy2(src, dst)]. *)
Definition copy2 (src dst : Path) : M unit :=
  writing_call (Copy2 src dst) (OSError "copy2" dst)
    (fun m => default m (copy2_step src dst (Some Partial) m))
    (copy2_step src dst None).

(** [with open(p, "w", encoding="utf-8") as f: json.dump(r, f, ...)]. *)
Definition write_json (p : Path) (r : SelectionRecord) : M unit :=
  writing_call (WriteJson p r) (OSError "open" p)
    (fun m => default m (write_file (path_parent p) (path_name p) Partial m))
    (write_file (path_parent p) (path_name p) (Json r)).

Definition replace_step (src dst : Path) (m : FsMap) : option FsMap :=
  match m !! src with
  | Some (File c) =>
      if bool_decide (src = dst) then Some m
      else write_file (path_parent dst) (path_name dst) c
             (unlink (path_parent src) (path_name src) m)
  | _ => None
  end.

(** [src.replace(dst)]: one step, or nothing. *)
Definition replace (src dst : Path) : M unit :=
  writing_call (Replace src dst) (OSError "replace" dst) (fun m => m) (replace_step src dst).

(** [shutil.rmtree(p)]: a path that is not a directory is refused; a call
    the environment interrupts has removed part of the tree. *)
Definition rmtree (p : Path) : M unit :=
  fun w0 =>
    let (ft, w) := next_fault w0 in
    if is_dir_in (fs w) p then
      match ft with
      | NoFault => (Return tt, done_call (Rmtree p) (with_fs (remove_tree p (fs w)) w))
      | FailBefore => (Raise (OSError "rmtree" p), w)
      | FailDuring removed =>
          (Raise (OSError "rmtree" p), with_fs (remove_below p removed (fs w)) w)
      end
    else (Raise (OSError "rmtree" p), w).

(** [with open(p, "r") as f: json.load(f)]: a JSON document loads, whatever
    its shape; other bytes and an unfinished write do not parse. *)
Definition read_json (p : Path) : M JsonData :=
  fun w =>
    match fs w !! p with
    | Some (File (Json r)) => (Return (JRecord r), w)
    | Some (File (JsonOther d)) => (Return (JOther d), w)
    | Some (File _) => (Raise (JSONDecodeError p), w)
    | _ => (Raise (OSError "open" p), w)
    end.

(** [f"{existing_data.get('selected_by', 'Unknown')}"]: the value under the
    key, the default for an object without it; a value that is not an object
    has no [get]. *)
Definition get_selected_by (existing_data : JsonData) : M string :=
  match existing_data with
  | JRecord r => ret (selected_by r)
  | JOther (JObject by_ _) => ret (default "Unknown" by_)
  | JOther JNonObject => raise (AttributeError "get")
  end.

(** [f"{existing_data.get('timestamp', 'Unknown')}"]. *)
Definition get_timestamp (existing_data : JsonData) : M string :=
  match existing_data with
  | JRecord r => ret (timestamp r)
  | JOther (JObject _ at_) => ret (default "Unknown" at_)
  | JOther JNonObject => raise (AttributeError "get")
  end.

(* ===================================================================== *)
(** ** The program *)

(** [SUPPORTED_EXTENSIONS]. *)
Definition SUPPORTED_EXTENSIONS : gset string :=
  {[ ".jpg"; ".jpeg"; ".png"; ".webp"; ".gif"; ".bmp"; ".tiff" ]}.

(** [COLOR_OPTIONS]. *)
Definition COLOR_OPTIONS : list string :=
  [ "unknown"; "black"; "white"; "red"; "blue"; "green"; "yellow"; "orange";
    "purple"; "pink"; "brown"; "grey"; "gray"; "navy"; "beige"; "gold";
    "silver"; "multicolor"; "camo"; "other" ].

(** An element of [selected_images]: a dict in which either key may be
    absent; an absent or [None] colour is [None] here. *)
Record ImgInfo := {
  info_original_file : option string;
  info_color : option string
}.

(** [img_info["original_file"]]. *)
Definition get_original_file (img_info : ImgInfo) : M string :=
  match info_original_file img_info with
  | Some f => ret f
  | None => raise (KeyError "original_file")
  end.

(** [img_info.get("color", "unknown") or "unknown"]. *)
Definition get_color (img_info : ImgInfo) : string :=
  match info_color img_info with
  | Some c => if bool_decide (c = "") then "unknown" else c
  | None => "unknown"
  end.

(** [f"ref_{idx}_{color}{ext}"] with [ext = Path(original_file).suffix.lower()]. *)
Definition new_filename (idx : nat) (color original_file : string) : string :=
  "ref_" +:+ pretty idx +:+ "_" +:+ color +:+ lower (suffix original_file).

(** [[x for x in l if p(x)]] with a reading predicate. *)
Fixpoint filter_m {A} (p : A -> M bool) (l : list A) : M (list A) :=
  match l with
  | [] => ret []
  | x :: l' =>
      b <- p x ;;
      r <- filter_m p l' ;;
      ret (if b then x :: r else r)
  end.

Definition name_key (p : Path) : string := lower (path_name p).

Section Program.
Variables SOURCE_FOLDER OUTPUT_FOLDER : Path.

Definition get_all_product_folders : M (list Path) :=
  ex <- path_exists SOURCE_FOLDER ;;
  if negb ex then ret []
  else
    items <- iterdir SOURCE_FOLDER ;;
    folders <- filter_m is_dir items ;;
    ret (sort_by_key name_key folders).

Definition is_image (item : Path) : M bool :=
  f <- is_file item ;;
  ret (f && bool_decide (lower (path_suffix item) ∈ SUPPORTED_EXTENSIONS)).

Definition get_images_in_folder (folder_path : Path) : M (list Path) :=
  ex <- path_exists folder_path ;;
  if negb ex then ret []
  else
    items <- iterdir folder_path ;;
    images <- filter_m is_image items ;;
    ret (sort_by_key name_key images).

Definition is_product_completed (product_name : string) : M bool :=
  let selection_file := OUTPUT_FOLDER // product_name // "selection.json" in
  path_exists selection_file.

(** The validation loop of [save_selection]. *)
Fixpoint find_missing_files (source_folder : Path) (selected_images : list ImgInfo)
    (missing_files : list string) : M (list string) :=
  match selected_images with
  | [] => ret missing_files
  | img_info :: rest =>
      original_file <- get_original_file img_info ;;
      let source_file := source_folder // original_file in
      ex <- path_exists source_file ;;
      find_missing_files source_folder rest
        (if negb ex then missing_files ++ [original_file] else missing_files)
  end.

(** The copy loop of [save_selection], [idx] counting from its start value. *)
Fixpoint copy_selected (source_folder product_output_folder : Path)
    (selected_images : list ImgInfo) (idx : nat)
    (images_metadata : list ImageMeta) : M (list ImageMeta) :=
  match selected_images with
  | [] => ret images_metadata
  | img_info :: rest =>
      original_file <- get_original_file img_info ;;
      let color := get_color img_info in
      let source_file := source_folder // original_file in
      let new_filename := new_filename idx color original_file in
      let dest_file := product_output_folder // new_filename in
      copy2 source_file dest_file ;;
      copy_selected source_folder product_output_folder rest (S idx)
        (images_metadata ++
           [{| original_file := original_file; saved_file := new_filename;
               color := color |}])
  end.

(** The body of the [try] of [save_selection]. *)
Definition save_selection_body (product_name : string) (source_folder : Path)
    (selected_images : list ImgInfo) (username : string) : M bool :=
  let product_output_folder := OUTPUT_FOLDER // product_name in
  mkdir product_output_folder ;;
  missing_files <- find_missing_files source_folder selected_images [] ;;
  if negb (bool_decide (missing_files = [])) then
    st_message (MissingFiles (length missing_files)
                  (join ", " (take 3 missing_files))) ;;
    ret false
  else
    let selection_file := product_output_folder // "selection.json" in
    ex <- path_exists selection_file ;;
    (if ex then st_message AlreadySaved else ret tt) ;;
    images_metadata <-
      copy_selected source_folder product_output_folder selected_images 1 [] ;;
    ts <- datetime_now ;;
    let selection_data :=
      {| product_name := product_name; completed := true;
         selected_by := username; timestamp := ts;
         images := images_metadata |} in
    let temp_file := product_output_folder // ".selection.json.tmp" in
    write_json temp_file selection_data ;;
    replace temp_file selection_file ;;
    ret true.

Definition save_selection (product_name : string) (source_folder : Path)
    (selected_images : list ImgInfo) (username : string) : M bool :=
  try_except
    (save_selection_body product_name source_folder selected_images username)
    (fun e => st_message (SaveError e) ;; ret false).

(** The handler of "Confirm Delete" in [main]. *)
Definition main_confirm_delete (product_name : string) : M unit :=
  try_except
    (let product_output_folder := OUTPUT_FOLDER // product_name in
     rmtree product_output_folder ;;
     st_message (Deleted product_name))
    (fun e => st_message (DeleteFailed e)).

(** The "Delete Current Selection" block of [main]; [confirm] tells
    whether the button was pressed in this run.  The two [st.info] lines are
    one message: the two [get] succeed together or the first one raises. *)
Definition main_delete_section (product_name : string) (confirm : bool) : M unit :=
  done <- is_product_completed product_name ;;
  if done then
    let selection_file := OUTPUT_FOLDER // product_name // "selection.json" in
    try_except
      (existing_data <- read_json selection_file ;;
       by_ <- get_selected_by existing_data ;;
       at_ <- get_timestamp existing_data ;;
       st_message (MetadataInfo by_ at_) ;;
       st_message DeleteWarning ;;
       if confirm then main_confirm_delete product_name else ret tt)
      (fun _ => st_message UnableToRead)
  else st_message NotCompleted.
End Program.

(* ===================================================================== *)
(** ** The review session *)

(** A value of [current_selections]: [{"selected": bool, "color": str}]. *)
Record SelEntry := {
  selected : bool;
  sel_color : string
}.

(** A Python [dict] keeps its keys in insertion order: an association list
    with unique keys, kept so by [dict_set]. *)
Section Dict.
Context {V : Type}.

Fixpoint dict_get (k : string) (d : list (string * V)) : option V :=
  match d with
  | [] => None
  | (k', v) :: d' => if bool_decide (k' = k) then Some v else dict_get k d'
  end.

Definition dict_contains (k : string) (d : list (string * V)) : bool :=
  match dict_get k d with Some _ => true | None => false end.

(** [d[k] = v]: an existing key keeps its place, a new key goes last. *)
Fixpoint dict_set (k : string) (v : V) (d : list (string * V)) : list (string * V) :=
  match d with
  | [] => [(k, v)]
  | (k', v') :: d' =>
      if bool_decide (k' = k) then (k, v) :: d' else (k', v') :: dict_set k v d'
  end.

(** [d[k][field] = x]: the value under [k] is changed where it stands. *)
Fixpoint dict_update (k : string) (f : V -> V) (d : list (string * V))
  : list (string * V) :=
  match d with
  | [] => []
  | (k', v') :: d' =>
      if bool_decide (k' = k) then (k', f v') :: d' else (k', v') :: dict_update k f d'
  end.

Definition dict_keys (d : list (string * V)) : list string := map fst d.
End Dict.

(** [st.session_state]. *)
Record Session := {
  product_folders : list Path;
  current_index : Z;
  username : string;
  current_selections : list (string * SelEntry);
  last_loaded_product : option string
}.

Definition set_index (i : Z) (s : Session) : Session :=
  {| product_folders := product_folders s; current_index := i;
     username := username s; current_selections := current_selections s;
     last_loaded_product := None |}.

Definition unselected : SelEntry := {| selected := false; sel_color := "unknown" |}.

Definition reset_selections_for_product (product_name : string) (images : list Path)
    (s : Session) : Session :=
  if bool_decide (last_loaded_product s ≠ Some product_name) then
    {| product_folders := product_folders s; current_index := current_index s;
       username := username s;
       current_selections :=
         foldl (fun d img => dict_set (path_name img) unselected d) [] images;
       last_loaded_product := Some product_name |}
  else s.

Definition go_to_previous (s : Session) : Session :=
  set_index (Z.max 0 (current_index s - 1)) s.

Definition go_to_next (s : Session) : Session :=
  let total := Z.of_nat (length (product_folders s)) in
  set_index (Z.min (total - 1) (current_index s + 1)) s.

(** "Jump to Product #" in [main]: [jump_to] is what [st.number_input]
    returned. *)
Definition main_jump (jump_to : Z) (s : Session) : Session :=
  if bool_decide (jump_to ≠ current_index s + 1) then set_index (jump_to - 1) s
  else s.

(** The selection controls of one image in [main]: [is_selected] is what the
    checkbox returned, [selected_color] what the colour box returned. *)
Definition main_image_controls (image_name : string) (is_selected : bool)
    (selected_color : string) (d : list (string * SelEntry))
  : list (string * SelEntry) :=
  let d1 := if negb (dict_contains image_name d)
            then dict_set image_name unselected d else d in
  let d2 := dict_update image_name
              (fun e => {| selected := is_selected; sel_color := sel_color e |}) d1 in
  if is_selected then
    dict_update image_name
      (fun e => {| selected := selected e; sel_color := selected_color |}) d2
  else d2.

(** "Collect selected images for save validation" in [main]. *)
Fixpoint main_collect_selected (d : list (string * SelEntry)) : list ImgInfo :=
  match d with
  | [] => []
  | (img_name, sel_info) :: d' =>
      if selected sel_info then
        {| info_original_file := Some img_name;
           info_color := Some (sel_color sel_info) |} :: main_collect_selected d'
      else main_collect_selected d'
  end.


(** What the reviewer and the presentation layer send to the session. *)
Inductive NavEvent :=
| Previous                 (* the "Previous" button *)
| Next                     (* [go_to_next], after a save that succeeded *)
| JumpTo (jump_to : Z).    (* the number input *)

Definition nav_step (s : Session) (e : NavEvent) : Session :=
  match e with
  | Previous => go_to_previous s
  | Next => go_to_next s
  | JumpTo j => main_jump j s
  end.

(** [st.number_input(min_value=1, max_value=total)] hands the program a
    value within its bounds. *)
Definition nav_admissible (total : Z) (e : NavEvent) : Prop :=
  match e with
  | JumpTo j => 1 <= j <= total
  | _ => True
  end.

Section SaveNext.
Variables OUTPUT_FOLDER : Path.

(** The handler of "Save & Next" in [main]. *)
Definition main_save_next (product_name : string) (current_folder : Path)
    (selected_images : list ImgInfo) (s : Session) : M Session :=
  success <- save_selection OUTPUT_FOLDER product_name current_folder
               selected_images (username s) ;;
  if success then
    st_message (Saved (length selected_images)) ;;
    ret (go_to_next s)
  else
    st_message SaveFailed ;;
    ret s.
End SaveNext.

(* ===================================================================== *)
(** ** Vocabulary of the statements *)

(** The entries [iterdir] yields for [p], none when [p] is no directory. *)
Definition children (m : FsMap) (p : Path) : list Path :=
  match m !! p with
  | Some (Dir names) => map (path_join p) names
  | _ => []
  end.

(** What [is_image] computes on a given map. *)
Definition image_in (m : FsMap) (item : Path) : bool :=
  is_file_in m item && bool_decide (lower (path_suffix item) ∈ SUPPORTED_EXTENSIONS).


(** A small catalog: product [p] with two images, a text file and a
    subdirectory whose name ends in [.png]; an empty product [Q]; an empty
    output root. *)
Definition demo_fs : FsMap :=
  list_to_map
    [ ([], Dir ["src"; "out"]);
      (["src"], Dir ["p"; "Q"; "readme.txt"]);
      (["src"; "readme.txt"], File (Bytes "r"));
      (["src"; "Q"], Dir []);
      (["src"; "p"], Dir ["b.PNG"; "a.png"; "notes.txt"; "sub.png"]);
      (["src"; "p"; "a.png"], File (Bytes "AAA"));
      (["src"; "p"; "b.PNG"], File (Bytes "BBB"));
      (["src"; "p"; "notes.txt"], File (Bytes "n"));
      (["src"; "p"; "sub.png"], Dir []);
      (["out"], Dir []) ].

Definition demo_world : World :=
  {| fs := demo_fs; now := "2026-01-01T00:00:00"; faults := []; ui := []; calls := [] |}.

Definition demo_session : Session :=
  {| product_folders := [["src"; "a"]; ["src"; "b"]; ["src"; "c"]];
     current_index := 1; username := "";
     current_selections := []; last_loaded_product := None |}.

(** A selection names its file when the key ["original_file"] is there. *)
Definition named (img_info : ImgInfo) : Prop := is_Some (info_original_file img_info).

Definition file_of (img_info : ImgInfo) : string :=
  default "" (info_original_file img_info).

(** The metadata entry and the copy of the selection processed with index
    [idx]. *)
Definition meta_of (idx : nat) (img_info : ImgInfo) : ImageMeta :=
  {| original_file := file_of img_info;
     saved_file := new_filename idx (get_color img_info) (file_of img_info);
     color := get_color img_info |}.

Definition copy_of (source_folder product_output_folder : Path) (idx : nat)
    (img_info : ImgInfo) : FsCall :=
  Copy2 (source_folder // file_of img_info)
        (product_output_folder // new_filename idx (get_color img_info) (file_of img_info)).

(** The names the validation loop of [save_selection] collects over the map [m]. *)
Definition missing_in (m : FsMap) (source_folder : Path) (selected_images : list ImgInfo)
  : list string :=
  filter (fun n => exists_in m (source_folder // n) = false) (map file_of selected_images).


Definition demo_selections : list ImgInfo :=
  [ {| info_original_file := Some "b.PNG"; info_color := Some "" |};
    {| info_original_file := Some "a.png"; info_color := Some "red" |} ].

(** The demo world after saving [demo_selections] for product [p], and after
    deleting that selection again. *)
Definition demo_saved : World :=
  (save_selection ["out"] "p" ["src"; "p"] demo_selections "me" demo_world).2.

Definition demo_deleted : World :=
  (main_confirm_delete ["out"] "p" demo_saved).2.

(** A selection of a file that is not in the source folder. *)
Definition demo_missing : ImgInfo :=
  {| info_original_file := Some "zz.png"; info_color := None |}.

(** Reading an entry of [current_selections]. *)
Definition selected_in (d : list (string * SelEntry)) (n : string) : bool :=
  match dict_get n d with Some e => selected e | None => false end.

Definition color_in (d : list (string * SelEntry)) (n : string) : string :=
  match dict_get n d with Some e => sel_color e | None => "unknown" end.

(** What the reviewer does to the controls, in the order it is done: each
    event is the image, its checkbox value and its colour box value. *)
Definition apply_controls (evs : list (string * bool * string))
    (d : list (string * SelEntry)) : list (string * SelEntry) :=
  foldl (fun d ev => main_image_controls ev.1.1 ev.1.2 ev.2 d) d evs.

(** The reviewer ticks [b.PNG] first and [a.png] second. *)
Definition demo_clicks : list (string * bool * string) :=
  [ ("b.PNG", true, "blue"); ("a.png", true, "red"); ("b.PNG", true, "") ].

Definition demo_reviewed : list (string * SelEntry) :=
  apply_controls demo_clicks
    (current_selections
       (reset_selections_for_product "p"
          [["src"; "p"; "a.png"]; ["src"; "p"; "b.PNG"]] demo_session)).

Definition demo_reviewed_saved : World :=
  (save_selection ["out"] "p" ["src"; "p"] (main_collect_selected demo_reviewed)
     "me" demo_world).2.

(* ===================================================================== *)
(** ** More of [main] *)

(** The image grid of [main]: rows of [num_cols] images, [row_start] running
    over [range(0, len(product_images), num_cols)] and [img_idx] over
    [range(row_start, min(row_start + num_cols, len(product_images)))].
    [checkbox] and [selectbox] give, per image name, what the two widgets
    keyed by that name return in this run. *)
Definition num_cols : nat := 3.

Definition grid_row_starts (n : nat) : list nat :=
  map (fun k => k * num_cols)%nat (seq 0 ((n + (num_cols - 1)) / num_cols)).

Definition grid_row (n row_start : nat) : list nat :=
  seq row_start (Nat.min (row_start + num_cols) n - row_start).

Definition main_image_grid (product_images : list Path)
    (checkbox : string -> bool) (selectbox : string -> string)
    (d : list (string * SelEntry)) : list (string * SelEntry) :=
  foldl
    (fun d row_start =>
       foldl
         (fun d img_idx =>
            match product_images !! img_idx with
            | Some image_path =>
                let image_name := path_name image_path in
                main_image_controls image_name (checkbox image_name)
                  (selectbox image_name) d
            | None => d
            end)
         d (grid_row (length product_images) row_start))
    d (grid_row_starts (length product_images)).

(** [COLOR_OPTIONS.index(current_color) if current_color in COLOR_OPTIONS else 0]. *)
Fixpoint list_index (x : string) (l : list string) : option nat :=
  match l with
  | [] => None
  | y :: l' => if bool_decide (y = x) then Some 0%nat else S <$> list_index x l'
  end.

Definition color_index (current_color : string) : nat :=
  default 0%nat (list_index current_color COLOR_OPTIONS).

(** The widgets of the demo: [b.PNG] ticked with colour blue. *)
Definition demo_checkbox (image_name : string) : bool :=
  bool_decide (image_name = "b.PNG").

Definition demo_selectbox (image_name : string) : string :=
  if bool_decide (image_name = "b.PNG") then "blue" else "unknown".

Definition demo_listing : list Path :=
  [["src"; "p"; "a.png"]; ["src"; "p"; "b.PNG"]].

(** A computation keeps a relation between the file system before and
    after, however it ends. *)
Definition preserves {A : Type} (Rfs : FsMap -> FsMap -> Prop) (c : M A) : Prop :=
  forall (w : World) (r : Result A) (w' : World), c w = (r, w') -> Rfs (fs w) (fs w').

(** Nothing outside the subtree of [p] and the ancestors of [p] differs. *)
Definition same_outside (p : Path) (m m' : FsMap) : Prop :=
  forall q : Path, ~ p `prefix_of` q -> ~ q `prefix_of` p -> m' !! q = m !! q.

(** No entry other than [t] has disappeared. *)
Definition entries_kept (t : Path) (m m' : FsMap) : Prop :=
  forall q : Path, q ≠ t -> is_Some (m !! q) -> is_Some (m' !! q).

(** The character [a] does not occur in [s]. *)
Fixpoint no_char (a : ascii) (s : string) : Prop :=
  match s with
  | EmptyString => True
  | String b s' => b ≠ a /\ no_char a s'
  end.

(** The demo catalog on a machine that enumerates the source root in another
    order. *)
Definition demo_world_reordered : World :=
  with_fs (<[ ["src"] := Dir ["Q"; "p"; "readme.txt"] ]> demo_fs) demo_world.

(* ===================================================================== *)
(** ** The archive of completed selections *)

(** What "Generate ZIP" of [main] hands to the presentation layer: the
    warning that nothing was saved yet, or the download of an archive (its
    members in the order they were written, each with the name it has in
    the archive) together with the count shown below it. *)
Inductive ExportOutcome :=
| NoSelectionsYet
| Download (archive : list (string * Content)) (completed_count : nat).

(** Reading a file for [zip_file.write(file, arcname)]. *)
Definition read_file (p : Path) : M Content :=
  fun w =>
    match fs w !! p with
    | Some (File c) => (Return c, w)
    | _ => (Raise (OSError "open" p), w)
    end.

(** [for file in product_folder.iterdir(): if file.is_file(): ...]. *)
Fixpoint zip_files (product_name : string) (files : list Path)
    (zip_file : list (string * Content)) : M (list (string * Content)) :=
  match files with
  | [] => ret zip_file
  | file :: rest =>
      f <- is_file file ;;
      if f then
        let arcname := product_name +:+ "/" +:+ path_name file in
        c <- read_file file ;;
        zip_files product_name rest (zip_file ++ [(arcname, c)])
      else zip_files product_name rest zip_file
  end.

(** [for product_folder in OUTPUT_FOLDER.iterdir(): if product_folder.is_dir(): ...]. *)
Fixpoint zip_products (folders : list Path) (zip_file : list (string * Content))
  : M (list (string * Content)) :=
  match folders with
  | [] => ret zip_file
  | product_folder :: rest =>
      d <- is_dir product_folder ;;
      if d then
        files <- iterdir product_folder ;;
        zip_file' <- zip_files (path_name product_folder) files zip_file ;;
        zip_products rest zip_file'
      else zip_products rest zip_file
  end.

(** [sum(1 for p in ... if p.is_dir() and (p / "selection.json").exists())]. *)
Fixpoint count_completed (folders : list Path) : M nat :=
  match folders with
  | [] => ret 0%nat
  | p :: rest =>
      d <- is_dir p ;;
      ex <- (if d then path_exists (p // "selection.json") else ret false) ;;
      n <- count_completed rest ;;
      ret (if d && ex then S n else n)
  end.

Section Archive.
Variable OUTPUT_FOLDER : Path.

Definition main_generate_zip : M ExportOutcome :=
  ex <- path_exists OUTPUT_FOLDER ;;
  if negb ex then ret NoSelectionsYet
  else
    entries <- iterdir OUTPUT_FOLDER ;;
    if bool_decide (entries = []) then ret NoSelectionsYet
    else
      folders <- iterdir OUTPUT_FOLDER ;;
      zip_file <- zip_products folders [] ;;
      counted <- iterdir OUTPUT_FOLDER ;;
      completed_count <- count_completed counted ;;
      ret (Download zip_file completed_count).
End Archive.

(** The members of the archive, read off the map. *)
Definition archive_files (m : FsMap) (product_folder : Path) : list (string * Content) :=
  omap (fun file =>
          match m !! file with
          | Some (File c) => Some (path_name product_folder +:+ "/" +:+ path_name file, c)
          | _ => None
          end)
       (children m product_folder).

Definition archive_of (m : FsMap) (output_folder : Path) : list (string * Content) :=
  filter (fun p => is_dir_in m p) (children m output_folder) ≫= archive_files m.

Definition completed_in (m : FsMap) (output_folder : Path) : list Path :=
  filter (fun p => is_dir_in m p && exists_in m (p // "selection.json"))
         (children m output_folder).

(* ===================================================================== *)
(** ** Starting a session *)

(** [st.session_state] before and during [init_session_state]: each of the
    five keys may still be absent. *)
Record SessionState := {
  key_product_folders : option (list Path);
  key_current_index : option Z;
  key_username : option string;
  key_current_selections : option (list (string * SelEntry));
  key_last_loaded_product : option (option string)
}.

Definition empty_state : SessionState :=
  {| key_product_folders := None; key_current_index := None; key_username := None;
     key_current_selections := None; key_last_loaded_product := None |}.

Section Init.
Variable SOURCE_FOLDER : Path.

Definition init_session_state (st : SessionState) : M SessionState :=
  product_folders <-
    match key_product_folders st with
    | None => l <- get_all_product_folders SOURCE_FOLDER ;; ret (Some l)
    | Some l => ret (Some l)
    end ;;
  ret {| key_product_folders := product_folders;
         key_current_index :=
           Some (match key_current_index st with None => 0 | Some i => i end);
         key_username :=
           Some (match key_username st with None => "" | Some u => u end);
         key_current_selections :=
           Some (match key_current_selections st with None => [] | Some d => d end);
         key_last_loaded_product :=
           Some (match key_last_loaded_product st with None => None | Some p => p end) |}.
End Init.

(** The session once every key is set. *)
Definition session_of (st : SessionState) : option Session :=
  match key_product_folders st, key_current_index st, key_username st,
        key_current_selections st, key_last_loaded_product st with
  | Some l, Some i, Some u, Some d, Some p =>
      Some {| product_folders := l; current_index := i; username := u;
              current_selections := d; last_loaded_product := p |}
  | _, _, _, _, _ => None
  end.

(** [l[i]] as Python indexes a list: a negative index counts from the end,
    and [None] stands for [IndexError]. *)
Definition py_getitem {A : Type} (l : list A) (i : Z) : option A :=
  if 0 <=? i then l !! Z.to_nat i
  else if - Z.of_nat (length l) <=? i then l !! Z.to_nat (Z.of_nat (length l) + i)
  else None.

(** The state in which the writes of a save cannot fail: the environment
    fails nothing, the product's output folder is a directory and holds no
    directory. *)
Definition ready_output (pof : Path) (w : World) : Prop :=
  faults w = []
  /\ is_dir_in (fs w) pof = true
  /\ forall x : string, is_dir_in (fs w) (pof // x) = false.

(* ===================================================================== *)
(** * Properties *)

(** ** Strings and sorting *)

Example suffix_png : suffix "a.png" = ".png".
Proof. reflexivity. Qed.
Example suffix_hidden_file : suffix ".bashrc" = "".
Proof. reflexivity. Qed.
Example suffix_trailing_dot : suffix "a." = "".
Proof. reflexivity. Qed.
Example suffix_last_only : suffix "a.tar.GZ" = ".GZ".
Proof. reflexivity. Qed.
Example lower_mixed : lower "IMG_01.JpG" = "img_01.jpg".
Proof. reflexivity. Qed.
Example sort_names :
  sort_by_key lower ["shirt"; "Shoe"; "apple"; "Zed"] = ["apple"; "shirt"; "Shoe"; "Zed"].
Proof. reflexivity. Qed.
(** Equal keys keep the order they came in. *)
Example sort_stable :
  sort_by_key lower ["b"; "A"; "a"] = ["A"; "a"; "b"]
  /\ sort_by_key lower ["b"; "a"; "A"] = ["a"; "A"; "b"].
Proof. split; reflexivity. Qed.

Lemma ltb_true_le (s t : string) : String.ltb s t = true -> (s ≤ t)%string.
Proof.
  unfold String.ltb, String.le, String.leb.
  destruct (String.compare s t); simpl; intros; try discriminate; exact I.
Qed.

Lemma ltb_false_le (s t : string) : String.ltb s t = false -> (t ≤ s)%string.
Proof.
  unfold String.ltb, String.le, String.leb.
  rewrite (String.compare_antisym s t).
  destruct (String.compare t s); simpl; intros; try discriminate; exact I.
Qed.

Section SortFacts.
Context {A : Type} (key : A -> string).

Lemma insert_by_key_perm (x : A) (l : list A) :
  insert_by_key key x l ≡ₚ x :: l.
Proof.
  induction l as [|y l IH]; simpl; [reflexivity|].
  destruct (String.ltb (key y) (key x)); [|reflexivity].
  rewrite IH. apply Permutation_swap.
Qed.

Lemma sort_by_key_perm (l : list A) : sort_by_key key l ≡ₚ l.
Proof.
  induction l as [|x l IH]; simpl; [reflexivity|].
  rewrite insert_by_key_perm. by rewrite IH.
Qed.

Lemma key_le_trans (a b c : A) : (key_le key) a b -> (key_le key) b c -> (key_le key) a c.
Proof. unfold key_le. intros H1 H2. by etrans. Qed.

Lemma insert_by_key_sorted (x : A) (l : list A) :
  StronglySorted (key_le key) l -> StronglySorted (key_le key) (insert_by_key key x l).
Proof.
  induction 1 as [|y l Hs IH Hall]; simpl.
  - repeat constructor.
  - destruct (String.ltb (key y) (key x)) eqn:E.
    + constructor; [exact IH|].
      rewrite insert_by_key_perm. constructor; [|exact Hall].
      by apply ltb_true_le.
    + apply ltb_false_le in E.
      constructor; [by constructor|].
      constructor; [exact E|].
      eapply Forall_impl; [exact Hall|].
      intros z Hz. by apply key_le_trans with y.
Qed.

Lemma sort_by_key_sorted (l : list A) : StronglySorted (key_le key) (sort_by_key key l).
Proof.
  induction l as [|x l IH]; simpl; [constructor|].
  by apply insert_by_key_sorted.
Qed.
End SortFacts.

(** ** The scanner *)

Lemma filter_m_reads {A} (p : A -> M bool) (f : FsMap -> A -> bool) (l : list A) w :
  (forall x w', p x w' = (Return (f (fs w') x), w')) ->
  filter_m p l w = (Return (filter (fun x => f (fs w) x) l), w).
Proof.
  intros Hp. induction l as [|x l IH]; simpl; [reflexivity|].
  unfold bind. rewrite Hp, IH. unfold ret.
  destruct (f (fs w) x) eqn:E.
  - rewrite filter_cons_True; [reflexivity|]. by rewrite E.
  - rewrite filter_cons_False; [reflexivity|]. rewrite E. exact id.
Qed.

Lemma get_all_product_folders_run SOURCE_FOLDER w :
  is_file_in (fs w) SOURCE_FOLDER = false ->
  get_all_product_folders SOURCE_FOLDER w =
    (Return (sort_by_key name_key
               (filter (fun p => is_dir_in (fs w) p) (children (fs w) SOURCE_FOLDER))), w).
Proof.
  intros Hroot. unfold get_all_product_folders, bind, path_exists, iterdir, children.
  unfold is_file_in, exists_in in *.
  destruct (fs w !! SOURCE_FOLDER) as [[c|names]|] eqn:E; simpl; try discriminate.
  - rewrite E. rewrite (filter_m_reads is_dir is_dir_in); [reflexivity|]. reflexivity.
  - reflexivity.
Qed.

Lemma get_images_in_folder_run folder_path w :
  is_file_in (fs w) folder_path = false ->
  get_images_in_folder folder_path w =
    (Return (sort_by_key name_key
               (filter (fun p => image_in (fs w) p) (children (fs w) folder_path))), w).
Proof.
  intros Hroot. unfold get_images_in_folder, bind, path_exists, iterdir, children.
  unfold is_file_in, exists_in in *.
  destruct (fs w !! folder_path) as [[c|names]|] eqn:E; simpl; try discriminate.
  - rewrite E. rewrite (filter_m_reads is_image image_in); [reflexivity|]. reflexivity.
  - reflexivity.
Qed.




Example demo_products :
  (get_all_product_folders ["src"] demo_world).1 = Return [["src"; "p"]; ["src"; "Q"]].
Proof. vm_compute. reflexivity. Qed.

Example demo_images :
  (get_images_in_folder ["src"; "p"] demo_world).1
  = Return [["src"; "p"; "a.png"]; ["src"; "p"; "b.PNG"]].
Proof. vm_compute. reflexivity. Qed.

Lemma path_name_join (p : Path) (n : string) : path_name (p // n) = n.
Proof. unfold path_name, path_join. apply last_last. Qed.

Lemma path_parent_join (p : Path) (n : string) : path_parent (p // n) = p.
Proof. unfold path_parent, path_join. apply removelast_last. Qed.

Lemma supported_extension_cases (e : string) :
  e ∈ SUPPORTED_EXTENSIONS <->
  e ∈ [".jpg"; ".jpeg"; ".png"; ".webp"; ".gif"; ".bmp"; ".tiff"].
Proof.
  unfold SUPPORTED_EXTENSIONS.
  rewrite !elem_of_union, !elem_of_singleton, !elem_of_cons, elem_of_nil.
  tauto.
Qed.

(** C9: every path [get_images_in_folder] returns is an entry of the folder
    that is a regular file (so no subdirectory) and whose lowercased suffix
    is one of the seven supported extensions; and every such entry is
    returned. *)
Theorem listed_images_are_supported_files (folder_path : Path) (w : World) :
  is_file_in (fs w) folder_path = false ->
  exists images : list Path,
    get_images_in_folder folder_path w = (Return images, w)
    /\ forall item : Path,
         item ∈ images <->
         item ∈ children (fs w) folder_path
         /\ is_file_in (fs w) item = true
         /\ is_dir_in (fs w) item = false
         /\ lower (path_suffix item)
              ∈ [".jpg"; ".jpeg"; ".png"; ".webp"; ".gif"; ".bmp"; ".tiff"].
Proof.
  intros Hfolder. eexists. split; [by apply get_images_in_folder_run|].
  intros item. rewrite sort_by_key_perm, list_elem_of_filter.
  unfold image_in. rewrite <- supported_extension_cases.
  unfold is_file_in, is_dir_in.
  destruct (fs w !! item) as [[c|names]|]; simpl; rewrite ?bool_decide_spec;
    (split; [ intros [Hext Hin] | intros (Hin & Hfile & Hdir & Hext) ]);
    first [ discriminate | exfalso; exact Hext
          | repeat split; first [assumption | reflexivity] ].
Qed.

Lemma listed_images_are_supported_files_witness :
  exists images : list Path,
    get_images_in_folder ["src"; "p"] demo_world = (Return images, demo_world)
    /\ forall item : Path,
         item ∈ images <->
         item ∈ children (fs demo_world) ["src"; "p"]
         /\ is_file_in (fs demo_world) item = true
         /\ is_dir_in (fs demo_world) item = false
         /\ lower (path_suffix item)
              ∈ [".jpg"; ".jpeg"; ".png"; ".webp"; ".gif"; ".bmp"; ".tiff"].
Proof.
  apply (listed_images_are_supported_files ["src"; "p"] demo_world).
  vm_compute. reflexivity.
Defined.

(** ** The review session: navigation *)

Lemma set_index_folders (i : Z) (s : Session) :
  product_folders (set_index i s) = product_folders s.
Proof. reflexivity. Qed.

Lemma nav_step_folders (s : Session) (e : NavEvent) :
  product_folders (nav_step s e) = product_folders s.
Proof.
  destruct e; simpl; try reflexivity.
  unfold main_jump. by destruct (bool_decide _).
Qed.

Lemma nav_step_in_range (s : Session) (e : NavEvent) :
  let n := Z.of_nat (length (product_folders s)) in
  0 < n -> 0 <= current_index s <= n - 1 -> nav_admissible n e ->
  0 <= current_index (nav_step s e) <= n - 1.
Proof.
  intros n Hn Hidx Hadm. destruct e as [| |j]; simpl in *.
  - lia.
  - fold n. lia.
  - unfold main_jump. destruct (bool_decide _); simpl; lia.
Qed.

(** Navigation stays inside the list: over a non-empty product list of
    length [n], with the index in [[0, n-1]], [go_to_previous] sets it to
    [max(0, index-1)], [go_to_next] to [min(n-1, index+1)], and the jump to
    [jump_to - 1] for the value [1 <= jump_to <= n] the bounded number input
    delivers; after any sequence of such events the index is still in
    [[0, n-1]]. *)
Theorem navigation_keeps_index_in_range (s : Session) (evs : list NavEvent) :
  let n := Z.of_nat (length (product_folders s)) in
  0 < n -> 0 <= current_index s <= n - 1 ->
  Forall (nav_admissible n) evs ->
  0 <= current_index (foldl nav_step s evs) <= n - 1
  /\ current_index (go_to_previous s) = Z.max 0 (current_index s - 1)
  /\ current_index (go_to_next s) = Z.min (n - 1) (current_index s + 1)
  /\ (forall jump_to : Z, 1 <= jump_to <= n ->
        current_index (main_jump jump_to s) = jump_to - 1).
Proof.
  intros n Hn Hidx Hevs. repeat split; try reflexivity.
  - clear -Hn Hidx Hevs. subst n. revert s Hn Hidx Hevs.
    induction evs as [|e evs IH]; intros s Hn Hidx Hevs; simpl; [lia|].
    inversion Hevs as [|? ? He Hrest]; subst.
    pose proof (nav_step_in_range s e Hn Hidx He) as Hstep.
    specialize (IH (nav_step s e)). rewrite nav_step_folders in IH.
    apply IH; assumption.
  - clear -Hn Hidx Hevs. subst n. revert s Hn Hidx Hevs.
    induction evs as [|e evs IH]; intros s Hn Hidx Hevs; simpl; [lia|].
    inversion Hevs as [|? ? He Hrest]; subst.
    pose proof (nav_step_in_range s e Hn Hidx He) as Hstep.
    specialize (IH (nav_step s e)). rewrite nav_step_folders in IH.
    apply IH; assumption.
  - intros j Hj. unfold main_jump.
    destruct (bool_decide (j ≠ current_index s + 1)) eqn:E; simpl; [reflexivity|].
    apply bool_decide_eq_false in E. lia.
Qed.

Lemma navigation_keeps_index_in_range_witness :
  0 <= current_index (foldl nav_step demo_session [Next; Next; JumpTo 1; Previous; JumpTo 3])
    <= Z.of_nat (length (product_folders demo_session)) - 1
  /\ current_index (go_to_previous demo_session)
     = Z.max 0 (current_index demo_session - 1)
  /\ current_index (go_to_next demo_session)
     = Z.min (Z.of_nat (length (product_folders demo_session)) - 1)
             (current_index demo_session + 1)
  /\ (forall jump_to : Z,
        1 <= jump_to <= Z.of_nat (length (product_folders demo_session)) ->
        current_index (main_jump jump_to demo_session) = jump_to - 1).
Proof.
  apply (navigation_keeps_index_in_range demo_session
           [Next; Next; JumpTo 1; Previous; JumpTo 3]); simpl; [lia | lia |].
  repeat constructor; simpl; lia.
Defined.

(** ** The review session: selection entries *)

Section DictFacts.
Context {V : Type}.
Implicit Types (d : list (string * V)) (k : string).

Lemma dict_get_set_eq k (v : V) d : dict_get k (dict_set k v d) = Some v.
Proof.
  induction d as [|[k' v'] d IH]; simpl.
  - by rewrite bool_decide_eq_true_2.
  - destruct (bool_decide (k' = k)) eqn:E; simpl.
    + by rewrite bool_decide_eq_true_2.
    + by rewrite E.
Qed.

Lemma dict_get_update_eq k (f : V -> V) d :
  dict_get k (dict_update k f d) = f <$> dict_get k d.
Proof.
  induction d as [|[k' v'] d IH]; simpl; [reflexivity|].
  destruct (bool_decide (k' = k)) eqn:E; simpl; by rewrite E.
Qed.

Lemma dict_keys_update k (f : V -> V) d : dict_keys (dict_update k f d) = dict_keys d.
Proof.
  induction d as [|[k' v'] d IH]; simpl; [reflexivity|].
  destruct (bool_decide (k' = k)); simpl; [reflexivity|]. f_equal. exact IH.
Qed.

Lemma dict_get_None_keys k d : dict_get k d = None <-> k ∉ dict_keys d.
Proof.
  induction d as [|[k' v'] d IH]; simpl.
  - split; [intros _; apply not_elem_of_nil | reflexivity].
  - rewrite not_elem_of_cons. destruct (bool_decide (k' = k)) eqn:E.
    + apply bool_decide_eq_true in E. split; [discriminate|]. intros [Hne _]. congruence.
    + apply bool_decide_eq_false in E. rewrite IH. split; [|tauto].
      intros H. split; [congruence|exact H].
Qed.

Lemma dict_keys_set k (v : V) d :
  dict_keys (dict_set k v d) = if dict_contains k d then dict_keys d else dict_keys d ++ [k].
Proof.
  unfold dict_contains. induction d as [|[k' v'] d IH]; simpl; [reflexivity|].
  destruct (bool_decide (k' = k)) eqn:E; simpl.
  - apply bool_decide_eq_true in E. by subst.
  - rewrite IH. by destruct (dict_get k d).
Qed.
End DictFacts.

Example stale_color_not_stored :
  main_image_controls "a.png" false "red" [("a.png", unselected)]
  = [("a.png", {| selected := false; sel_color := "unknown" |})].
Proof. reflexivity. Qed.

(** C6, as stated, does not hold: for an image that is not selected the
    colour the colour box returns is not stored. *)
Lemma color_of_unselected_image_not_stored :
  ~ (forall (image_name : string) (is_selected : bool) (selected_color : string)
            (d : list (string * SelEntry)),
       exists e : SelEntry,
         dict_get image_name (main_image_controls image_name is_selected selected_color d)
           = Some e
         /\ sel_color e = selected_color).
Proof.
  intros H.
  destruct (H "a.png" false "red" [("a.png", unselected)]) as (e & Hget & Hcol).
  vm_compute in Hget. inversion Hget; subst e. vm_compute in Hcol. discriminate.
Qed.

(** C6, amended: the controls of an image always leave an entry for it whose
    [selected] flag is the checkbox value; its colour is the colour box value
    when the image is selected, and otherwise the colour the entry had
    before (["unknown"] for an entry created by this pass). *)
Theorem color_stored_only_when_selected (image_name : string) (is_selected : bool)
    (selected_color : string) (d : list (string * SelEntry)) :
  exists e : SelEntry,
    dict_get image_name (main_image_controls image_name is_selected selected_color d)
      = Some e
    /\ selected e = is_selected
    /\ sel_color e =
         if is_selected then selected_color
         else match dict_get image_name d with
              | Some e0 => sel_color e0
              | None => "unknown"
              end.
Proof.
  unfold main_image_controls, dict_contains.
  destruct (dict_get image_name d) as [e0|] eqn:E; simpl.
  - destruct is_selected; rewrite ?dict_get_update_eq, E; simpl;
      eexists; (split; [reflexivity|]); split; reflexivity.
  - destruct is_selected; rewrite ?dict_get_update_eq, dict_get_set_eq; simpl;
      eexists; (split; [reflexivity|]); split; reflexivity.
Qed.

(** ** The file system calls *)

Lemma bind_return {A B : Type} (c : M A) (k : A -> M B) (v v1 : World) (a : A) :
  c v = (Return a, v1) -> bind c k v = k a v1.
Proof. intros Hc. unfold bind. by rewrite Hc. Qed.

Lemma writing_call_spec (c : FsCall) (e : exn) (partial : FsMap -> FsMap)
    (step : FsMap -> option FsMap) (w : World) (r : Result unit) (w' : World) :
  writing_call c e partial step w = (r, w') ->
  now w' = now w /\ ui w' = ui w
  /\ ((r = Return tt /\ step (fs w) = Some (fs w') /\ calls w' = calls w ++ [c])
      \/ (r = Raise e /\ calls w' = calls w
          /\ (fs w' = fs w \/ (is_Some (step (fs w)) /\ fs w' = partial (fs w))))).
Proof.
  unfold writing_call, next_fault.
  destruct (faults w) as [|[| |] rest]; simpl;
    destruct (step (fs w)) as [m'|] eqn:Hstep; intros [= <- <-]; simpl;
    repeat split; eauto 6.
Qed.

Lemma path_join_length (p : Path) (n : string) : length (p // n) = S (length p).
Proof. unfold path_join. rewrite length_app. simpl. lia. Qed.

Lemma path_join_ne_self (p : Path) (n : string) : p ≠ p // n.
Proof. intros H. apply (f_equal length) in H. rewrite path_join_length in H. lia. Qed.

Lemma path_join_inj (p q : Path) (n k : string) : p // n = q // k -> p = q /\ n = k.
Proof. unfold path_join. intros H. by apply app_inj_tail in H. Qed.

Lemma write_file_lookup (parent : Path) (n : string) (c : Content) (m m' : FsMap) :
  write_file parent n c m = Some m' -> m' !! (parent // n) = Some (File c).
Proof.
  unfold write_file.
  destruct (m !! parent) as [[?|names]|]; try discriminate.
  destruct (m !! (parent // n)) as [[?|?]|]; intros [= <-]; by rewrite lookup_insert_eq.
Qed.

Lemma write_file_frame (parent : Path) (n : string) (c : Content) (m m' : FsMap)
    (q : Path) :
  write_file parent n c m = Some m' -> q ≠ parent -> q ≠ parent // n ->
  m' !! q = m !! q.
Proof.
  unfold write_file. intros H Hq1 Hq2.
  destruct (m !! parent) as [[?|names]|]; try discriminate.
  destruct (m !! (parent // n)) as [[?|?]|]; try discriminate;
    injection H as <-; by rewrite !lookup_insert_ne.
Qed.

(** Directory creation touches the path and its ancestors only. *)
Lemma mkdir_parents_frame (rp : list string) (m m' : FsMap) (q : Path) :
  mkdir_parents rp m = Some m' -> ~ q `prefix_of` rev rp -> m' !! q = m !! q.
Proof.
  revert m m'. induction rp as [|n rq IH]; intros m m' H Hq.
  - simpl in H. destruct (m !! []) as [[?|?]|]; congruence.
  - simpl in H. destruct (m !! (rev rq ++ [n])) as [[?|?]|]; try congruence.
    destruct (mkdir_parents rq m) as [m1|] eqn:H1; [|discriminate].
    unfold os_mkdir in H.
    destruct (m1 !! rev rq) as [[?|names]|]; try discriminate.
    destruct (m1 !! (rev rq // n)); try discriminate. injection H as <-.
    assert (q ≠ rev rq // n) as Hne1.
    { intros ->. apply Hq. simpl. reflexivity. }
    assert (~ q `prefix_of` rev rq) as Hne2.
    { intros Hp. apply Hq. simpl. by apply prefix_app_r. }
    assert (q ≠ rev rq) as Hne3.
    { intros ->. by apply Hne2. }
    rewrite !lookup_insert_ne by done. by apply (IH m m1).
Qed.

Lemma mkdir_parents_is_dir (rp : list string) (m m' : FsMap) :
  mkdir_parents rp m = Some m' -> is_dir_in m' (rev rp) = true.
Proof.
  unfold is_dir_in. destruct rp as [|n rq]; simpl.
  - destruct (m !! []) as [[?|?]|] eqn:E; intros [= <-]. by rewrite E.
  - destruct (m !! (rev rq ++ [n])) as [[?|?]|] eqn:E; try discriminate.
    + intros [= <-]. by rewrite E.
    + destruct (mkdir_parents rq m) as [m1|]; [|discriminate].
      unfold os_mkdir, path_join.
      destruct (m1 !! rev rq) as [[?|names]|]; try discriminate.
      destruct (m1 !! (rev rq ++ [n])); try discriminate.
      intros [= <-]. by rewrite lookup_insert_eq.
Qed.

Lemma copy2_step_frame (src p : Path) (n : string) (c : option Content)
    (m m' : FsMap) (q : Path) :
  copy2_step src (p // n) c m = Some m' ->
  q ≠ p -> q ≠ p // n -> q ≠ p // n // path_name src ->
  m' !! q = m !! q.
Proof.
  unfold copy2_step, copy2_target. intros H Hq1 Hq2 Hq3.
  destruct (bool_decide _); [discriminate|].
  destruct (m !! src) as [[c0|?]|]; try discriminate.
  destruct (is_dir_in m (p // n));
    rewrite path_parent_join, path_name_join in H;
    by apply (write_file_frame _ _ _ _ _ q) in H.
Qed.

(** The effect of each writing call of [save_selection] on the world: the
    clock and the messages stay, the call is recorded when it completes,
    and files of the output folder other than its target keep their
    content. *)
Lemma mkdir_spec (p : Path) (w : World) (r : Result unit) (w' : World) :
  mkdir p w = (r, w') ->
  now w' = now w /\ ui w' = ui w
  /\ ((r = Return tt /\ mkdir_parents (rev p) (fs w) = Some (fs w')
       /\ calls w' = calls w ++ [Mkdir p])
      \/ (r = Raise (OSError "mkdir" p) /\ fs w' = fs w /\ calls w' = calls w)).
Proof.
  intros H. apply writing_call_spec in H as (Hn & Hu & [H|(Hr & Hc & [Hf|[_ Hf]])]);
    auto 6.
Qed.

Lemma copy2_spec (src p : Path) (n : string) (w : World) (r : Result unit) (w' : World) :
  copy2 src (p // n) w = (r, w') ->
  now w' = now w /\ ui w' = ui w
  /\ (forall x : string, x ≠ n -> fs w' !! (p // x) = fs w !! (p // x))
  /\ ((r = Return tt /\ calls w' = calls w ++ [Copy2 src (p // n)])
      \/ (r = Raise (OSError "copy2" (p // n)) /\ calls w' = calls w)).
Proof.
  intros H. apply writing_call_spec in H as (Hn & Hu & H).
  assert (forall (c : option Content) (m' : FsMap) (x : string),
            copy2_step src (p // n) c (fs w) = Some m' -> x ≠ n ->
            m' !! (p // x) = fs w !! (p // x)) as Hframe.
  { intros c m' x Hstep Hx. apply (copy2_step_frame _ _ _ _ _ _ _ Hstep).
    - intros E. symmetry in E. by apply path_join_ne_self in E.
    - intros E. apply path_join_inj in E as [_ E]. by apply Hx.
    - intros E. apply (f_equal length) in E. rewrite !path_join_length in E. lia. }
  repeat split; try assumption.
  - intros x Hx. destruct H as [(_ & Hstep & _)|(_ & _ & [Hf|[[m' Hstep] Hf]])].
    + by apply (Hframe None).
    + by rewrite Hf.
    + rewrite Hf.
      destruct (copy2_step src (p // n) (Some Partial) (fs w)) as [m1|] eqn:E; simpl;
        [by apply (Hframe (Some Partial) m1)|reflexivity].
  - destruct H as [(Hr & _ & Hc)|(Hr & Hc & _)]; auto.
Qed.

Lemma write_json_spec (p : Path) (t : string) (data : SelectionRecord) (w : World)
    (r : Result unit) (w' : World) :
  write_json (p // t) data w = (r, w') ->
  now w' = now w /\ ui w' = ui w
  /\ (forall x : string, x ≠ t -> fs w' !! (p // x) = fs w !! (p // x))
  /\ ((r = Return tt /\ fs w' !! (p // t) = Some (File (Json data))
       /\ calls w' = calls w ++ [WriteJson (p // t) data])
      \/ (r = Raise (OSError "open" (p // t)) /\ calls w' = calls w)).
Proof.
  intros H. unfold write_json in H. rewrite path_parent_join, path_name_join in H.
  apply writing_call_spec in H as (Hn & Hu & H).
  assert (forall (c : Content) (m' : FsMap) (x : string),
            write_file p t c (fs w) = Some m' -> x ≠ t ->
            m' !! (p // x) = fs w !! (p // x)) as Hframe.
  { intros c m' x Hstep Hx. apply (write_file_frame _ _ _ _ _ _ Hstep).
    - intros E. symmetry in E. by apply path_join_ne_self in E.
    - intros E. apply path_join_inj in E as [_ E]. by apply Hx. }
  repeat split; try assumption.
  - intros x Hx. destruct H as [(_ & Hstep & _)|(_ & _ & [Hf|[[m' Hstep] Hf]])].
    + by apply (Hframe (Json data)).
    + by rewrite Hf.
    + rewrite Hf.
      destruct (write_file p t Partial (fs w)) as [m1|] eqn:E; simpl;
        [by apply (Hframe Partial m1)|reflexivity].
  - destruct H as [(Hr & Hstep & Hc)|(Hr & Hc & _)]; [left|auto].
    repeat split; try assumption. by apply write_file_lookup in Hstep.
Qed.

Lemma replace_spec (p : Path) (t s : string) (w : World) (r : Result unit) (w' : World) :
  replace (p // t) (p // s) w = (r, w') -> t ≠ s ->
  now w' = now w /\ ui w' = ui w
  /\ ((r = Return tt /\ calls w' = calls w ++ [Replace (p // t) (p // s)]
       /\ exists c : Content,
            fs w !! (p // t) = Some (File c) /\ fs w' !! (p // s) = Some (File c))
      \/ (r = Raise (OSError "replace" (p // s)) /\ fs w' = fs w /\ calls w' = calls w)).
Proof.
  intros H Hts. apply writing_call_spec in H as (Hn & Hu & H).
  repeat split; try assumption.
  destruct H as [(Hr & Hstep & Hc)|(Hr & Hc & [Hf|[_ Hf]])]; auto.
  left. repeat split; try assumption.
  unfold replace_step in Hstep.
  destruct (fs w !! (p // t)) as [[c|?]|]; try discriminate.
  rewrite bool_decide_eq_false_2 in Hstep.
  2:{ intros E. apply path_join_inj in E as [_ E]. by apply Hts. }
  rewrite path_parent_join, path_name_join in Hstep.
  exists c. split; [reflexivity|]. by apply write_file_lookup in Hstep.
Qed.

(** ** The loops of [save_selection] *)

Lemma named_file_of (img_info : ImgInfo) :
  named img_info -> info_original_file img_info = Some (file_of img_info).
Proof. unfold named, file_of. by intros [o ->]. Qed.

Lemma find_missing_files_named (source_folder : Path) (l : list ImgInfo)
    (acc : list string) (w : World) :
  Forall named l ->
  find_missing_files source_folder l acc w
  = (Return (acc ++ missing_in (fs w) source_folder l), w).
Proof.
  unfold missing_in. intros Hl. revert acc.
  induction Hl as [|img l Himg Hl IH]; intros acc; simpl.
  - unfold ret. by rewrite app_nil_r.
  - unfold bind, get_original_file. rewrite (named_file_of _ Himg).
    unfold ret, path_exists. rewrite IH.
    destruct (exists_in (fs w) (source_folder // file_of img)) eqn:E; simpl.
    + rewrite filter_cons_False; [reflexivity|]. by rewrite E.
    + rewrite filter_cons_True by done. by rewrite <- app_assoc.
Qed.

Lemma find_missing_files_unnamed (source_folder : Path) (l : list ImgInfo)
    (acc : list string) (w : World) :
  ~ Forall named l ->
  find_missing_files source_folder l acc w = (Raise (KeyError "original_file"), w).
Proof.
  revert acc. induction l as [|img l IH]; intros acc Hl; simpl.
  - exfalso. apply Hl. constructor.
  - unfold bind, get_original_file.
    destruct (info_original_file img) as [o|] eqn:E; [|reflexivity].
    unfold ret, path_exists. apply IH. intros Hl'. apply Hl.
    constructor; [|exact Hl']. unfold named. rewrite E. by eexists.
Qed.

Lemma new_filename_head (idx : nat) (c o : string) :
  exists rest : string, new_filename idx c o = String "r" rest.
Proof. eexists. reflexivity. Qed.

(** The copy loop: it leaves the clock, the messages and every file of the
    output folder whose name does not start like a reference name as they
    were; when it returns, every selection named its file, the metadata and
    the recorded copies are those of the selections in order, numbered from
    [idx]. *)
Lemma copy_selected_spec (source_folder pof : Path) (l : list ImgInfo) :
  forall (idx : nat) (acc : list ImageMeta) (w : World) (r : Result (list ImageMeta))
         (w' : World),
  copy_selected source_folder pof l idx acc w = (r, w') ->
  now w' = now w /\ ui w' = ui w
  /\ (forall x : string, (forall rest, x ≠ String "r" rest) ->
        fs w' !! (pof // x) = fs w !! (pof // x))
  /\ (exists k : nat,
        calls w' = calls w ++ imap (fun i => copy_of source_folder pof (idx + i)) (take k l))
  /\ (forall meta : list ImageMeta, r = Return meta ->
        Forall named l
        /\ meta = acc ++ imap (fun i => meta_of (idx + i)) l
        /\ calls w' = calls w ++ imap (fun i => copy_of source_folder pof (idx + i)) l).
Proof.
  induction l as [|img l IH]; intros idx acc w r w' H; simpl in H.
  - injection H as <- <-. repeat split; try reflexivity.
    + exists 0%nat. simpl. by rewrite app_nil_r.
    + constructor.
    + injection H as <-. simpl. by rewrite app_nil_r.
    + simpl. by rewrite app_nil_r.
  - unfold bind in H at 1. unfold get_original_file in H.
    destruct (info_original_file img) as [o|] eqn:Eo.
    2:{ unfold raise in H. injection H as <- <-. repeat split; try reflexivity.
        - exists 0%nat. simpl. by rewrite app_nil_r.
        - discriminate.
        - discriminate.
        - discriminate. }
    unfold ret in H. unfold bind in H.
    destruct (copy2 (source_folder // o)
                (pof // new_filename idx (get_color img) o) w) as [rc w1] eqn:Hc.
    apply copy2_spec in Hc as (Hn1 & Hu1 & Hf1 & Hc1).
    assert (file_of img = o) as Hfo by (unfold file_of; by rewrite Eo).
    assert (forall x : string, (forall rest, x ≠ String "r" rest) ->
              fs w1 !! (pof // x) = fs w !! (pof // x)) as Hf1'.
    { intros x Hx. apply Hf1.
      destruct (new_filename_head idx (get_color img) o) as [rest ->]. apply Hx. }
    destruct Hc1 as [[-> Hc1]|[-> Hc1]].
    + apply IH in H as (Hn & Hu & Hf & [k Hk] & Hret).
      assert (forall l' : list ImgInfo,
                calls w1 ++ imap (fun i => copy_of source_folder pof (S idx + i)) l'
                = calls w ++ imap (fun i => copy_of source_folder pof (idx + i)) (img :: l'))
        as Hcalls.
      { intros l'. rewrite Hc1, <- app_assoc. f_equal. simpl. f_equal.
        - unfold copy_of. by rewrite Nat.add_0_r, Hfo.
        - apply imap_ext. intros i x _. simpl. f_equal. lia. }
      repeat split.
      * congruence.
      * congruence.
      * intros x Hx. rewrite Hf by done. by apply Hf1'.
      * exists (S k). rewrite Hk. apply Hcalls.
      * apply Hret in H as (Hl & _ & _). constructor; [|exact Hl].
        unfold named. rewrite Eo. by eexists.
      * apply Hret in H as (_ & -> & _). rewrite <- app_assoc. f_equal. simpl. f_equal.
        -- unfold meta_of. by rewrite Nat.add_0_r, Hfo.
        -- apply imap_ext. intros i x _. simpl. f_equal. lia.
      * apply Hret in H as (_ & _ & ->). apply Hcalls.
    + injection H as <- <-. repeat split; try assumption; try discriminate.
      exists 0%nat. simpl. by rewrite app_nil_r.
Qed.

(** ** [save_selection] *)

Lemma bind_inv {A B} (c : M A) (k : A -> M B) (w : World) (r : Result B) (w' : World) :
  bind c k w = (r, w') ->
  (exists (a : A) (w1 : World), c w = (Return a, w1) /\ k a w1 = (r, w'))
  \/ (exists e : exn, c w = (Raise e, w') /\ r = Raise e).
Proof.
  unfold bind. destruct (c w) as [[a|e] w1]; intros H.
  - left. by exists a, w1.
  - right. injection H as <- <-. by exists e.
Qed.

Lemma selection_file_not_above (pof : Path) (x : string) :
  ~ (pof // x) `prefix_of` rev (rev pof).
Proof.
  rewrite rev_involutive. intros H. apply prefix_length in H.
  rewrite path_join_length in H. lia.
Qed.

(** The five ways out of the body of [save_selection]. *)
Lemma save_selection_body_cases (OUTPUT_FOLDER : Path) (product : string)
    (source_folder : Path) (sels : list ImgInfo) (user : string)
    (w : World) (r : Result bool) (w' : World) :
  save_selection_body OUTPUT_FOLDER product source_folder sels user w = (r, w') ->
  now w' = now w
  /\ ((r = Raise (OSError "mkdir" (OUTPUT_FOLDER // product))
       /\ fs w' = fs w /\ calls w' = calls w /\ ui w' = ui w)
      \/ (r = Raise (KeyError "original_file")
          /\ ~ Forall named sels
          /\ mkdir_parents (rev (OUTPUT_FOLDER // product)) (fs w) = Some (fs w')
          /\ calls w' = calls w ++ [Mkdir (OUTPUT_FOLDER // product)]
          /\ ui w' = ui w)
      \/ (r = Return false
          /\ Forall named sels
          /\ mkdir_parents (rev (OUTPUT_FOLDER // product)) (fs w) = Some (fs w')
          /\ calls w' = calls w ++ [Mkdir (OUTPUT_FOLDER // product)]
          /\ missing_in (fs w') source_folder sels ≠ []
          /\ ui w' = ui w ++
               [MissingFiles (length (missing_in (fs w') source_folder sels))
                  (join ", " (take 3 (missing_in (fs w') source_folder sels)))])
      \/ (exists (e : exn) (m1 : FsMap),
            r = Raise e
            /\ Forall named sels
            /\ mkdir_parents (rev (OUTPUT_FOLDER // product)) (fs w) = Some m1
            /\ missing_in m1 source_folder sels = []
            /\ fs w' !! (OUTPUT_FOLDER // product // "selection.json")
               = fs w !! (OUTPUT_FOLDER // product // "selection.json"))
      \/ (exists m1 : FsMap,
            r = Return true
            /\ Forall named sels
            /\ mkdir_parents (rev (OUTPUT_FOLDER // product)) (fs w) = Some m1
            /\ missing_in m1 source_folder sels = []
            /\ fs w' !! (OUTPUT_FOLDER // product // "selection.json")
               = Some (File (Json {| product_name := product; completed := true;
                                     selected_by := user; timestamp := now w;
                                     images := imap (fun i => meta_of (S i)) sels |}))
            /\ calls w' =
                 calls w ++ [Mkdir (OUTPUT_FOLDER // product)]
                 ++ imap (fun i => copy_of source_folder (OUTPUT_FOLDER // product) (S i)) sels
                 ++ [WriteJson (OUTPUT_FOLDER // product // ".selection.json.tmp")
                       {| product_name := product; completed := true;
                          selected_by := user; timestamp := now w;
                          images := imap (fun i => meta_of (S i)) sels |};
                     Replace (OUTPUT_FOLDER // product // ".selection.json.tmp")
                             (OUTPUT_FOLDER // product // "selection.json")]
            /\ (ui w' = ui w \/ ui w' = ui w ++ [AlreadySaved]))).
Proof.
  unfold save_selection_body. set (pof := OUTPUT_FOLDER // product).
  intros H.
  (* mkdir *)
  apply bind_inv in H as [([] & w1 & Hmk & H)|(e & Hmk & ->)];
    apply mkdir_spec in Hmk as (Hn1 & Hu1 & [(Hr1 & Hm1 & Hc1)|(Hr1 & Hm1 & Hc1)]);
    try discriminate.
  2:{ injection Hr1 as ->. split; [exact Hn1|]. left. auto. }
  clear Hr1.
  assert (forall x : string, fs w1 !! (pof // x) = fs w !! (pof // x)) as Hkeep1.
  { intros x. apply (mkdir_parents_frame _ _ _ _ Hm1). apply selection_file_not_above. }
  (* validation *)
  destruct (decide (Forall named sels)) as [Hnamed|Hunnamed].
  2:{ apply bind_inv in H as [(missing & w2 & Hv & H)|(e & Hv & ->)];
        rewrite find_missing_files_unnamed in Hv by exact Hunnamed;
        [discriminate|]. injection Hv as <- <-.
      split; [exact Hn1|]. right. left. auto. }
  apply bind_inv in H as [(missing & w2 & Hv & H)|(e & Hv & ->)];
    rewrite find_missing_files_named in Hv by exact Hnamed;
    [|discriminate]. injection Hv as <- <-.
  simpl in H.
  destruct (bool_decide (missing_in (fs w1) source_folder sels = [])) eqn:Hmiss; simpl in H.
  2:{ apply bool_decide_eq_false in Hmiss.
      unfold bind, st_message, ret in H. injection H as <- <-.
      split; [exact Hn1|]. right. right. left. simpl. rewrite Hu1. auto 7. }
  apply bool_decide_eq_true in Hmiss.
  (* the warning *)
  unfold bind at 1 in H. unfold path_exists at 1 in H.
  apply bind_inv in H as [([] & w3 & Hwarn & H)|(e & Hwarn & ->)].
  2:{ destruct (exists_in (fs w1) (pof // "selection.json")); discriminate. }
  assert (fs w3 = fs w1 /\ now w3 = now w1 /\ calls w3 = calls w1
          /\ (ui w3 = ui w1 \/ ui w3 = ui w1 ++ [AlreadySaved])) as (Hf3 & Hn3 & Hc3 & Hu3).
  { destruct (exists_in (fs w1) (pof // "selection.json"));
      injection Hwarn as <-; simpl; auto. }
  (* the copies *)
  apply bind_inv in H as [(meta & w4 & Hcp & H)|(e & Hcp & ->)];
    apply copy_selected_spec in Hcp as (Hn4 & Hu4 & Hf4 & _ & Hret4).
  2:{ split; [congruence|]. right. right. right. left. exists e, (fs w1).
      repeat split; try assumption.
      rewrite Hf4 by (intros rest; discriminate). rewrite Hf3. apply Hkeep1. }
  destruct (Hret4 meta eq_refl) as (_ & Hmeta & Hc4). simpl in Hmeta. subst meta.
  unfold bind at 1 in H. unfold datetime_now at 1 in H.
  (* the dump *)
  apply bind_inv in H as [([] & w5 & Hwj & H)|(e & Hwj & ->)];
    apply write_json_spec in Hwj as (Hn5 & Hu5 & Hf5 & Hwj).
  2:{ split; [congruence|]. right. right. right. left. exists e, (fs w1).
      repeat split; try assumption.
      rewrite Hf5 by discriminate. rewrite Hf4 by (intros rest; discriminate).
      rewrite Hf3. apply Hkeep1. }
  destruct Hwj as [(_ & Htmp & Hc5)|(? & _)]; [|discriminate].
  (* the rename *)
  apply bind_inv in H as [([] & w6 & Hrp & H)|(e & Hrp & ->)];
    apply replace_spec in Hrp as (Hn6 & Hu6 & Hrp); try discriminate.
  2:{ destruct Hrp as [(? & _)|(_ & Hf6 & _)]; [discriminate|].
      split; [congruence|]. right. right. right. left. exists e, (fs w1).
      repeat split; try assumption.
      rewrite Hf6. rewrite Hf5 by discriminate.
      rewrite Hf4 by (intros rest; discriminate). rewrite Hf3. apply Hkeep1. }
  destruct Hrp as [(_ & Hc6 & c & Hc & Hsel)|(? & _)]; [|discriminate].
  unfold ret in H. injection H as <- <-.
  rewrite Htmp in Hc. injection Hc as <-.
  split; [congruence|]. right. right. right. right. exists (fs w1).
  repeat split; try assumption.
  - rewrite Hsel. do 3 f_equal. congruence.
  - rewrite Hc6, Hc5, Hc4, Hc3, Hc1. rewrite <- !app_assoc. simpl.
    do 4 f_equal. congruence.
  - rewrite Hu6, Hu5, Hu4. destruct Hu3 as [->| ->]; rewrite Hu1; auto.
Qed.

Lemma save_selection_run (OUTPUT_FOLDER : Path) (product : string)
    (source_folder : Path) (sels : list ImgInfo) (user : string) (w : World) :
  save_selection OUTPUT_FOLDER product source_folder sels user w
  = match save_selection_body OUTPUT_FOLDER product source_folder sels user w with
    | (Return b, w1) => (Return b, w1)
    | (Raise e, w1) => (Return false, say (SaveError e) w1)
    end.
Proof.
  unfold save_selection, try_except.
  by destruct (save_selection_body _ _ _ _ _ w) as [[b|e] w1].
Qed.

(** What a save that returned [True] has done. *)
Lemma save_selection_true (OUTPUT_FOLDER : Path) (product : string)
    (source_folder : Path) (sels : list ImgInfo) (user : string) (w w' : World) :
  save_selection OUTPUT_FOLDER product source_folder sels user w = (Return true, w') ->
  Forall named sels
  /\ fs w' !! (OUTPUT_FOLDER // product // "selection.json")
     = Some (File (Json {| product_name := product; completed := true;
                           selected_by := user; timestamp := now w;
                           images := imap (fun i => meta_of (S i)) sels |}))
  /\ calls w' =
       calls w ++ [Mkdir (OUTPUT_FOLDER // product)]
       ++ imap (fun i => copy_of source_folder (OUTPUT_FOLDER // product) (S i)) sels
       ++ [WriteJson (OUTPUT_FOLDER // product // ".selection.json.tmp")
             {| product_name := product; completed := true;
                selected_by := user; timestamp := now w;
                images := imap (fun i => meta_of (S i)) sels |};
           Replace (OUTPUT_FOLDER // product // ".selection.json.tmp")
                   (OUTPUT_FOLDER // product // "selection.json")].
Proof.
  rewrite save_selection_run.
  destruct (save_selection_body OUTPUT_FOLDER product source_folder sels user w)
    as [[b|e] w1] eqn:Hb; [|discriminate].
  intros [= -> ->].
  apply save_selection_body_cases in Hb as (Hn & Hcases).
  destruct Hcases as [(? & _)|[(? & _)|[(? & _)
                     |[(e & m1 & ? & _)|(m1 & _ & Hnamed & _ & _ & Hsel & Hc & _)]]]];
    try discriminate.
  auto.
Qed.

Lemma save_publishes_metadata_file (OUTPUT_FOLDER : Path) (product : string)
    (source_folder : Path) (sels : list ImgInfo) (user : string) (w w' : World) :
  save_selection OUTPUT_FOLDER product source_folder sels user w = (Return true, w') ->
  exists data : Node,
    fs w' !! (OUTPUT_FOLDER // product // "selection.json") = Some data.
Proof. intros H. apply save_selection_true in H as (_ & -> & _). by eexists. Qed.


(** C10: [save_selection] returns a boolean in every world, whatever the
    environment fails: an exception raised in its body (by the directory
    creation, the validation, a copy, the dump or the rename) is reported
    and turned into [False]; and it returns [True] only with the directory
    creation, every copy, the dump and the rename completed, in this order. *)
Theorem save_selection_catches_every_exception (OUTPUT_FOLDER : Path)
    (product : string) (source_folder : Path) (sels : list ImgInfo) (user : string)
    (w : World) :
  exists (b : bool) (w' : World),
    save_selection OUTPUT_FOLDER product source_folder sels user w = (Return b, w')
    /\ match save_selection_body OUTPUT_FOLDER product source_folder sels user w with
       | (Raise e, w1) => b = false /\ w' = say (SaveError e) w1
       | (Return b0, w1) => b = b0 /\ w' = w1
       end
    /\ if b then
         exists ts : string,
           calls w' =
             calls w ++ [Mkdir (OUTPUT_FOLDER // product)]
             ++ imap (fun i => copy_of source_folder (OUTPUT_FOLDER // product) (S i)) sels
             ++ [WriteJson (OUTPUT_FOLDER // product // ".selection.json.tmp")
                   {| product_name := product; completed := true;
                      selected_by := user; timestamp := ts;
                      images := imap (fun i => meta_of (S i)) sels |};
                 Replace (OUTPUT_FOLDER // product // ".selection.json.tmp")
                         (OUTPUT_FOLDER // product // "selection.json")]
       else True.
Proof.
  rewrite save_selection_run.
  destruct (save_selection_body OUTPUT_FOLDER product source_folder sels user w)
    as [[b|e] w1] eqn:Hb.
  - exists b, w1. repeat split. destruct b; [|exact I].
    apply save_selection_body_cases in Hb as (Hn & Hcases).
    destruct Hcases as [(? & _)|[(? & _)|[(? & _)
                       |[(e & m1 & ? & _)|(m1 & _ & _ & _ & _ & _ & Hc & _)]]]];
      try discriminate.
    exists (now w). exact Hc.
  - eexists false, _. repeat split.
Qed.

(** ** Completion and delete *)

Lemma path_parent_shorter (p : Path) : (length (path_parent p) <= length p)%nat.
Proof.
  unfold path_parent. induction p as [|x [|y p] IH]; simpl in *; lia.
Qed.

Lemma remove_tree_below (p : Path) (x : string) (m : FsMap) :
  remove_tree p m !! (p // x) = None.
Proof.
  unfold remove_tree.
  assert (filter (fun kv : Path * Node => ~ p `prefix_of` kv.1) m !! (p // x) = None)
    as Hgone.
  { apply map_lookup_filter_None. right. intros v _ Hnot. apply Hnot. simpl.
    unfold path_join. by apply prefix_app_r. }
  assert (path_parent p ≠ p // x) as Hne.
  { intros E. apply (f_equal length) in E. rewrite path_join_length in E.
    pose proof (path_parent_shorter p). lia. }
  destruct (filter _ m !! path_parent p) as [[c|names]|]; try exact Hgone.
  destruct (bool_decide (p = [])); [exact Hgone|].
  by rewrite lookup_insert_ne.
Qed.

Lemma main_confirm_delete_spec (OUTPUT_FOLDER : Path) (product : string) (v : World) :
  exists v' : World,
    main_confirm_delete OUTPUT_FOLDER product v = (Return tt, v')
    /\ now v' = now v
    /\ ((fs v' = remove_tree (OUTPUT_FOLDER // product) (fs v)
         /\ is_dir_in (fs v) (OUTPUT_FOLDER // product) = true
         /\ calls v' = calls v ++ [Rmtree (OUTPUT_FOLDER // product)]
         /\ ui v' = ui v ++ [Deleted product])
        \/ ((exists removed : list Path,
                fs v' = remove_below (OUTPUT_FOLDER // product) removed (fs v))
            /\ calls v' = calls v
            /\ ui v' = ui v ++ [DeleteFailed (OSError "rmtree" (OUTPUT_FOLDER // product))])).
Proof.
  unfold main_confirm_delete, try_except, bind, rmtree, next_fault.
  destruct (faults v) as [|[| |removed] rest]; simpl;
    destruct (is_dir_in (fs v) (OUTPUT_FOLDER // product)) eqn:Hd; simpl;
    eexists; (split; [reflexivity|]); (split; [reflexivity|]); simpl;
    first [ left; repeat split; reflexivity
          | right; split; [by exists []|by split]
          | right; split; [by exists removed|by split] ].
Qed.

(** C8: in the world a save that returned [True] leaves,
    [is_product_completed] returns [True]; in the world the delete handler
    leaves when its removal completed, [is_product_completed] returns
    [False].  Neither query changes the world. *)
Theorem completed_after_save_and_not_after_delete (OUTPUT_FOLDER : Path)
    (product : string) (source_folder : Path) (sels : list ImgInfo) (user : string)
    (w w1 v v' : World) (r : Result unit) :
  save_selection OUTPUT_FOLDER product source_folder sels user w = (Return true, w1) ->
  main_confirm_delete OUTPUT_FOLDER product v = (r, v') ->
  calls v' = calls v ++ [Rmtree (OUTPUT_FOLDER // product)] ->
  is_product_completed OUTPUT_FOLDER product w1 = (Return true, w1)
  /\ is_product_completed OUTPUT_FOLDER product v' = (Return false, v').
Proof.
  intros Hsave Hdel Hcalls. unfold is_product_completed, path_exists, exists_in. split.
  - destruct (save_publishes_metadata_file OUTPUT_FOLDER product source_folder sels
                user w w1 Hsave) as [data ->]. reflexivity.
  - destruct (main_confirm_delete_spec OUTPUT_FOLDER product v)
      as (v2 & Hrun & _ & [(Hf & _)|(_ & Hc & _)]);
      rewrite Hrun in Hdel; injection Hdel as _ <-.
    + by rewrite Hf, remove_tree_below.
    + rewrite Hc in Hcalls. symmetry in Hcalls.
      rewrite <- (app_nil_r (calls v)) in Hcalls at 2.
      apply app_inv_head in Hcalls. discriminate.
Qed.

Lemma completed_after_save_and_not_after_delete_witness :
  is_product_completed ["out"] "p" demo_saved = (Return true, demo_saved)
  /\ is_product_completed ["out"] "p" demo_deleted = (Return false, demo_deleted).
Proof.
  apply (completed_after_save_and_not_after_delete ["out"] "p" ["src"; "p"]
           demo_selections "me" demo_world demo_saved demo_saved demo_deleted (Return tt));
    vm_compute; reflexivity.
Defined.

(** ** Saving with a missing source *)

Example save_with_missing_source :
  let r := save_selection ["out"] "p" ["src"; "p"] [demo_missing] "me" demo_world in
  r.1 = Return false
  /\ fs demo_world !! ["out"; "p"] = None
  /\ fs r.2 !! ["out"; "p"] = Some (Dir [])
  /\ calls r.2 = [Mkdir ["out"; "p"]]
  /\ ui r.2 = [MissingFiles 1 "zz.png"].
Proof. vm_compute. repeat split; reflexivity. Qed.




(** ** The names of the saved files *)

Example save_uppercase_extension :
  let r := save_selection ["out"] "p" ["src"; "p"] demo_selections "me" demo_world in
  r.1 = Return true
  /\ calls r.2 !! 1%nat
     = Some (Copy2 ["src"; "p"; "b.PNG"] ["out"; "p"; "ref_1_unknown.png"])
  /\ calls r.2 !! 2%nat
     = Some (Copy2 ["src"; "p"; "a.png"] ["out"; "p"; "ref_2_red.png"])
  /\ fs r.2 !! ["out"; "p"; "ref_1_unknown.png"] = Some (File (Bytes "BBB"))
  /\ fs r.2 !! ["out"; "p"; "ref_1_unknown.PNG"] = None.
Proof. vm_compute. repeat split; reflexivity. Qed.

(** C3, as stated, does not hold: the extension of the saved name is not the
    extension of the original file as it is written, but its lowercase form
    ([b.PNG] is saved as [ref_1_unknown.png]). *)
Lemma saved_name_does_not_keep_extension_case :
  ~ (forall (OUTPUT_FOLDER : Path) (product : string) (source_folder : Path)
            (sels : list ImgInfo) (user : string) (w w' : World)
            (i : nat) (img : ImgInfo) (o : string),
       save_selection OUTPUT_FOLDER product source_folder sels user w = (Return true, w') ->
       sels !! i = Some img -> info_original_file img = Some o ->
       calls w' !! (length (calls w) + 1 + i)%nat
       = Some (Copy2 (source_folder // o)
                 (OUTPUT_FOLDER // product //
                    ("ref_" +:+ pretty (S i) +:+ "_" +:+ get_color img +:+ suffix o)))).
Proof.
  intros H.
  specialize (H ["out"] "p" ["src"; "p"] demo_selections "me" demo_world demo_saved
                0%nat {| info_original_file := Some "b.PNG"; info_color := Some "" |}
                "b.PNG").
  assert (save_selection ["out"] "p" ["src"; "p"] demo_selections "me" demo_world
          = (Return true, demo_saved)) as Hrun by (vm_compute; reflexivity).
  specialize (H Hrun eq_refl eq_refl).
  vm_compute in H. discriminate.
Qed.

(** C3, amended: after a save that returned [True], the selection at
    position [i] (counting from 0) names its file [o], the call of index
    [1 + i] of the save is the copy of [source_folder / o] to
    [ref_<i+1>_<color><ext>] in the product's output folder, and the entry
    [i] of the published record carries that name, where [<ext>] is the
    suffix of [o] in lowercase and [<color>] is the selection's colour, or
    ["unknown"] when the colour is empty or absent. *)
Theorem saved_names_follow_selection_order (OUTPUT_FOLDER : Path) (product : string)
    (source_folder : Path) (sels : list ImgInfo) (user : string) (w w' : World)
    (i : nat) (img : ImgInfo) :
  save_selection OUTPUT_FOLDER product source_folder sels user w = (Return true, w') ->
  sels !! i = Some img ->
  exists (o c : string) (data : SelectionRecord),
    info_original_file img = Some o
    /\ c = match info_color img with
           | Some c0 => if bool_decide (c0 = "") then "unknown" else c0
           | None => "unknown"
           end
    /\ calls w' !! (length (calls w) + 1 + i)%nat
       = Some (Copy2 (source_folder // o)
                 (OUTPUT_FOLDER // product //
                    ("ref_" +:+ pretty (S i) +:+ "_" +:+ c +:+ lower (suffix o))))
    /\ fs w' !! (OUTPUT_FOLDER // product // "selection.json") = Some (File (Json data))
    /\ length (images data) = length sels
    /\ images data !! i
       = Some {| original_file := o;
                 saved_file := "ref_" +:+ pretty (S i) +:+ "_" +:+ c +:+ lower (suffix o);
                 color := c |}.
Proof.
  intros Hsave Hi.
  apply save_selection_true in Hsave as (Hnamed & Hsel & Hc).
  assert (named img) as Himg.
  { eapply Forall_forall; [exact Hnamed|]. by eapply list_elem_of_lookup_2. }
  apply named_file_of in Himg.
  exists (file_of img), (get_color img). eexists.
  split; [exact Himg|]. split; [reflexivity|].
  split; [|split; [exact Hsel|split]].
  - rewrite Hc. rewrite lookup_app_r by lia.
    replace (length (calls w) + 1 + i - length (calls w))%nat with (S i) by lia.
    simpl. rewrite lookup_app_l.
    2:{ rewrite length_imap. by eapply lookup_lt_Some. }
    rewrite list_lookup_imap, Hi. reflexivity.
  - simpl. apply length_imap.
  - simpl. rewrite list_lookup_imap, Hi. reflexivity.
Qed.

Lemma saved_names_follow_selection_order_witness :
  exists (o c : string) (data : SelectionRecord),
    info_original_file {| info_original_file := Some "a.png"; info_color := Some "red" |}
      = Some o
    /\ c = match info_color {| info_original_file := Some "a.png";
                               info_color := Some "red" |} with
           | Some c0 => if bool_decide (c0 = "") then "unknown" else c0
           | None => "unknown"
           end
    /\ calls demo_saved !! (length (calls demo_world) + 1 + 1)%nat
       = Some (Copy2 (["src"; "p"] // o)
                 (["out"] // "p" //
                    ("ref_" +:+ pretty 2%nat +:+ "_" +:+ c +:+ lower (suffix o))))
    /\ fs demo_saved !! (["out"] // "p" // "selection.json") = Some (File (Json data))
    /\ length (images data) = length demo_selections
    /\ images data !! 1%nat
       = Some {| original_file := o;
                 saved_file := "ref_" +:+ pretty 2%nat +:+ "_" +:+ c +:+ lower (suffix o);
                 color := c |}.
Proof.
  apply (saved_names_follow_selection_order ["out"] "p" ["src"; "p"] demo_selections
           "me" demo_world demo_saved 1%nat
           {| info_original_file := Some "a.png"; info_color := Some "red" |});
    vm_compute; reflexivity.
Defined.

(** ** The order of the selections handed to the save *)

Lemma reset_keys (l : list Path) (acc : list (string * SelEntry)) :
  NoDup (dict_keys acc ++ map path_name l) ->
  dict_keys (foldl (fun d img => dict_set (path_name img) unselected d) acc l)
  = dict_keys acc ++ map path_name l.
Proof.
  revert acc. induction l as [|img l IH]; intros acc Hnd; simpl.
  - by rewrite app_nil_r.
  - simpl in Hnd.
    assert (dict_keys (dict_set (path_name img) unselected acc)
            = dict_keys acc ++ [path_name img]) as Hk.
    { rewrite dict_keys_set. unfold dict_contains.
      destruct (dict_get (path_name img) acc) eqn:E; [|reflexivity].
      exfalso. apply NoDup_app in Hnd as (_ & Hdisj & _).
      assert (path_name img ∈ dict_keys acc) as Hin.
      { destruct (decide (path_name img ∈ dict_keys acc)) as [?|Hn]; [done|].
        apply dict_get_None_keys in Hn. congruence. }
      apply (Hdisj _ Hin). by left. }
    rewrite IH; rewrite Hk, <- app_assoc; [reflexivity|exact Hnd].
Qed.

Lemma main_image_controls_keys (n : string) (b : bool) (c : string)
    (d : list (string * SelEntry)) :
  n ∈ dict_keys d -> dict_keys (main_image_controls n b c d) = dict_keys d.
Proof.
  intros Hin. unfold main_image_controls, dict_contains.
  destruct (dict_get n d) eqn:E.
  - simpl. destruct b; by rewrite ?dict_keys_update.
  - apply dict_get_None_keys in E. contradiction.
Qed.

Lemma apply_controls_keys (evs : list (string * bool * string))
    (d : list (string * SelEntry)) :
  Forall (fun ev => ev.1.1 ∈ dict_keys d) evs ->
  dict_keys (apply_controls evs d) = dict_keys d.
Proof.
  unfold apply_controls. revert d.
  induction evs as [|ev evs IH]; intros d Hevs; simpl; [reflexivity|].
  inversion Hevs as [|? ? Hev Hrest]; subst.
  pose proof (main_image_controls_keys ev.1.1 ev.1.2 ev.2 d Hev) as Hk.
  rewrite IH; [exact Hk|]. by rewrite Hk.
Qed.

Lemma dict_get_elem (d : list (string * SelEntry)) (k : string) (e : SelEntry) :
  NoDup (dict_keys d) -> (k, e) ∈ d -> dict_get k d = Some e.
Proof.
  induction d as [|[k' e'] d IH]; simpl; intros Hnd Hin.
  - by apply elem_of_nil in Hin.
  - apply NoDup_cons in Hnd as [Hk' Hnd].
    apply elem_of_cons in Hin as [[= -> ->]|Hin].
    + by rewrite bool_decide_eq_true_2.
    + rewrite bool_decide_eq_false_2; [by apply IH|].
      intros ->. apply Hk'. unfold dict_keys.
      apply list_elem_of_fmap. by exists (k, e).
Qed.

(** The collecting loop walks the mapping in its own order. *)
Lemma main_collect_selected_via (d : list (string * SelEntry))
    (sel : string -> bool) (col : string -> string) :
  (forall k e, (k, e) ∈ d -> sel k = selected e /\ col k = sel_color e) ->
  main_collect_selected d
  = map (fun n => {| info_original_file := Some n; info_color := Some (col n) |})
        (filter (fun n => sel n = true) (dict_keys d)).
Proof.
  induction d as [|[k e] d IH]; intros H; simpl; [reflexivity|].
  destruct (H k e) as [Hs Hc]; [by left|].
  rewrite IH by (intros k' e' Hin; apply H; by right).
  destruct (selected e) eqn:E.
  - rewrite filter_cons_True by congruence. simpl. by rewrite Hc.
  - rewrite filter_cons_False by congruence. reflexivity.
Qed.

Lemma main_collect_selected_keys (d : list (string * SelEntry)) :
  NoDup (dict_keys d) ->
  main_collect_selected d
  = map (fun n => {| info_original_file := Some n; info_color := Some (color_in d n) |})
        (filter (fun n => selected_in d n = true) (dict_keys d)).
Proof.
  intros Hnd. apply main_collect_selected_via. intros k e Hin.
  unfold selected_in, color_in. by rewrite (dict_get_elem d k e Hnd Hin).
Qed.

Lemma listed_image_names_NoDup (folder_path : Path) (w : World)
    (names : list string) (images : list Path) :
  fs w !! folder_path = Some (Dir names) -> NoDup names ->
  get_images_in_folder folder_path w = (Return images, w) ->
  NoDup (map path_name images).
Proof.
  intros Hdir Hnd Hrun.
  rewrite get_images_in_folder_run in Hrun
    by (unfold is_file_in; by rewrite Hdir).
  injection Hrun as <-.
  rewrite sort_by_key_perm. unfold children. rewrite Hdir.
  eapply sublist_NoDup; [exact Hnd|]. clear Hdir Hnd.
  induction names as [|n names IH]; simpl; [constructor|].
  destruct (decide (image_in (fs w) (folder_path // n))) as [Hy|Hn].
  - rewrite filter_cons_True by exact Hy. simpl. rewrite path_name_join.
    by apply sublist_skip.
  - rewrite filter_cons_False by exact Hn. by apply sublist_cons.
Qed.

Example demo_reviewed_collect :
  main_collect_selected demo_reviewed
  = [ {| info_original_file := Some "a.png"; info_color := Some "red" |};
      {| info_original_file := Some "b.PNG"; info_color := Some "" |} ].
Proof. reflexivity. Qed.

(** C5: let the folder's entries be distinct names, [listing] what
    [get_images_in_folder] returns for it, and [d] the selection mapping
    that [reset_selections_for_product] builds from the listing and the
    reviewer's actions on the listed images then change, in whatever order
    they come.  The keys of [d] are the listing in its order; the selected
    images are collected in that order, each with its colour; and a save of
    the collected list that returns [True] publishes for the image at
    position [i] among the selected ones of the listing the name
    [ref_<i+1>_<color><ext>]. *)
Theorem collect_follows_listing_order (folder_path : Path) (w : World)
    (names : list string) (listing : list Path) (product : string) (s : Session)
    (evs : list (string * bool * string)) (d : list (string * SelEntry))
    (OUTPUT_FOLDER : Path) (user : string) (w0 w' : World) :
  fs w !! folder_path = Some (Dir names) -> NoDup names ->
  get_images_in_folder folder_path w = (Return listing, w) ->
  last_loaded_product s ≠ Some product ->
  Forall (fun ev => ev.1.1 ∈ map path_name listing) evs ->
  d = apply_controls evs
        (current_selections (reset_selections_for_product product listing s)) ->
  save_selection OUTPUT_FOLDER product folder_path (main_collect_selected d) user w0
    = (Return true, w') ->
  dict_keys d = map path_name listing
  /\ main_collect_selected d
     = map (fun n => {| info_original_file := Some n;
                        info_color := Some (color_in d n) |})
           (filter (fun n => selected_in d n = true) (map path_name listing))
  /\ exists data : SelectionRecord,
       fs w' !! (OUTPUT_FOLDER // product // "selection.json") = Some (File (Json data))
       /\ images data
          = imap (fun i n =>
                    let c := if bool_decide (color_in d n = "") then "unknown"
                             else color_in d n in
                    {| original_file := n;
                       saved_file :=
                         "ref_" +:+ pretty (S i) +:+ "_" +:+ c +:+ lower (suffix n);
                       color := c |})
                 (filter (fun n => selected_in d n = true) (map path_name listing)).
Proof.
  intros Hdir Hnd Hlist Hnew Hevs Hd Hsave.
  pose proof (listed_image_names_NoDup _ _ _ _ Hdir Hnd Hlist) as Hnd'.
  assert (dict_keys
            (current_selections (reset_selections_for_product product listing s))
          = map path_name listing) as Hk0.
  { unfold reset_selections_for_product.
    rewrite bool_decide_eq_true_2 by exact Hnew. simpl.
    by rewrite reset_keys. }
  assert (dict_keys d = map path_name listing) as Hk.
  { subst d. rewrite apply_controls_keys; [exact Hk0|]. by rewrite Hk0. }
  assert (main_collect_selected d
          = map (fun n => {| info_original_file := Some n;
                             info_color := Some (color_in d n) |})
                (filter (fun n => selected_in d n = true) (map path_name listing)))
    as Hcollect.
  { rewrite main_collect_selected_keys by (by rewrite Hk). by rewrite Hk. }
  split; [exact Hk|]. split; [exact Hcollect|].
  apply save_selection_true in Hsave as (_ & Hsel & _).
  eexists. split; [exact Hsel|]. simpl.
  rewrite Hcollect.
  change (map ?f ?l) with (f <$> l). rewrite imap_fmap.
  apply imap_ext. intros i n _. reflexivity.
Qed.

Lemma collect_follows_listing_order_witness :
  dict_keys demo_reviewed
    = map path_name [["src"; "p"; "a.png"]; ["src"; "p"; "b.PNG"]]
  /\ main_collect_selected demo_reviewed
     = map (fun n => {| info_original_file := Some n;
                        info_color := Some (color_in demo_reviewed n) |})
           (filter (fun n => selected_in demo_reviewed n = true)
              (map path_name [["src"; "p"; "a.png"]; ["src"; "p"; "b.PNG"]]))
  /\ exists data : SelectionRecord,
       fs demo_reviewed_saved !! (["out"] // "p" // "selection.json")
         = Some (File (Json data))
       /\ images data
          = imap (fun i n =>
                    let c := if bool_decide (color_in demo_reviewed n = "") then "unknown"
                             else color_in demo_reviewed n in
                    {| original_file := n;
                       saved_file :=
                         "ref_" +:+ pretty (S i) +:+ "_" +:+ c +:+ lower (suffix n);
                       color := c |})
                 (filter (fun n => selected_in demo_reviewed n = true)
                    (map path_name [["src"; "p"; "a.png"]; ["src"; "p"; "b.PNG"]])).
Proof.
  apply (collect_follows_listing_order ["src"; "p"] demo_world
           ["b.PNG"; "a.png"; "notes.txt"; "sub.png"]
           [["src"; "p"; "a.png"]; ["src"; "p"; "b.PNG"]]
           "p" demo_session demo_clicks demo_reviewed ["out"] "me"
           demo_world demo_reviewed_saved).
  - vm_compute. reflexivity.
  - apply (bool_decide_unpack _). vm_compute. exact I.
  - vm_compute. reflexivity.
  - discriminate.
  - apply (bool_decide_unpack _). vm_compute. exact I.
  - reflexivity.
  - vm_compute. reflexivity.
Defined.

(* ===================================================================== *)
(** * Further properties of the program *)

(** ** The image grid *)

Lemma grid_indices_upto (n r : nat) :
  flat_map (grid_row n) (map (fun k => k * num_cols)%nat (seq 0 r))
  = seq 0 (Nat.min (r * num_cols) n).
Proof.
  unfold grid_row, num_cols. induction r as [|r IH].
  - reflexivity.
  - rewrite seq_S, map_app, flat_map_app, IH. cbn [map flat_map Nat.add].
    rewrite app_nil_r.
    destruct (le_lt_dec n (r * 3)) as [Hle|Hlt].
    + replace (Nat.min (r * 3 + 3) n - r * 3)%nat with 0%nat by lia.
      cbn [seq]. rewrite app_nil_r. f_equal. lia.
    + replace (Nat.min (r * 3) n) with (r * 3)%nat by lia.
      replace (Nat.min (S r * 3) n)
        with (r * 3 + (Nat.min (r * 3 + 3) n - r * 3))%nat by lia.
      by rewrite seq_app.
Qed.

Lemma grid_indices (n : nat) :
  flat_map (grid_row n) (grid_row_starts n) = seq 0 n.
Proof.
  unfold grid_row_starts. rewrite grid_indices_upto. f_equal. unfold num_cols.
  pose proof (Nat.div_mod_eq (n + (3 - 1)) 3) as Hd.
  pose proof (Nat.mod_upper_bound (n + (3 - 1)) 3) as Hm. lia.
Qed.

Lemma foldl_flat_map {A B C} (f : A -> C -> A) (g : B -> list C) (l : list B) (a : A) :
  foldl (fun a b => foldl f a (g b)) a l = foldl f a (flat_map g l).
Proof.
  revert a. induction l as [|b l IH]; intros a; simpl; [reflexivity|].
  by rewrite IH, foldl_app.
Qed.

Lemma foldl_indices {A B} (f : A -> B -> A) (l : list B) (a : A) (start : nat)
    (whole : list B) (before : list B) :
  whole = before ++ l -> start = length before ->
  foldl (fun a i => match whole !! i with Some x => f a x | None => a end) a
        (seq start (length l))
  = foldl f a l.
Proof.
  revert a start before. induction l as [|x l IH]; intros a start before Hw Hs; simpl;
    [reflexivity|].
  assert (whole !! start = Some x) as ->.
  { subst. rewrite lookup_app_r by lia. by rewrite Nat.sub_diag. }
  apply (IH _ _ (before ++ [x])).
  - by rewrite <- app_assoc.
  - rewrite length_app. simpl. lia.
Qed.

(** The grid visits the images once each, in the order of the listing. *)
Lemma main_image_grid_in_order (product_images : list Path)
    (checkbox : string -> bool) (selectbox : string -> string)
    (d : list (string * SelEntry)) :
  main_image_grid product_images checkbox selectbox d
  = foldl (fun d image_path =>
             main_image_controls (path_name image_path)
               (checkbox (path_name image_path)) (selectbox (path_name image_path)) d)
          d product_images.
Proof.
  unfold main_image_grid.
  rewrite (foldl_flat_map
             (fun d img_idx =>
                match product_images !! img_idx with
                | Some image_path =>
                    main_image_controls (path_name image_path)
                      (checkbox (path_name image_path))
                      (selectbox (path_name image_path)) d
                | None => d
                end)
             (grid_row (length product_images))).
  rewrite grid_indices.
  by apply (foldl_indices _ product_images d 0%nat product_images []).
Qed.

Lemma dict_get_set_ne {V} (k k' : string) (v : V) (d : list (string * V)) :
  k ≠ k' -> dict_get k' (dict_set k v d) = dict_get k' d.
Proof.
  intros Hne. induction d as [|[k0 v0] d IH]; simpl.
  - by rewrite bool_decide_eq_false_2.
  - destruct (bool_decide (k0 = k)) eqn:E; simpl.
    + apply bool_decide_eq_true in E. subst k0.
      by rewrite !bool_decide_eq_false_2.
    + by rewrite IH.
Qed.

Lemma dict_get_update_ne {V} (k k' : string) (f : V -> V) (d : list (string * V)) :
  k ≠ k' -> dict_get k' (dict_update k f d) = dict_get k' d.
Proof.
  intros Hne. induction d as [|[k0 v0] d IH]; simpl; [reflexivity|].
  destruct (bool_decide (k0 = k)) eqn:E; simpl.
  - apply bool_decide_eq_true in E. subst k0. by rewrite !bool_decide_eq_false_2.
  - by rewrite IH.
Qed.

Lemma main_image_controls_get_ne (n n' : string) (b : bool) (c : string)
    (d : list (string * SelEntry)) :
  n ≠ n' -> dict_get n' (main_image_controls n b c d) = dict_get n' d.
Proof.
  intros Hne. unfold main_image_controls.
  destruct (negb (dict_contains n d)), b;
    by rewrite ?dict_get_update_ne, ?dict_get_set_ne.
Qed.

Lemma main_image_controls_get_eq (n : string) (b : bool) (c : string)
    (d : list (string * SelEntry)) :
  exists e : SelEntry,
    dict_get n (main_image_controls n b c d) = Some e
    /\ selected e = b /\ (b = true -> sel_color e = c).
Proof.
  unfold main_image_controls, dict_contains.
  destruct (dict_get n d) as [e0|] eqn:E; simpl.
  - destruct b; rewrite ?dict_get_update_eq, E; simpl;
      eexists; (split; [reflexivity|]); split; (reflexivity || discriminate).
  - destruct b; rewrite ?dict_get_update_eq, dict_get_set_eq; simpl;
      eexists; (split; [reflexivity|]); split; (reflexivity || discriminate).
Qed.

Section GridPass.
Variables (checkbox : string -> bool) (selectbox : string -> string).

Let pass (d : list (string * SelEntry)) (image_path : Path) :=
  main_image_controls (path_name image_path) (checkbox (path_name image_path))
    (selectbox (path_name image_path)) d.

Lemma grid_pass_entry (imgs : list Path) (d : list (string * SelEntry)) (n : string) :
  n ∈ map path_name imgs ->
  exists e : SelEntry,
    dict_get n (foldl pass d imgs) = Some e
    /\ selected e = checkbox n /\ (checkbox n = true -> sel_color e = selectbox n).
Proof.
  induction imgs as [|x imgs IH] using rev_ind; intros Hin.
  - by apply elem_of_nil in Hin.
  - rewrite foldl_app. simpl. unfold pass at 1.
    destruct (decide (path_name x = n)) as [<-|Hne].
    + apply main_image_controls_get_eq.
    + rewrite main_image_controls_get_ne by exact Hne. apply IH.
      rewrite map_app in Hin. apply elem_of_app in Hin as [Hin|Hin]; [exact Hin|].
      apply list_elem_of_singleton in Hin. congruence.
Qed.

Lemma grid_pass_keys (imgs : list Path) (d : list (string * SelEntry)) :
  Forall (fun x => path_name x ∈ dict_keys d) imgs ->
  dict_keys (foldl pass d imgs) = dict_keys d.
Proof.
  revert d. induction imgs as [|x imgs IH]; intros d Hall; simpl; [reflexivity|].
  inversion Hall as [|? ? Hx Hrest]; subst.
  pose proof (main_image_controls_keys (path_name x) (checkbox (path_name x))
                (selectbox (path_name x)) d Hx) as Hk.
  rewrite IH; [exact Hk|]. unfold pass. by rewrite Hk.
Qed.
End GridPass.

Lemma map_filter_ext_in {A B} (f g : A -> B) (p q : A -> bool) (l : list A) :
  (forall x, x ∈ l -> p x = q x /\ (q x = true -> f x = g x)) ->
  map f (filter (fun x => p x = true) l) = map g (filter (fun x => q x = true) l).
Proof.
  induction l as [|x l IH]; intros H; [reflexivity|].
  destruct (H x) as [Hpq Hfg]; [by left|].
  assert (map f (filter (fun x => p x = true) l)
          = map g (filter (fun x => q x = true) l)) as IH'.
  { apply IH. intros y Hy. apply H. by right. }
  destruct (q x) eqn:E.
  - rewrite !filter_cons_True by congruence. simpl. rewrite IH'. f_equal. by apply Hfg.
  - rewrite !filter_cons_False by congruence. exact IH'.
Qed.

(** One run of the image grid over a mapping whose keys are the listed
    names: what is collected for the save afterwards is exactly the images
    whose checkbox is ticked, in the order of the listing, each with the
    value of its colour box. *)
Theorem grid_collects_ticked_images (product_images : list Path)
    (checkbox : string -> bool) (selectbox : string -> string)
    (d : list (string * SelEntry)) :
  NoDup (map path_name product_images) ->
  dict_keys d = map path_name product_images ->
  main_collect_selected (main_image_grid product_images checkbox selectbox d)
  = map (fun n => {| info_original_file := Some n; info_color := Some (selectbox n) |})
        (filter (fun n => checkbox n = true) (map path_name product_images)).
Proof.
  intros Hnd Hk. rewrite main_image_grid_in_order.
  set (d' := foldl _ d product_images).
  assert (dict_keys d' = map path_name product_images) as Hk'.
  { subst d'. rewrite grid_pass_keys; [exact Hk|].
    apply Forall_forall. intros x Hx. rewrite Hk. by apply list_elem_of_fmap_2. }
  rewrite main_collect_selected_keys by (by rewrite Hk').
  rewrite Hk'. apply map_filter_ext_in. intros n Hn.
  destruct (grid_pass_entry checkbox selectbox product_images d n Hn)
    as (e & He & Hsel & Hcol).
  fold d' in He. unfold selected_in, color_in. rewrite He.
  split; [exact Hsel|]. intros Ht. f_equal. f_equal. by apply Hcol.
Qed.

Lemma grid_collects_ticked_images_witness :
  main_collect_selected
    (main_image_grid demo_listing demo_checkbox demo_selectbox
       (current_selections (reset_selections_for_product "p" demo_listing demo_session)))
  = map (fun n => {| info_original_file := Some n;
                     info_color := Some (demo_selectbox n) |})
        (filter (fun n => demo_checkbox n = true) (map path_name demo_listing)).
Proof.
  apply (grid_collects_ticked_images demo_listing demo_checkbox demo_selectbox).
  - apply (bool_decide_unpack _). vm_compute. exact I.
  - reflexivity.
Defined.

(** ** Loading a product and leaving it *)





(** ** The colour box *)

Lemma list_index_Some (x : string) (l : list string) (i : nat) :
  list_index x l = Some i -> l !! i = Some x.
Proof.
  revert i. induction l as [|y l IH]; intros i; simpl; [discriminate|].
  destruct (bool_decide (y = x)) eqn:E.
  - apply bool_decide_eq_true in E. intros [= <-]. by subst.
  - destruct (list_index x l) as [k|]; simpl; [|discriminate].
    intros [= <-]. simpl. by apply IH.
Qed.

Lemma list_index_None (x : string) (l : list string) :
  list_index x l = None <-> x ∉ l.
Proof.
  induction l as [|y l IH]; simpl.
  - split; [intros _; apply not_elem_of_nil|reflexivity].
  - rewrite not_elem_of_cons. destruct (bool_decide (y = x)) eqn:E.
    + apply bool_decide_eq_true in E. split; [discriminate|]. intros [H _]. congruence.
    + apply bool_decide_eq_false in E.
      destruct (list_index x l) as [k|]; simpl.
      * split; [discriminate|]. intros [_ H]. by apply IH in H.
      * split; [|reflexivity]. intros _. split; [congruence|]. by apply IH.
Qed.

(** The option the colour box starts on is the colour stored for the image
    when that is one of [COLOR_OPTIONS], and the first option, ["unknown"],
    for any other stored value; the index is always within the options. *)
Theorem color_index_selects_stored_color (current_color : string) :
  COLOR_OPTIONS !! color_index current_color
  = Some (if bool_decide (current_color ∈ COLOR_OPTIONS) then current_color
          else "unknown").
Proof.
  unfold color_index.
  destruct (list_index current_color COLOR_OPTIONS) as [i|] eqn:E; simpl.
  - apply list_index_Some in E. rewrite bool_decide_eq_true_2; [exact E|].
    by eapply list_elem_of_lookup_2.
  - apply list_index_None in E. by rewrite bool_decide_eq_false_2.
Qed.

(** ** Save and advance *)

Lemma save_selection_false (OUTPUT_FOLDER : Path) (product : string)
    (source_folder : Path) (sels : list ImgInfo) (user : string) (w w' : World) :
  save_selection OUTPUT_FOLDER product source_folder sels user w = (Return false, w') ->
  fs w' !! (OUTPUT_FOLDER // product // "selection.json")
  = fs w !! (OUTPUT_FOLDER // product // "selection.json").
Proof.
  rewrite save_selection_run.
  destruct (save_selection_body OUTPUT_FOLDER product source_folder sels user w)
    as [r w1] eqn:Hb.
  apply save_selection_body_cases in Hb as (Hn & Hcases).
  destruct Hcases as [(-> & Hf & _)|[(-> & _ & Hm & _)|[(-> & _ & Hm & _)
                     |[(e & m1 & -> & _ & _ & _ & Hsel)|(m1 & -> & _)]]]];
    intros [= <-]; simpl.
  - by rewrite Hf.
  - apply (mkdir_parents_frame _ _ _ _ Hm), selection_file_not_above.
  - apply (mkdir_parents_frame _ _ _ _ Hm), selection_file_not_above.
  - exact Hsel.
Qed.

Lemma save_selection_returns (OUTPUT_FOLDER : Path) (product : string)
    (source_folder : Path) (sels : list ImgInfo) (user : string) (w : World) :
  exists (b : bool) (w' : World),
    save_selection OUTPUT_FOLDER product source_folder sels user w = (Return b, w').
Proof.
  rewrite save_selection_run.
  destruct (save_selection_body _ _ _ _ _ w) as [[b|e] w1]; eauto.
Qed.

(** "Save & Next" moves on only after a save that succeeded: the handler
    always returns a session; either the record of the selections is now in
    [selection.json], the count of saved images is announced and the
    session is the one [go_to_next] gives, or the failure is announced, the
    session is exactly as before and [selection.json] is what it was. *)
Theorem save_next_advances_only_after_save (OUTPUT_FOLDER : Path) (product : string)
    (current_folder : Path) (sels : list ImgInfo) (s : Session) (w : World) :
  exists (s' : Session) (w' : World),
    main_save_next OUTPUT_FOLDER product current_folder sels s w = (Return s', w')
    /\ ((s' = go_to_next s
         /\ (exists shown : list Msg, ui w' = shown ++ [Saved (length sels)])
         /\ fs w' !! (OUTPUT_FOLDER // product // "selection.json")
            = Some (File (Json {| product_name := product; completed := true;
                                  selected_by := username s; timestamp := now w;
                                  images := imap (fun i => meta_of (S i)) sels |})))
        \/ (s' = s
            /\ (exists shown : list Msg, ui w' = shown ++ [SaveFailed])
            /\ fs w' !! (OUTPUT_FOLDER // product // "selection.json")
               = fs w !! (OUTPUT_FOLDER // product // "selection.json"))).
Proof.
  unfold main_save_next, bind.
  destruct (save_selection_returns OUTPUT_FOLDER product current_folder sels
              (username s) w) as (b & w1 & Hrun).
  rewrite Hrun. destruct b; unfold st_message, ret; eexists _, _;
    (split; [reflexivity|]).
  - left. split; [reflexivity|]. split; [by eexists|].
    apply save_selection_true in Hrun as (_ & Hsel & _). exact Hsel.
  - right. split; [reflexivity|]. split; [by eexists|].
    by apply save_selection_false in Hrun.
Qed.

(** ** What a save may touch *)

Section Preserves.
Variable Rfs : FsMap -> FsMap -> Prop.
Hypothesis Rfs_refl : forall m, Rfs m m.
Hypothesis Rfs_trans : forall m1 m2 m3, Rfs m1 m2 -> Rfs m2 m3 -> Rfs m1 m3.

Lemma preserves_ret {A} (a : A) : preserves Rfs (ret a).
Proof. intros w r w' [= <- <-]. apply Rfs_refl. Qed.

Lemma preserves_raise {A} (e : exn) : preserves Rfs (@raise A e).
Proof. intros w r w' [= <- <-]. apply Rfs_refl. Qed.

Lemma preserves_bind {A B} (c : M A) (k : A -> M B) :
  preserves Rfs c -> (forall a, preserves Rfs (k a)) -> preserves Rfs (bind c k).
Proof.
  intros Hc Hk w r w' H.
  apply bind_inv in H as [(a & w1 & H1 & H2)|(e & H1 & _)].
  - eapply Rfs_trans; [exact (Hc _ _ _ H1)|exact (Hk _ _ _ _ H2)].
  - exact (Hc _ _ _ H1).
Qed.

Lemma preserves_try_except {A} (c : M A) (h : exn -> M A) :
  preserves Rfs c -> (forall e, preserves Rfs (h e)) -> preserves Rfs (try_except c h).
Proof.
  intros Hc Hh w r w' H. unfold try_except in H.
  destruct (c w) as [[a|e] w1] eqn:E.
  - injection H as <- <-. exact (Hc _ _ _ E).
  - eapply Rfs_trans; [exact (Hc _ _ _ E)|exact (Hh _ _ _ _ H)].
Qed.

Lemma preserves_st_message (x : Msg) : preserves Rfs (st_message x).
Proof. intros w r w' [= <- <-]. apply Rfs_refl. Qed.

Lemma preserves_path_exists (p : Path) : preserves Rfs (path_exists p).
Proof. intros w r w' [= <- <-]. apply Rfs_refl. Qed.

Lemma preserves_datetime_now : preserves Rfs datetime_now.
Proof. intros w r w' [= <- <-]. apply Rfs_refl. Qed.

Lemma preserves_get_original_file (img : ImgInfo) :
  preserves Rfs (get_original_file img).
Proof.
  unfold get_original_file.
  destruct (info_original_file img); [apply preserves_ret|apply preserves_raise].
Qed.

Lemma preserves_writing_call (c : FsCall) (e : exn) (partial : FsMap -> FsMap)
    (step : FsMap -> option FsMap) :
  (forall m m', step m = Some m' -> Rfs m m') ->
  (forall m, Rfs m (partial m)) ->
  preserves Rfs (writing_call c e partial step).
Proof.
  intros Hstep Hpartial w r w' H.
  apply writing_call_spec in H as (_ & _ & [(_ & Hs & _)|(_ & _ & [Hf|[_ Hf]])]).
  - by apply Hstep.
  - rewrite Hf. apply Rfs_refl.
  - rewrite Hf. apply Hpartial.
Qed.

Lemma preserves_find_missing_files (source_folder : Path) (l : list ImgInfo)
    (acc : list string) :
  preserves Rfs (find_missing_files source_folder l acc).
Proof.
  revert acc. induction l as [|img l IH]; intros acc; simpl.
  - apply preserves_ret.
  - apply preserves_bind; [apply preserves_get_original_file|]. intros o.
    apply preserves_bind; [apply preserves_path_exists|]. intros ex. apply IH.
Qed.

Section Save.
Variables (pof source_folder : Path).
Hypothesis Rfs_mkdir :
  forall m m', mkdir_parents (rev pof) m = Some m' -> Rfs m m'.
Hypothesis Rfs_copy :
  forall src n c m m', copy2_step src (pof // n) c m = Some m' -> Rfs m m'.
Hypothesis Rfs_write :
  forall n c m m', write_file pof n c m = Some m' -> Rfs m m'.
Hypothesis Rfs_replace :
  forall m m', replace_step (pof // ".selection.json.tmp") (pof // "selection.json") m
               = Some m' -> Rfs m m'.

Lemma preserves_copy2 (src : Path) (n : string) : preserves Rfs (copy2 src (pof // n)).
Proof.
  apply preserves_writing_call.
  - apply Rfs_copy.
  - intros m. destruct (copy2_step src (pof // n) (Some Partial) m) as [m'|] eqn:E;
      simpl; [by eapply Rfs_copy|apply Rfs_refl].
Qed.

Lemma preserves_copy_selected (l : list ImgInfo) (idx : nat) (acc : list ImageMeta) :
  preserves Rfs (copy_selected source_folder pof l idx acc).
Proof.
  revert idx acc. induction l as [|img l IH]; intros idx acc; simpl.
  - apply preserves_ret.
  - apply preserves_bind; [apply preserves_get_original_file|]. intros o.
    apply preserves_bind; [apply preserves_copy2|]. intros _. apply IH.
Qed.

Lemma preserves_write_json (n : string) (data : SelectionRecord) :
  preserves Rfs (write_json (pof // n) data).
Proof.
  unfold write_json. rewrite path_parent_join, path_name_join.
  apply preserves_writing_call.
  - apply Rfs_write.
  - intros m. destruct (write_file pof n Partial m) as [m'|] eqn:E; simpl;
      [by eapply Rfs_write|apply Rfs_refl].
Qed.
End Save.
End Preserves.

Lemma preserves_save_selection (Rfs : FsMap -> FsMap -> Prop)
    (OUTPUT_FOLDER : Path) (product : string) (source_folder : Path)
    (sels : list ImgInfo) (user : string) :
  (forall m, Rfs m m) ->
  (forall m1 m2 m3, Rfs m1 m2 -> Rfs m2 m3 -> Rfs m1 m3) ->
  (forall m m', mkdir_parents (rev (OUTPUT_FOLDER // product)) m = Some m' -> Rfs m m') ->
  (forall src n c m m',
      copy2_step src (OUTPUT_FOLDER // product // n) c m = Some m' -> Rfs m m') ->
  (forall n c m m', write_file (OUTPUT_FOLDER // product) n c m = Some m' -> Rfs m m') ->
  (forall m m',
      replace_step (OUTPUT_FOLDER // product // ".selection.json.tmp")
        (OUTPUT_FOLDER // product // "selection.json") m = Some m' -> Rfs m m') ->
  preserves Rfs (save_selection OUTPUT_FOLDER product source_folder sels user).
Proof.
  intros Hrefl Htrans Hmk Hcp Hwf Hrp.
  unfold save_selection, save_selection_body.
  apply preserves_try_except; try assumption.
  2:{ intros e. apply preserves_bind; try assumption;
        [by apply preserves_st_message|intros; by apply preserves_ret]. }
  apply preserves_bind; try assumption.
  { unfold mkdir. apply preserves_writing_call; auto. }
  intros _. apply preserves_bind; try assumption.
  { by apply preserves_find_missing_files. }
  intros missing. destruct (negb (bool_decide (missing = []))).
  { apply preserves_bind; try assumption;
      [by apply preserves_st_message|intros; by apply preserves_ret]. }
  apply preserves_bind; try assumption; [by apply preserves_path_exists|].
  intros ex. apply preserves_bind; try assumption.
  { destruct ex; [by apply preserves_st_message|by apply preserves_ret]. }
  intros _. apply preserves_bind; try assumption.
  { by apply preserves_copy_selected. }
  intros meta. apply preserves_bind; try assumption; [by apply preserves_datetime_now|].
  intros ts. apply preserves_bind; try assumption.
  { by apply preserves_write_json. }
  intros _. apply preserves_bind; try assumption.
  { unfold replace. apply preserves_writing_call; auto. }
  intros _. by apply preserves_ret.
Qed.

Lemma unlink_frame (parent : Path) (n : string) (m : FsMap) (q : Path) :
  q ≠ parent -> q ≠ parent // n -> unlink parent n m !! q = m !! q.
Proof.
  intros Hq1 Hq2. unfold unlink.
  destruct (delete (parent // n) m !! parent) as [[c|names]|];
    rewrite ?lookup_insert_ne by done; by rewrite lookup_delete_ne.
Qed.

Lemma unlink_keeps (parent : Path) (n : string) (m : FsMap) (q : Path) :
  q ≠ parent // n -> is_Some (m !! q) -> is_Some (unlink parent n m !! q).
Proof.
  intros Hq Hsome. unfold unlink.
  destruct (delete (parent // n) m !! parent) as [[c|names]|] eqn:E;
    try (by rewrite lookup_delete_ne).
  destruct (decide (q = parent)) as [->|Hne].
  - rewrite lookup_insert_eq. by eexists.
  - rewrite lookup_insert_ne by done. by rewrite lookup_delete_ne.
Qed.

Lemma unlink_gone (parent : Path) (n : string) (m : FsMap) :
  unlink parent n m !! (parent // n) = None.
Proof.
  unfold unlink.
  destruct (delete (parent // n) m !! parent) as [[c|names]|];
    rewrite ?lookup_insert_ne by apply path_join_ne_self; apply lookup_delete_eq.
Qed.

Lemma write_file_keeps (parent : Path) (n : string) (c : Content) (m m' : FsMap)
    (q : Path) :
  write_file parent n c m = Some m' -> is_Some (m !! q) -> is_Some (m' !! q).
Proof.
  unfold write_file. intros H Hsome.
  destruct (m !! parent) as [[?|names]|]; try discriminate.
  assert (is_Some ((<[parent // n := File c]>
                      (<[parent := Dir (add_name n names)]> m)) !! q)) as Hgoal.
  { destruct (decide (q = parent // n)) as [->|Hne1].
    { rewrite lookup_insert_eq. by eexists. }
    rewrite lookup_insert_ne by done.
    destruct (decide (q = parent)) as [->|Hne2].
    { rewrite lookup_insert_eq. by eexists. }
    by rewrite lookup_insert_ne. }
  destruct (m !! (parent // n)) as [[?|?]|]; try discriminate;
    injection H as <-; exact Hgoal.
Qed.

Lemma mkdir_parents_keeps (rp : list string) (m m' : FsMap) (q : Path) :
  mkdir_parents rp m = Some m' -> is_Some (m !! q) -> is_Some (m' !! q).
Proof.
  revert m m'. induction rp as [|n rq IH]; intros m m' H Hsome; simpl in H.
  - destruct (m !! []) as [[?|?]|]; congruence.
  - destruct (m !! (rev rq ++ [n])) as [[?|?]|]; try congruence.
    destruct (mkdir_parents rq m) as [m1|] eqn:H1; [|discriminate].
    specialize (IH m m1 H1 Hsome).
    unfold os_mkdir in H.
    destruct (m1 !! rev rq) as [[?|names]|]; try discriminate.
    destruct (m1 !! (rev rq // n)); try discriminate. injection H as <-.
    destruct (decide (q = rev rq // n)) as [->|Hne1].
    { rewrite lookup_insert_eq. by eexists. }
    rewrite lookup_insert_ne by done.
    destruct (decide (q = rev rq)) as [->|Hne2].
    { rewrite lookup_insert_eq. by eexists. }
    by rewrite lookup_insert_ne.
Qed.

Lemma prefix_of_join (p : Path) (n : string) : p `prefix_of` p // n.
Proof. unfold path_join. by apply prefix_app_r. Qed.

Lemma prefix_of_join2 (p : Path) (n k : string) : p `prefix_of` p // n // k.
Proof. unfold path_join. by do 2 apply prefix_app_r. Qed.

Lemma save_selection_same_outside (OUTPUT_FOLDER : Path) (product : string)
    (source_folder : Path) (sels : list ImgInfo) (user : string) :
  preserves (same_outside (OUTPUT_FOLDER // product))
    (save_selection OUTPUT_FOLDER product source_folder sels user).
Proof.
  apply preserves_save_selection.
  - intros m q _ _. reflexivity.
  - intros m1 m2 m3 H12 H23 q Hq1 Hq2. rewrite H23 by done. by apply H12.
  - intros m m' H q _ Hq. apply (mkdir_parents_frame _ _ _ _ H).
    by rewrite rev_involutive.
  - intros src n c m m' H q Hq _. apply (copy2_step_frame _ _ _ _ _ _ _ H).
    + intros ->. by apply Hq.
    + intros ->. apply Hq, prefix_of_join.
    + intros ->. apply Hq, prefix_of_join2.
  - intros n c m m' H q Hq _. apply (write_file_frame _ _ _ _ _ _ H).
    + intros ->. by apply Hq.
    + intros ->. apply Hq, prefix_of_join.
  - intros m m' H q Hq _. unfold replace_step in H.
    destruct (m !! (OUTPUT_FOLDER // product // ".selection.json.tmp"))
      as [[c|?]|]; try discriminate.
    destruct (bool_decide _); [by injection H as <-|].
    rewrite !path_parent_join, !path_name_join in H.
    rewrite (write_file_frame _ _ _ _ _ q H).
    + apply unlink_frame.
      * intros ->. by apply Hq.
      * intros ->. apply Hq, prefix_of_join.
    + intros ->. by apply Hq.
    + intros ->. apply Hq, prefix_of_join.
Qed.

(** A save writes only inside the product's output folder, and creates that
    folder and its missing ancestors: whatever the save returns and
    whatever fails on the way, every path that is neither at or below
    [OUTPUT_FOLDER / product] nor an ancestor of it holds after the call
    what it held before.  In particular the source images and the output of
    other products are never modified. *)
Theorem save_touches_only_output_folder (OUTPUT_FOLDER : Path) (product : string)
    (source_folder : Path) (sels : list ImgInfo) (user : string)
    (w : World) (r : Result bool) (w' : World) (q : Path) :
  save_selection OUTPUT_FOLDER product source_folder sels user w = (r, w') ->
  ~ (OUTPUT_FOLDER // product) `prefix_of` q ->
  ~ q `prefix_of` (OUTPUT_FOLDER // product) ->
  fs w' !! q = fs w !! q.
Proof.
  intros Hrun. revert q.
  exact (save_selection_same_outside OUTPUT_FOLDER product source_folder sels user
           w r w' Hrun).
Qed.

Lemma save_touches_only_output_folder_witness :
  fs demo_saved !! ["src"; "p"; "a.png"] = fs demo_world !! ["src"; "p"; "a.png"].
Proof.
  apply (save_touches_only_output_folder ["out"] "p" ["src"; "p"] demo_selections "me"
           demo_world (Return true) demo_saved ["src"; "p"; "a.png"]).
  - vm_compute. reflexivity.
  - intros [k Hk]. vm_compute in Hk. discriminate.
  - intros [k Hk]. vm_compute in Hk. discriminate.
Defined.

(** A save removes nothing but its own temporary file: whatever it returns,
    every entry of the file system other than [.selection.json.tmp] of the
    product that existed before the call still exists after it.  So the
    files copied by an attempt that failed later stay (there is no
    rollback), and so do the [ref_] files of an earlier save that a new
    save does not write again. *)
Theorem save_removes_nothing (OUTPUT_FOLDER : Path) (product : string)
    (source_folder : Path) (sels : list ImgInfo) (user : string)
    (w : World) (r : Result bool) (w' : World) (q : Path) :
  save_selection OUTPUT_FOLDER product source_folder sels user w = (r, w') ->
  q ≠ OUTPUT_FOLDER // product // ".selection.json.tmp" ->
  is_Some (fs w !! q) -> is_Some (fs w' !! q).
Proof.
  intros Hrun. revert q.
  change (entries_kept (OUTPUT_FOLDER // product // ".selection.json.tmp")
            (fs w) (fs w')).
  revert w r w' Hrun.
  change (preserves (entries_kept (OUTPUT_FOLDER // product // ".selection.json.tmp"))
            (save_selection OUTPUT_FOLDER product source_folder sels user)).
  apply preserves_save_selection.
  - intros m q _ H. exact H.
  - intros m1 m2 m3 H12 H23 q Hq H. apply H23; [exact Hq|]. by apply H12.
  - intros m m' H q _ Hs. by apply (mkdir_parents_keeps _ _ _ _ H).
  - intros src n c m m' H q _ Hs. unfold copy2_step in H.
    destruct (bool_decide _); [discriminate|].
    destruct (m !! src) as [[c0|?]|]; try discriminate.
    by apply (write_file_keeps _ _ _ _ _ _ H).
  - intros n c m m' H q _ Hs. by apply (write_file_keeps _ _ _ _ _ _ H).
  - intros m m' H q Hq Hs. unfold replace_step in H.
    destruct (m !! (OUTPUT_FOLDER // product // ".selection.json.tmp"))
      as [[c|?]|]; try discriminate.
    destruct (bool_decide _); [by injection H as <-|].
    rewrite !path_parent_join, !path_name_join in H.
    apply (write_file_keeps _ _ _ _ _ _ H). by apply unlink_keeps.
Qed.

Lemma save_removes_nothing_witness :
  is_Some (fs demo_saved !! ["src"; "p"; "b.PNG"]).
Proof.
  apply (save_removes_nothing ["out"] "p" ["src"; "p"] demo_selections "me"
           demo_world (Return true) demo_saved ["src"; "p"; "b.PNG"]).
  - vm_compute. reflexivity.
  - discriminate.
  - vm_compute. by eexists.
Defined.

(** ** The stages of a save that succeeded *)

Lemma save_selection_true_stages (OUTPUT_FOLDER : Path) (product : string)
    (source_folder : Path) (sels : list ImgInfo) (user : string) (w w' : World) :
  save_selection OUTPUT_FOLDER product source_folder sels user w = (Return true, w') ->
  exists (w1 w3 w4 : World) (meta : list ImageMeta),
    mkdir (OUTPUT_FOLDER // product) w = (Return tt, w1)
    /\ Forall named sels
    /\ missing_in (fs w1) source_folder sels = []
    /\ copy_selected source_folder (OUTPUT_FOLDER // product) sels 1 []
         (if exists_in (fs w1) (OUTPUT_FOLDER // product // "selection.json")
          then say AlreadySaved w1 else w1)
       = (Return meta, w3)
    /\ write_json (OUTPUT_FOLDER // product // ".selection.json.tmp")
         {| product_name := product; completed := true; selected_by := user;
            timestamp := now w3; images := meta |} w3
       = (Return tt, w4)
    /\ replace (OUTPUT_FOLDER // product // ".selection.json.tmp")
         (OUTPUT_FOLDER // product // "selection.json") w4
       = (Return tt, w').
Proof.
  rewrite save_selection_run.
  destruct (save_selection_body OUTPUT_FOLDER product source_folder sels user w)
    as [[b|e] w0] eqn:Hb; [|discriminate].
  intros [= -> ->]. unfold save_selection_body in Hb.
  apply bind_inv in Hb as [([] & w1 & Hmk & H)|(e & _ & ?)]; [|discriminate].
  destruct (decide (Forall named sels)) as [Hnamed|Hunnamed].
  2:{ apply bind_inv in H as [(missing & w2 & Hv & H)|(e & _ & ?)]; [|discriminate].
      rewrite find_missing_files_unnamed in Hv by exact Hunnamed. discriminate. }
  apply bind_inv in H as [(missing & w2 & Hv & H)|(e & _ & ?)]; [|discriminate].
  rewrite find_missing_files_named in Hv by exact Hnamed.
  injection Hv as <- <-. simpl in H.
  destruct (bool_decide (missing_in (fs w1) source_folder sels = [])) eqn:Hmiss;
    simpl in H.
  2:{ unfold bind, st_message, ret in H. discriminate. }
  apply bool_decide_eq_true in Hmiss.
  unfold bind at 1 in H. unfold path_exists at 1 in H.
  apply bind_inv in H as [([] & w2 & Hwarn & H)|(e & _ & ?)]; [|discriminate].
  assert (w2 = if exists_in (fs w1) (OUTPUT_FOLDER // product // "selection.json")
               then say AlreadySaved w1 else w1) as ->.
  { destruct (exists_in (fs w1) (OUTPUT_FOLDER // product // "selection.json"));
      by injection Hwarn as <-. }
  apply bind_inv in H as [(meta & w3 & Hcp & H)|(e & _ & ?)]; [|discriminate].
  unfold bind at 1 in H. unfold datetime_now at 1 in H.
  apply bind_inv in H as [([] & w4 & Hwj & H)|(e & _ & ?)]; [|discriminate].
  apply bind_inv in H as [([] & w5 & Hrp & H)|(e & _ & ?)]; [|discriminate].
  unfold ret in H. injection H as <-.
  exists w1, w3, w4, meta. auto 7.
Qed.

Lemma replace_success (p : Path) (t s : string) (w w' : World) :
  replace (p // t) (p // s) w = (Return tt, w') -> t ≠ s ->
  fs w' !! (p // t) = None
  /\ exists names : list string,
       fs w' !! p = Some (Dir names) /\ s ∈ names /\ t ∉ names.
Proof.
  intros H Hts. apply writing_call_spec in H as (_ & _ & [(_ & Hstep & _)|(? & _)]);
    [|discriminate].
  unfold replace_step in Hstep.
  destruct (fs w !! (p // t)) as [[c|?]|]; try discriminate.
  rewrite bool_decide_eq_false_2 in Hstep.
  2:{ intros E. apply path_join_inj in E as [_ E]. by apply Hts. }
  rewrite !path_parent_join, !path_name_join in Hstep.
  assert (p // t ≠ p // s) as Hne.
  { intros E. apply path_join_inj in E as [_ E]. by apply Hts. }
  split.
  - rewrite (write_file_frame _ _ _ _ _ _ Hstep); [apply unlink_gone| |exact Hne].
    intros E. symmetry in E. by apply path_join_ne_self in E.
  - unfold write_file in Hstep.
    destruct (unlink p t (fs w) !! p) as [[?|names1]|] eqn:E1; try discriminate.
    assert (t ∉ names1) as Ht.
    { unfold unlink in E1.
      destruct (delete (p // t) (fs w) !! p) as [[?|names0]|] eqn:E0.
      - rewrite E0 in E1. discriminate.
      - rewrite lookup_insert_eq in E1. injection E1 as <-.
        unfold remove_name. rewrite list_elem_of_filter. intros [Hn _]. by apply Hn.
      - rewrite E0 in E1. discriminate. }
    exists (add_name s names1).
    assert (fs w' !! p = Some (Dir (add_name s names1))) as Hp.
    { destruct (unlink p t (fs w) !! (p // s)) as [[?|?]|]; try discriminate;
        injection Hstep as <-;
        rewrite lookup_insert_ne
          by (intros E; symmetry in E; by apply path_join_ne_self in E);
        by rewrite lookup_insert_eq. }
    split; [exact Hp|]. unfold add_name.
    destruct (bool_decide (s ∈ names1)) eqn:Es.
    + apply bool_decide_eq_true in Es. by split.
    + split; [apply elem_of_app; right; by apply list_elem_of_singleton|].
      rewrite elem_of_app, list_elem_of_singleton. intros [?|?]; [done|]. by apply Hts.
Qed.

(** After a save that returned [True] the temporary file is gone, and the
    product's output folder is a directory whose listing contains
    [selection.json] and does not contain [.selection.json.tmp]. *)
Theorem successful_save_leaves_no_temp_file (OUTPUT_FOLDER : Path) (product : string)
    (source_folder : Path) (sels : list ImgInfo) (user : string) (w w' : World) :
  save_selection OUTPUT_FOLDER product source_folder sels user w = (Return true, w') ->
  fs w' !! (OUTPUT_FOLDER // product // ".selection.json.tmp") = None
  /\ exists names : list string,
       fs w' !! (OUTPUT_FOLDER // product) = Some (Dir names)
       /\ "selection.json" ∈ names
       /\ ".selection.json.tmp" ∉ names.
Proof.
  intros H. apply save_selection_true_stages in H as (w1 & w3 & w4 & meta & H).
  destruct H as (_ & _ & _ & _ & _ & Hrp).
  by apply replace_success in Hrp.
Qed.

Lemma successful_save_leaves_no_temp_file_witness :
  fs demo_saved !! (["out"] // "p" // ".selection.json.tmp") = None
  /\ exists names : list string,
       fs demo_saved !! (["out"] // "p") = Some (Dir names)
       /\ "selection.json" ∈ names
       /\ ".selection.json.tmp" ∉ names.
Proof.
  apply (successful_save_leaves_no_temp_file ["out"] "p" ["src"; "p"] demo_selections
           "me" demo_world demo_saved).
  vm_compute. reflexivity.
Defined.

(** A save that succeeds warns that it replaces an earlier selection exactly
    when [selection.json] existed before the call, and shows nothing
    otherwise. *)
Theorem overwrite_warned_iff_already_saved (OUTPUT_FOLDER : Path) (product : string)
    (source_folder : Path) (sels : list ImgInfo) (user : string) (w w' : World) :
  save_selection OUTPUT_FOLDER product source_folder sels user w = (Return true, w') ->
  ui w' = ui w ++
    (if exists_in (fs w) (OUTPUT_FOLDER // product // "selection.json")
     then [AlreadySaved] else []).
Proof.
  intros H. apply save_selection_true_stages in H as (w1 & w3 & w4 & meta & H).
  destruct H as (Hmk & _ & _ & Hcp & Hwj & Hrp).
  apply mkdir_spec in Hmk as (_ & Hu1 & [(_ & Hm1 & _)|(? & _)]); [|discriminate].
  apply copy_selected_spec in Hcp as (_ & Hu3 & _).
  apply write_json_spec in Hwj as (_ & Hu4 & _).
  apply replace_spec in Hrp as (_ & Hu5 & _); [|discriminate].
  rewrite Hu5, Hu4, Hu3.
  assert (exists_in (fs w1) (OUTPUT_FOLDER // product // "selection.json")
          = exists_in (fs w) (OUTPUT_FOLDER // product // "selection.json")) as ->.
  { unfold exists_in.
    by rewrite (mkdir_parents_frame _ _ _ _ Hm1 (selection_file_not_above _ _)). }
  destruct (exists_in (fs w) _); simpl; rewrite Hu1; [reflexivity|].
  by rewrite app_nil_r.
Qed.

Lemma overwrite_warned_iff_already_saved_witness :
  ui demo_saved = ui demo_world ++
    (if exists_in (fs demo_world) (["out"] // "p" // "selection.json")
     then [AlreadySaved] else []).
Proof.
  apply (overwrite_warned_iff_already_saved ["out"] "p" ["src"; "p"] demo_selections
           "me" demo_world demo_saved).
  vm_compute. reflexivity.
Defined.

(** ** The saved names do not collide *)

Lemma pretty_N_char_not_underscore (x : N) : pretty_N_char x ≠ "_"%char.
Proof. unfold pretty_N_char. repeat case_match; discriminate. Qed.

Lemma pretty_N_go_no_underscore (x : N) (s : string) :
  no_char "_" s -> no_char "_" (pretty_N_go x s).
Proof.
  revert s. induction (N.lt_wf_0 x) as [x _ IH]; intros s Hs.
  assert (x = 0 \/ 0 < x)%N as [->|Hpos] by lia.
  - by rewrite pretty_N_go_0.
  - rewrite pretty_N_go_step by done. apply IH.
    + by apply N.div_lt.
    + split; [apply pretty_N_char_not_underscore|exact Hs].
Qed.

Lemma pretty_nat_no_underscore (n : nat) : no_char "_" (pretty n).
Proof.
  unfold pretty, pretty_nat, pretty, pretty_N.
  destruct (decide (N.of_nat n = 0%N)).
  - simpl. split; [discriminate|exact I].
  - by apply pretty_N_go_no_underscore.
Qed.

Lemma app_underscore_inj (a b x y : string) :
  no_char "_" a -> no_char "_" b ->
  a +:+ String "_" x = b +:+ String "_" y -> a = b.
Proof.
  revert b. induction a as [|c a IH]; intros [|d b] Ha Hb H; simpl in *.
  - reflexivity.
  - injection H as H _. destruct Hb as [Hd _]. congruence.
  - injection H as H _. destruct Ha as [Hc _]. congruence.
  - injection H as -> H. f_equal. apply IH; tauto.
Qed.

Lemma new_filename_index_inj (i j : nat) (c c' o o' : string) :
  new_filename i c o = new_filename j c' o' -> i = j.
Proof.
  unfold new_filename. intros H.
  apply (inj (String.app "ref_")) in H.
  apply app_underscore_inj in H; try apply pretty_nat_no_underscore.
  by apply (inj pretty) in H.
Qed.

(** The names under which a successful save stores the selected images are
    pairwise different, whatever the colours and the original names are
    (also when the same image is selected twice), and none of them is the
    name of the metadata file or of its temporary file. *)
Theorem saved_names_are_distinct (OUTPUT_FOLDER : Path) (product : string)
    (source_folder : Path) (sels : list ImgInfo) (user : string) (w w' : World) :
  save_selection OUTPUT_FOLDER product source_folder sels user w = (Return true, w') ->
  exists data : SelectionRecord,
    fs w' !! (OUTPUT_FOLDER // product // "selection.json") = Some (File (Json data))
    /\ length (images data) = length sels
    /\ NoDup (map saved_file (images data))
    /\ ("selection.json" ∉ map saved_file (images data))
    /\ (".selection.json.tmp" ∉ map saved_file (images data)).
Proof.
  intros H. apply save_selection_true in H as (_ & Hsel & _).
  eexists. split; [exact Hsel|]. simpl.
  split; [apply length_imap|].
  assert (forall (x : string),
            x ∈ map saved_file (imap (fun i => meta_of (S i)) sels) ->
            exists rest, x = String "r" rest) as Hhead.
  { intros x Hx. apply list_elem_of_fmap in Hx as (im & -> & Him).
    apply list_elem_of_lookup in Him as [i Hi].
    rewrite list_lookup_imap in Hi.
    destruct (sels !! i) as [img|]; [|discriminate]. injection Hi as <-.
    apply new_filename_head. }
  split; [|split].
  - apply NoDup_alt. intros i j x Hi Hj.
    change (map ?f ?l) with (f <$> l) in *.
    rewrite list_lookup_fmap, list_lookup_imap in Hi, Hj.
    destruct (sels !! i) as [a|]; [|discriminate].
    destruct (sels !! j) as [b|]; [|discriminate].
    change (Some (saved_file (meta_of (S i) a)) = Some x) in Hi.
    change (Some (saved_file (meta_of (S j) b)) = Some x) in Hj.
    assert (new_filename (S i) (get_color a) (file_of a)
            = new_filename (S j) (get_color b) (file_of b)) as Hij.
    { change (saved_file (meta_of (S i) a) = saved_file (meta_of (S j) b)).
      congruence. }
    apply new_filename_index_inj in Hij. lia.
  - intros Hx. apply Hhead in Hx as [rest Hx]. discriminate.
  - intros Hx. apply Hhead in Hx as [rest Hx]. discriminate.
Qed.

Lemma saved_names_are_distinct_witness :
  exists data : SelectionRecord,
    fs demo_saved !! (["out"] // "p" // "selection.json") = Some (File (Json data))
    /\ length (images data) = length demo_selections
    /\ NoDup (map saved_file (images data))
    /\ ("selection.json" ∉ map saved_file (images data))
    /\ (".selection.json.tmp" ∉ map saved_file (images data)).
Proof.
  apply (saved_names_are_distinct ["out"] "p" ["src"; "p"] demo_selections "me"
           demo_world demo_saved).
  vm_compute. reflexivity.
Defined.

(** ** What the saved files hold *)

Lemma copy2_frame (src p : Path) (n : string) (w : World) (r : Result unit)
    (w' : World) (q : Path) :
  copy2 src (p // n) w = (r, w') ->
  q ≠ p -> q ≠ p // n -> q ≠ p // n // path_name src ->
  fs w' !! q = fs w !! q.
Proof.
  intros H Hq1 Hq2 Hq3.
  apply writing_call_spec in H as (_ & _ & [(_ & Hstep & _)|(_ & _ & [Hf|[_ Hf]])]).
  - by apply (copy2_step_frame _ _ _ _ _ _ _ Hstep).
  - by rewrite Hf.
  - rewrite Hf.
    destruct (copy2_step src (p // n) (Some Partial) (fs w)) as [m1|] eqn:E; simpl;
      [by apply (copy2_step_frame _ _ _ _ _ _ _ E)|reflexivity].
Qed.

Lemma copy2_frame_outside (src p : Path) (n : string) (w : World) (r : Result unit)
    (w' : World) (q : Path) :
  copy2 src (p // n) w = (r, w') -> ~ p `prefix_of` q -> fs w' !! q = fs w !! q.
Proof.
  intros H Hq. apply (copy2_frame _ _ _ _ _ _ _ H).
  - intros ->. by apply Hq.
  - intros ->. apply Hq, prefix_of_join.
  - intros ->. apply Hq, prefix_of_join2.
Qed.

Lemma copy2_success_content (src p : Path) (n : string) (w w' : World) :
  copy2 src (p // n) w = (Return tt, w') ->
  is_dir_in (fs w) (p // n) = false ->
  exists c : Content,
    fs w !! src = Some (File c) /\ fs w' !! (p // n) = Some (File c).
Proof.
  intros H Hnd.
  apply writing_call_spec in H as (_ & _ & [(_ & Hstep & _)|(? & _)]); [|discriminate].
  unfold copy2_step, copy2_target in Hstep. rewrite Hnd in Hstep.
  destruct (bool_decide _); [discriminate|].
  destruct (fs w !! src) as [[c|?]|]; try discriminate.
  rewrite path_parent_join, path_name_join in Hstep. simpl in Hstep.
  exists c. split; [reflexivity|]. by apply write_file_lookup in Hstep.
Qed.

Lemma replace_frame (p : Path) (t s x : string) (w : World) (r : Result unit)
    (w' : World) :
  replace (p // t) (p // s) w = (r, w') -> x ≠ t -> x ≠ s ->
  fs w' !! (p // x) = fs w !! (p // x).
Proof.
  intros H Hxt Hxs.
  apply writing_call_spec in H as (_ & _ & [(_ & Hstep & _)|(_ & _ & [Hf|[_ Hf]])]);
    try (by rewrite Hf).
  unfold replace_step in Hstep.
  destruct (fs w !! (p // t)) as [[c|?]|]; try discriminate.
  destruct (bool_decide _); [by injection Hstep as <-|].
  rewrite !path_parent_join, !path_name_join in Hstep.
  assert (forall y : string, x ≠ y -> p // x ≠ p // y) as Hne.
  { intros y Hy E. apply path_join_inj in E as [_ E]. by apply Hy. }
  assert (p // x ≠ p) as Hnp.
  { intros E. symmetry in E. by apply path_join_ne_self in E. }
  rewrite (write_file_frame _ _ _ _ _ _ Hstep) by auto.
  apply unlink_frame; auto.
Qed.

Lemma prefix_of_join_inv (p q : Path) (n : string) :
  p `prefix_of` q // n -> p `prefix_of` q \/ p = q // n.
Proof.
  unfold path_join. intros [k Hk].
  destruct k as [|y k _] using rev_ind.
  - right. by rewrite app_nil_r in Hk.
  - left. rewrite app_assoc in Hk. apply app_inj_tail in Hk as [-> _].
    by apply prefix_app_r.
Qed.

Lemma join_prefix_of (p q : Path) (n : string) : (p // n) `prefix_of` q -> p `prefix_of` q.
Proof. unfold path_join. apply prefix_app_l. Qed.

(** The copy loop writes, in the output folder, only under names it
    generates for the indices from [idx] on. *)
Lemma copy_selected_frame_from (source_folder pof : Path) (l : list ImgInfo) :
  forall (idx : nat) (acc : list ImageMeta) (w : World) (r : Result (list ImageMeta))
         (w' : World),
  copy_selected source_folder pof l idx acc w = (r, w') ->
  forall x : string,
    (forall (k : nat) (c o : string), (idx <= k)%nat -> x ≠ new_filename k c o) ->
    fs w' !! (pof // x) = fs w !! (pof // x).
Proof.
  induction l as [|img0 l IH]; intros idx acc w r w' H x Hx; simpl in H.
  - by injection H as <- <-.
  - apply bind_inv in H as [(o & w0 & Ho & H)|(e & Ho & _)];
      unfold get_original_file in Ho;
      destruct (info_original_file img0) as [o0|]; try discriminate.
    2:{ by injection Ho as _ <-. }
    injection Ho as <- <-.
    apply bind_inv in H as [([] & w1 & Hc & H)|(e & Hc & _)];
      apply copy2_spec in Hc as (_ & _ & Hf & _).
    + rewrite (IH _ _ _ _ _ H x) by (intros k c o Hk; apply Hx; lia).
      apply Hf, Hx. lia.
    + apply Hf, Hx. lia.
Qed.

Lemma copy_selected_frame_outside (source_folder pof : Path) (l : list ImgInfo)
    (idx : nat) (acc : list ImageMeta) (w : World) (r : Result (list ImageMeta))
    (w' : World) (q : Path) :
  copy_selected source_folder pof l idx acc w = (r, w') ->
  ~ pof `prefix_of` q -> fs w' !! q = fs w !! q.
Proof.
  intros H. revert q.
  apply (preserves_copy_selected
           (fun m m' => forall q, ~ pof `prefix_of` q -> m' !! q = m !! q)) in H;
    [exact H| | |].
  - intros m q _. reflexivity.
  - intros m1 m2 m3 H12 H23 q Hq. rewrite H23 by done. by apply H12.
  - intros src n c m m' Hstep q Hq. apply (copy2_step_frame _ _ _ _ _ _ _ Hstep).
    + intros ->. by apply Hq.
    + intros ->. apply Hq, prefix_of_join.
    + intros ->. apply Hq, prefix_of_join2.
Qed.

(** The copy loop, when it completes: a file of the source folder that does
    not lie in the output folder arrives under its new name with the
    content it had when the loop began. *)
Lemma copy_selected_content (source_folder pof : Path) (l : list ImgInfo) :
  forall (idx : nat) (acc : list ImageMeta) (w : World) (meta : list ImageMeta)
         (w' : World),
  copy_selected source_folder pof l idx acc w = (Return meta, w') ->
  ~ pof `prefix_of` source_folder ->
  ~ source_folder `prefix_of` pof ->
  forall (i : nat) (img : ImgInfo),
    l !! i = Some img ->
    is_dir_in (fs w)
      (pof // new_filename (idx + i) (get_color img) (file_of img)) = false ->
    exists c : Content,
      fs w !! (source_folder // file_of img) = Some (File c)
      /\ fs w' !! (pof // new_filename (idx + i) (get_color img) (file_of img))
         = Some (File c).
Proof.
  induction l as [|img0 l IH]; intros idx acc w meta w' H Hps Hsp i img Hi Hnd.
  - by rewrite lookup_nil in Hi.
  - simpl in H.
    apply bind_inv in H as [(o & w0 & Ho & H)|(e & _ & ?)]; [|discriminate].
    unfold get_original_file in Ho.
    destruct (info_original_file img0) as [o0|] eqn:Eo; [|discriminate].
    injection Ho as <- <-.
    assert (file_of img0 = o0) as Hfo by (unfold file_of; by rewrite Eo).
    apply bind_inv in H as [([] & w1 & Hc & H)|(e & _ & ?)]; [|discriminate].
    assert (forall o : string, ~ pof `prefix_of` source_folder // o) as Hout.
    { intros o Hp. apply prefix_of_join_inv in Hp as [Hp| ->]; [by apply Hps|].
      apply Hsp, prefix_of_join. }
    destruct i as [|i]; simpl in Hi.
    + injection Hi as ->. rewrite Nat.add_0_r in *. rewrite Hfo in *.
      destruct (copy2_success_content _ _ _ _ _ Hc Hnd) as (c & Hsrc & Hdst).
      exists c. split; [exact Hsrc|].
      rewrite <- Hdst. apply (copy_selected_frame_from _ _ _ _ _ _ _ _ H).
      intros k c' o' Hk E. apply new_filename_index_inj in E. lia.
    + replace (idx + S i)%nat with (S idx + i)%nat in * by lia.
      destruct (IH _ _ _ _ _ H Hps Hsp i img Hi) as (c & Hsrc & Hdst).
      * unfold is_dir_in in *.
        rewrite (copy2_frame _ _ _ _ _ _ _ Hc); [exact Hnd| | |].
        -- intros E. symmetry in E. by apply path_join_ne_self in E.
        -- intros E. apply path_join_inj in E as [_ E].
           apply new_filename_index_inj in E. lia.
        -- intros E. apply (f_equal length) in E.
           rewrite !path_join_length in E. lia.
      * exists c. split; [|exact Hdst].
        rewrite <- Hsrc. symmetry.
        apply (copy2_frame_outside _ _ _ _ _ _ _ Hc), Hout.
Qed.

(** When the source folder and the product's output folder are not nested
    in one another, a save that returned [True] has stored under the name
    of each selection, as a regular file, exactly the content its original
    had before the call, provided no directory stood under that name. *)
Theorem saved_file_holds_source_content (OUTPUT_FOLDER : Path) (product : string)
    (source_folder : Path) (sels : list ImgInfo) (user : string) (w w' : World)
    (i : nat) (img : ImgInfo) :
  save_selection OUTPUT_FOLDER product source_folder sels user w = (Return true, w') ->
  ~ (OUTPUT_FOLDER // product) `prefix_of` source_folder ->
  ~ source_folder `prefix_of` (OUTPUT_FOLDER // product) ->
  sels !! i = Some img ->
  is_dir_in (fs w)
    (OUTPUT_FOLDER // product // new_filename (S i) (get_color img) (file_of img))
    = false ->
  exists c : Content,
    info_original_file img = Some (file_of img)
    /\ fs w !! (source_folder // file_of img) = Some (File c)
    /\ fs w' !! (OUTPUT_FOLDER // product //
                   new_filename (S i) (get_color img) (file_of img))
       = Some (File c).
Proof.
  intros H Hps Hsp Hi Hnd.
  apply save_selection_true_stages in H as (w1 & w3 & w4 & meta & H).
  destruct H as (Hmk & Hnamed & _ & Hcp & Hwj & Hrp).
  apply mkdir_spec in Hmk as (_ & _ & [(_ & Hm1 & _)|(? & _)]); [|discriminate].
  set (name := new_filename (S i) (get_color img) (file_of img)) in *.
  set (pof := OUTPUT_FOLDER // product) in *.
  set (w2 := if exists_in (fs w1) (pof // "selection.json")
             then say AlreadySaved w1 else w1) in *.
  assert (fs w2 = fs w1) as Hf2 by (subst w2; by destruct (exists_in _ _)).
  assert (fs w1 !! (pof // name) = fs w !! (pof // name)) as Hd1.
  { apply (mkdir_parents_frame _ _ _ _ Hm1), selection_file_not_above. }
  assert (fs w1 !! (source_folder // file_of img)
          = fs w !! (source_folder // file_of img)) as Hs1.
  { apply (mkdir_parents_frame _ _ _ _ Hm1). rewrite rev_involutive.
    intros Hp. by apply Hsp, join_prefix_of with (file_of img). }
  assert (is_dir_in (fs w2)
            (pof // new_filename (1 + i) (get_color img) (file_of img)) = false)
    as Hnd2.
  { change (1 + i)%nat with (S i). fold name. unfold is_dir_in in *.
    rewrite Hf2, Hd1. exact Hnd. }
  destruct (copy_selected_content _ _ _ _ _ _ _ _ Hcp Hps Hsp i img Hi Hnd2)
    as (c & Hsrc & Hdst).
  change (1 + i)%nat with (S i) in Hdst. fold name in Hdst.
  destruct (new_filename_head (S i) (get_color img) (file_of img)) as [rest Hrest].
  fold name in Hrest.
  exists c. split; [|split].
  - apply named_file_of. eapply Forall_forall; [exact Hnamed|].
    by eapply list_elem_of_lookup_2.
  - by rewrite <- Hs1, <- Hf2.
  - rewrite (replace_frame _ _ _ name _ _ _ Hrp) by (rewrite Hrest; discriminate).
    apply write_json_spec in Hwj as (_ & _ & Hf4 & _).
    rewrite Hf4 by (rewrite Hrest; discriminate). exact Hdst.
Qed.

Lemma saved_file_holds_source_content_witness :
  exists c : Content,
    info_original_file {| info_original_file := Some "a.png"; info_color := Some "red" |}
      = Some (file_of {| info_original_file := Some "a.png"; info_color := Some "red" |})
    /\ fs demo_world !!
         (["src"; "p"] // file_of {| info_original_file := Some "a.png";
                                     info_color := Some "red" |})
       = Some (File c)
    /\ fs demo_saved !!
         (["out"] // "p" //
            new_filename 2
              (get_color {| info_original_file := Some "a.png"; info_color := Some "red" |})
              (file_of {| info_original_file := Some "a.png"; info_color := Some "red" |}))
       = Some (File c).
Proof.
  apply (saved_file_holds_source_content ["out"] "p" ["src"; "p"] demo_selections "me"
           demo_world demo_saved 1%nat
           {| info_original_file := Some "a.png"; info_color := Some "red" |}).
  - vm_compute. reflexivity.
  - intros [k Hk]. vm_compute in Hk. discriminate.
  - intros [k Hk]. vm_compute in Hk. discriminate.
  - reflexivity.
  - vm_compute. reflexivity.
Defined.

(** ** Deleting a selection *)

Lemma remove_tree_at_or_below (parent : Path) (n : string) (m : FsMap) (q : Path) :
  (parent // n) `prefix_of` q -> remove_tree (parent // n) m !! q = None.
Proof.
  intros Hq. unfold remove_tree. rewrite path_parent_join, path_name_join.
  assert (filter (fun kv : Path * Node => ~ (parent // n) `prefix_of` kv.1) m !! q = None)
    as Hgone.
  { apply map_lookup_filter_None. right. intros v _ Hnot. by apply Hnot. }
  assert (parent ≠ q) as Hne.
  { intros ->. apply prefix_length in Hq. rewrite path_join_length in Hq. lia. }
  destruct (filter _ m !! parent) as [[c|names]|]; try exact Hgone.
  destruct (bool_decide (parent // n = [])); [exact Hgone|].
  by rewrite lookup_insert_ne.
Qed.

Lemma remove_tree_elsewhere (parent : Path) (n : string) (m : FsMap) (q : Path) :
  ~ (parent // n) `prefix_of` q -> q ≠ parent ->
  remove_tree (parent // n) m !! q = m !! q.
Proof.
  intros Hq Hne. unfold remove_tree. rewrite path_parent_join, path_name_join.
  assert (filter (fun kv : Path * Node => ~ (parent // n) `prefix_of` kv.1) m !! q = m !! q)
    as Hsame.
  { destruct (m !! q) as [v|] eqn:E.
    - by apply map_lookup_filter_Some_2.
    - apply map_lookup_filter_None. by left. }
  destruct (filter _ m !! parent) as [[c|names]|]; try exact Hsame.
  destruct (bool_decide (parent // n = [])); [exact Hsame|].
  by rewrite lookup_insert_ne.
Qed.

Lemma remove_tree_parent (parent : Path) (n : string) (m : FsMap) (names : list string) :
  m !! parent = Some (Dir names) ->
  remove_tree (parent // n) m !! parent = Some (Dir (remove_name n names)).
Proof.
  intros Hp. unfold remove_tree. rewrite path_parent_join, path_name_join.
  assert (filter (fun kv : Path * Node => ~ (parent // n) `prefix_of` kv.1) m !! parent
          = Some (Dir names)) as ->.
  { apply map_lookup_filter_Some_2; [exact Hp|]. simpl. intros H.
    apply prefix_length in H. rewrite path_join_length in H. lia. }
  rewrite bool_decide_eq_false_2.
  - by rewrite lookup_insert_eq.
  - unfold path_join. intros E. by apply app_eq_nil in E as [_ E].
Qed.

Lemma remove_tree_lookup (parent : Path) (n : string) (m : FsMap) (x : Path) :
  remove_tree (parent // n) m !! x
  = if bool_decide ((parent // n) `prefix_of` x) then None
    else if bool_decide (x = parent) then
      match m !! parent with
      | Some (Dir names) => Some (Dir (remove_name n names))
      | o => o
      end
    else m !! x.
Proof.
  case_bool_decide as Hpre; [by apply remove_tree_at_or_below|].
  case_bool_decide as Hx; [subst x|by apply remove_tree_elsewhere].
  destruct (m !! parent) as [[c|names]|] eqn:E.
  - unfold remove_tree. rewrite path_parent_join, path_name_join.
    assert (filter (fun kv : Path * Node => ~ (parent // n) `prefix_of` kv.1) m !! parent
            = Some (File c)) as Hf; [by apply map_lookup_filter_Some_2|].
    by rewrite Hf.
  - by apply remove_tree_parent.
  - unfold remove_tree. rewrite path_parent_join, path_name_join.
    assert (filter (fun kv : Path * Node => ~ (parent // n) `prefix_of` kv.1) m !! parent
            = None) as Hf; [apply map_lookup_filter_None; by left|].
    by rewrite Hf.
Qed.

(** One entry below [p] removed: nothing outside [p] changes, [p] is a
    directory as before, and nothing is new or altered. *)
Lemma remove_tree_inside (p q : Path) (m : FsMap) :
  p `prefix_of` q -> q ≠ p ->
  (forall x : Path, ~ p `prefix_of` x -> remove_tree q m !! x = m !! x)
  /\ is_dir_in (remove_tree q m) p = is_dir_in m p
  /\ (forall (x : Path) (c : Content),
        remove_tree q m !! x = Some (File c) -> m !! x = Some (File c))
  /\ (forall x : Path, is_Some (remove_tree q m !! x) -> is_Some (m !! x)).
Proof.
  intros Hpq Hne.
  destruct q as [|n parent _] using rev_ind.
  { destruct Hne. symmetry. by apply prefix_nil_inv. }
  change (parent ++ [n]) with (parent // n) in *.
  assert (p `prefix_of` parent) as Hpp.
  { apply prefix_of_join_inv in Hpq as [H|H]; [exact H|by destruct Hne]. }
  assert (~ (parent // n) `prefix_of` p) as Hnp.
  { intros H. apply prefix_length in H, Hpp. rewrite path_join_length in H. lia. }
  split; [|split; [|split]].
  - intros x Hx. rewrite remove_tree_lookup.
    rewrite bool_decide_eq_false_2.
    2:{ intros H. apply Hx. etrans; [exact Hpq|exact H]. }
    rewrite bool_decide_eq_false_2; [reflexivity|]. by intros ->.
  - unfold is_dir_in. rewrite remove_tree_lookup.
    rewrite (bool_decide_eq_false_2 _ Hnp).
    case_bool_decide as E; [|reflexivity]. subst p.
    by destruct (m !! parent) as [[?|?]|].
  - intros x c. rewrite remove_tree_lookup.
    case_bool_decide; [discriminate|].
    case_bool_decide as E; [|done]. subst x.
    by destruct (m !! parent) as [[?|?]|].
  - intros x. rewrite remove_tree_lookup.
    case_bool_decide; [by intros [? ?]|].
    case_bool_decide as E; [|done]. subst x.
    by destruct (m !! parent) as [[?|?]|].
Qed.

(** An interrupted removal: the same, whatever was removed. *)
Lemma remove_below_inside (p : Path) (removed : list Path) (m : FsMap) :
  (forall x : Path, ~ p `prefix_of` x -> remove_below p removed m !! x = m !! x)
  /\ is_dir_in (remove_below p removed m) p = is_dir_in m p
  /\ (forall (x : Path) (c : Content),
        remove_below p removed m !! x = Some (File c) -> m !! x = Some (File c))
  /\ (forall x : Path, is_Some (remove_below p removed m !! x) -> is_Some (m !! x)).
Proof.
  unfold remove_below. revert m.
  induction removed as [|q l IH]; intros m; simpl; [by repeat split|].
  case_bool_decide as Hq; [|apply IH].
  destruct Hq as [Hpq Hne].
  destruct (remove_tree_inside p q m Hpq Hne) as (H1 & H2 & H3 & H4).
  destruct (IH (remove_tree q m)) as (I1 & I2 & I3 & I4).
  split; [|split; [|split]].
  - intros x Hx. by rewrite I1, H1.
  - by rewrite I2, H2.
  - intros x c Hc. by apply H3, I3.
  - intros x Hx. by apply H4, I4.
Qed.

(** The delete handler never raises.  When the removal completes, nothing is
    left at or below the product's output folder, the listing of the output
    root no longer names the product, and every other path holds what it
    held.  When the removal fails, the failure is reported; part of the
    folder's content may be gone by then, but nothing outside the folder has
    changed, the folder is a directory exactly if it was one, no entry is
    new, and every file still there holds what it held. *)
Theorem delete_removes_only_product_output (OUTPUT_FOLDER : Path) (product : string)
    (v : World) :
  exists v' : World,
    main_confirm_delete OUTPUT_FOLDER product v = (Return tt, v')
    /\ ((ui v' = ui v ++ [Deleted product]
         /\ calls v' = calls v ++ [Rmtree (OUTPUT_FOLDER // product)]
         /\ (forall q : Path,
               (OUTPUT_FOLDER // product) `prefix_of` q -> fs v' !! q = None)
         /\ (forall q : Path,
               ~ (OUTPUT_FOLDER // product) `prefix_of` q -> q ≠ OUTPUT_FOLDER ->
               fs v' !! q = fs v !! q)
         /\ (forall names : list string,
               fs v !! OUTPUT_FOLDER = Some (Dir names) ->
               fs v' !! OUTPUT_FOLDER = Some (Dir (remove_name product names))))
        \/ (ui v' = ui v ++ [DeleteFailed (OSError "rmtree" (OUTPUT_FOLDER // product))]
            /\ calls v' = calls v
            /\ (forall q : Path,
                  ~ (OUTPUT_FOLDER // product) `prefix_of` q -> fs v' !! q = fs v !! q)
            /\ is_dir_in (fs v') (OUTPUT_FOLDER // product)
               = is_dir_in (fs v) (OUTPUT_FOLDER // product)
            /\ (forall (q : Path) (c : Content),
                  fs v' !! q = Some (File c) -> fs v !! q = Some (File c))
            /\ (forall q : Path, is_Some (fs v' !! q) -> is_Some (fs v !! q)))).
Proof.
  destruct (main_confirm_delete_spec OUTPUT_FOLDER product v)
    as (v' & Hrun & _ & [(Hf & _ & Hc & Hu)|([removed Hf] & Hc & Hu)]);
    exists v'; (split; [exact Hrun|]).
  - left. split; [exact Hu|]. split; [exact Hc|]. rewrite Hf. split; [|split].
    + intros q Hq. by apply remove_tree_at_or_below.
    + intros q Hq Hne. by apply remove_tree_elsewhere.
    + intros names Hn. by apply remove_tree_parent.
  - right. split; [exact Hu|]. split; [exact Hc|]. rewrite Hf.
    apply remove_below_inside.
Qed.

(** The removal can stop half-way: interrupted after the first copy is
    gone, the delete of the saved demo product reports the failure and
    leaves the folder with the second copy and [selection.json]. *)
Example delete_interrupted :
  let v := {| fs := fs demo_saved; now := now demo_saved;
              faults := [FailDuring [["out"; "p"; "ref_1_unknown.png"]]];
              ui := []; calls := [] |} in
  let r := main_confirm_delete ["out"] "p" v in
  r.1 = Return tt
  /\ ui r.2 = [DeleteFailed (OSError "rmtree" ["out"; "p"])]
  /\ fs r.2 !! ["out"; "p"; "ref_1_unknown.png"] = None
  /\ fs r.2 !! ["out"; "p"] = Some (Dir ["ref_2_red.png"; "selection.json"])
  /\ is_file_in (fs r.2) ["out"; "p"; "selection.json"] = true.
Proof. vm_compute. repeat split; reflexivity. Qed.

Lemma rmtree_no_fault (p : Path) (w : World) :
  faults w = [] -> is_dir_in (fs w) p = true ->
  rmtree p w = (Return tt, done_call (Rmtree p) (with_fs (remove_tree p (fs w)) w)).
Proof.
  intros Hfault Hdir. unfold rmtree, next_fault.
  rewrite Hfault. by rewrite Hdir.
Qed.

(** With a document that loads and has a [get], the delete block shows the
    two notices and, when the button is pressed, hands over to the handler. *)
Lemma main_delete_section_readable (OUTPUT_FOLDER : Path) (product : string)
    (confirm : bool) (w : World) (d : JsonData) (by_ at_ : string) :
  read_json (OUTPUT_FOLDER // product // "selection.json") w = (Return d, w) ->
  get_selected_by d w = (Return by_, w) ->
  get_timestamp d w = (Return at_, w) ->
  main_delete_section OUTPUT_FOLDER product confirm w
  = (if confirm then main_confirm_delete OUTPUT_FOLDER product else ret tt)
      (say DeleteWarning (say (MetadataInfo by_ at_) w)).
Proof.
  intros Hread Hby Hat.
  assert (exists_in (fs w) (OUTPUT_FOLDER // product // "selection.json") = true) as Hex.
  { unfold read_json in Hread. unfold exists_in.
    by destruct (fs w !! (OUTPUT_FOLDER // product // "selection.json")). }
  unfold main_delete_section.
  rewrite (bind_return (is_product_completed OUTPUT_FOLDER product) _ w w true).
  2:{ unfold is_product_completed, path_exists. by rewrite Hex. }
  unfold try_except.
  rewrite (bind_return _ _ _ _ _ Hread).
  rewrite (bind_return _ _ _ _ _ Hby).
  rewrite (bind_return _ _ _ _ _ Hat).
  unfold bind, st_message.
  destruct confirm; [|reflexivity].
  destruct (main_confirm_delete_spec OUTPUT_FOLDER product
              (say DeleteWarning (say (MetadataInfo by_ at_) w))) as (v' & Hrun & _).
  by rewrite Hrun.
Qed.

(** The "Delete Current Selection" block never raises and deletes only on
    a button press and a document it can show.  For a product without
    [selection.json] it only says so.  When [selection.json] is a record of
    a save, or another JSON object (for which a missing [selected_by] or
    [timestamp] reads [Unknown]), it shows who selected and when and the
    warning, and with the button pressed runs the handler after them.  In
    every other case (a directory, bytes that are not JSON, an unfinished
    write, a JSON value that is not an object) it reports that the metadata
    cannot be read, pressed or not.  Without the button press the file
    system is never touched. *)
Theorem delete_section_guards (OUTPUT_FOLDER : Path) (product : string)
    (confirm : bool) (w : World) :
  exists w' : World,
    main_delete_section OUTPUT_FOLDER product confirm w = (Return tt, w')
    /\ (confirm = false -> fs w' = fs w /\ calls w' = calls w)
    /\ let proceeds (by_ at_ : string) :=
         let shown := say DeleteWarning (say (MetadataInfo by_ at_) w) in
         if confirm
         then main_confirm_delete OUTPUT_FOLDER product shown = (Return tt, w')
         else w' = shown in
       match fs w !! (OUTPUT_FOLDER // product // "selection.json") with
       | None => w' = say NotCompleted w
       | Some (File (Json r)) => proceeds (selected_by r) (timestamp r)
       | Some (File (JsonOther (JObject by_ at_))) =>
           proceeds (default "Unknown" by_) (default "Unknown" at_)
       | Some _ => w' = say UnableToRead w
       end.
Proof.
  assert (forall (d : JsonData) (by_ at_ : string),
            read_json (OUTPUT_FOLDER // product // "selection.json") w = (Return d, w) ->
            get_selected_by d w = (Return by_, w) ->
            get_timestamp d w = (Return at_, w) ->
            exists w' : World,
              main_delete_section OUTPUT_FOLDER product confirm w = (Return tt, w')
              /\ (confirm = false -> fs w' = fs w /\ calls w' = calls w)
              /\ (let shown := say DeleteWarning (say (MetadataInfo by_ at_) w) in
                  if confirm
                  then main_confirm_delete OUTPUT_FOLDER product shown = (Return tt, w')
                  else w' = shown)) as Hshown.
  { intros d by_ at_ Hread Hby Hat.
    rewrite (main_delete_section_readable _ _ _ _ _ _ _ Hread Hby Hat).
    destruct confirm.
    - destruct (main_confirm_delete_spec OUTPUT_FOLDER product
                  (say DeleteWarning (say (MetadataInfo by_ at_) w))) as (v' & Hrun & _).
      exists v'. split; [exact Hrun|]. split; [discriminate|exact Hrun].
    - eexists. split; [reflexivity|]. by split. }
  destruct (fs w !! (OUTPUT_FOLDER // product // "selection.json"))
    as [[[b|r|[by_ at_|]|]|names]|] eqn:E.
  3:{ apply (Hshown (JOther (JObject by_ at_))); [|reflexivity..].
      unfold read_json. by rewrite E. }
  2:{ apply (Hshown (JRecord r)); [|reflexivity..]. unfold read_json. by rewrite E. }
  all: unfold main_delete_section, bind at 1, is_product_completed, path_exists,
         exists_in; rewrite E;
       unfold try_except, bind, read_json; rewrite ?E; simpl;
       eexists; split; [reflexivity|]; by split.
Qed.

(** A [selection.json] holding the empty object is shown with [Unknown]
    for author and date, and a confirmed delete goes through. *)
Example delete_with_empty_object :
  let w := with_fs (<[ ["out"; "p"] := Dir ["selection.json"] ]>
                      (<[ ["out"; "p"; "selection.json"]
                          := File (JsonOther (JObject None None)) ]>
                         (<[ ["out"] := Dir ["p"] ]> demo_fs))) demo_world in
  let r := main_delete_section ["out"] "p" true w in
  r.1 = Return tt
  /\ ui r.2 = [MetadataInfo "Unknown" "Unknown"; DeleteWarning; Deleted "p"]
  /\ fs r.2 !! ["out"; "p"] = None.
Proof. vm_compute. repeat split; reflexivity. Qed.

(** Save, then delete: in the world a successful save leaves, if the
    environment fails no further call, the delete block with the button
    pressed shows the saved author and time and the warning, removes the
    product's output folder with everything below it, and the product is no
    longer completed. *)
Theorem delete_undoes_save (OUTPUT_FOLDER : Path) (product : string)
    (source_folder : Path) (sels : list ImgInfo) (user : string) (w w1 : World) :
  save_selection OUTPUT_FOLDER product source_folder sels user w = (Return true, w1) ->
  faults w1 = [] ->
  exists w2 : World,
    main_delete_section OUTPUT_FOLDER product true w1 = (Return tt, w2)
    /\ ui w2 = ui w1 ++ [MetadataInfo user (now w); DeleteWarning; Deleted product]
    /\ (forall q : Path,
          (OUTPUT_FOLDER // product) `prefix_of` q -> fs w2 !! q = None)
    /\ is_product_completed OUTPUT_FOLDER product w2 = (Return false, w2).
Proof.
  intros Hsave Hfaults.
  pose proof (save_selection_true _ _ _ _ _ _ _ Hsave) as (_ & Hsel & _).
  apply save_selection_true_stages in Hsave as (w01 & w3 & w4 & meta & Hst).
  destruct Hst as (_ & _ & _ & _ & _ & Hrp).
  apply replace_success in Hrp as (_ & names & Hdir & _); [|discriminate].
  eexists.
  rewrite (main_delete_section_readable OUTPUT_FOLDER product true w1
             (JRecord {| product_name := product; completed := true;
                         selected_by := user; timestamp := now w;
                         images := imap (fun i => meta_of (S i)) sels |})
             user (now w)); [|unfold read_json; by rewrite Hsel|reflexivity..].
  unfold main_confirm_delete, try_except, bind.
  rewrite rmtree_no_fault.
  2:{ exact Hfaults. }
  2:{ unfold is_dir_in. simpl. by rewrite Hdir. }
  unfold st_message. split; [reflexivity|]. simpl.
  split; [by rewrite <- !app_assoc|].
  assert (forall q : Path,
            (OUTPUT_FOLDER // product) `prefix_of` q ->
            remove_tree (OUTPUT_FOLDER // product) (fs w1) !! q = None) as Hgone.
  { intros q Hq. by apply remove_tree_at_or_below. }
  split; [exact Hgone|].
  unfold is_product_completed, path_exists, exists_in. simpl.
  rewrite Hgone; [reflexivity|]. apply prefix_of_join.
Qed.

Lemma delete_undoes_save_witness :
  exists w2 : World,
    main_delete_section ["out"] "p" true demo_saved = (Return tt, w2)
    /\ ui w2 = ui demo_saved
               ++ [MetadataInfo "me" (now demo_world); DeleteWarning; Deleted "p"]
    /\ (forall q : Path, (["out"] // "p") `prefix_of` q -> fs w2 !! q = None)
    /\ is_product_completed ["out"] "p" w2 = (Return false, w2).
Proof.
  apply (delete_undoes_save ["out"] "p" ["src"; "p"] demo_selections "me"
           demo_world demo_saved); vm_compute; reflexivity.
Defined.

(** ** More on the scanner *)

(** The scanner only reads: whatever the file system holds, both listings
    leave the world exactly as it was; a folder that does not exist lists as
    empty, and a path that is a regular file makes the listing raise. *)
Theorem scanner_reads_only (folder_path : Path) (w : World) :
  exists r1 r2 : Result (list Path),
    get_all_product_folders folder_path w = (r1, w)
    /\ get_images_in_folder folder_path w = (r2, w)
    /\ match fs w !! folder_path with
       | None => r1 = Return [] /\ r2 = Return []
       | Some (File _) =>
           r1 = Raise (OSError "iterdir" folder_path)
           /\ r2 = Raise (OSError "iterdir" folder_path)
       | Some (Dir names) =>
           length (children (fs w) folder_path) = length names
           /\ (exists l1, r1 = Return l1 /\ (length l1 <= length names)%nat)
           /\ (exists l2, r2 = Return l2 /\ (length l2 <= length names)%nat)
       end.
Proof.
  destruct (fs w !! folder_path) as [[c|names]|] eqn:E.
  - unfold get_all_product_folders, get_images_in_folder, bind, path_exists,
      exists_in, iterdir. rewrite E. simpl. rewrite E.
    eexists _, _. repeat split.
  - rewrite get_all_product_folders_run, get_images_in_folder_run
      by (unfold is_file_in; by rewrite E).
    eexists _, _. split; [reflexivity|]. split; [reflexivity|].
    unfold children. rewrite E.
    split; [by rewrite length_map|].
    split; eexists; (split; [reflexivity|]);
      rewrite sort_by_key_perm;
      (etrans; [apply length_filter|]); by rewrite length_map.
  - unfold get_all_product_folders, get_images_in_folder, bind, path_exists,
      exists_in. rewrite E. simpl. eexists _, _. repeat split.
Qed.

Lemma sorted_perm_unique {A} (key : A -> string) (s1 s2 : list A) :
  StronglySorted (key_le key) s1 -> StronglySorted (key_le key) s2 ->
  s1 ≡ₚ s2 -> NoDup (map key s1) -> s1 = s2.
Proof.
  intros Hs1. revert s2. induction Hs1 as [|x s1 Hs1 IH Hx]; intros s2 Hs2 Hp Hnd.
  - by apply Permutation_nil_l in Hp.
  - destruct s2 as [|y s2].
    { symmetry in Hp. by apply Permutation_nil_cons in Hp. }
    inversion Hs2 as [|? ? Hs2' Hy]; subst.
    simpl in Hnd. apply NoDup_cons in Hnd as [Hkx Hnd].
    assert (x = y) as ->.
    { assert (x ∈ y :: s2) as Hxin by (rewrite <- Hp; by left).
      assert (y ∈ x :: s1) as Hyin by (rewrite Hp; by left).
      apply elem_of_cons in Hxin as [?|Hxin]; [done|].
      apply elem_of_cons in Hyin as [?|Hyin]; [done|].
      assert (key y = key x) as Hk.
      { apply (anti_symm String.le).
        - rewrite Forall_forall in Hy. by apply Hy.
        - rewrite Forall_forall in Hx. by apply Hx. }
      exfalso. apply Hkx. rewrite <- Hk. by apply list_elem_of_fmap_2. }
    f_equal. apply IH; [exact Hs2'| |exact Hnd].
    by apply Permutation_cons_inv in Hp.
Qed.

Lemma sort_by_key_perm_unique {A} (key : A -> string) (l1 l2 : list A) :
  l1 ≡ₚ l2 -> NoDup (map key l1) -> sort_by_key key l1 = sort_by_key key l2.
Proof.
  intros Hp Hnd. apply (sorted_perm_unique key).
  - apply sort_by_key_sorted.
  - apply sort_by_key_sorted.
  - by rewrite !sort_by_key_perm.
  - by rewrite sort_by_key_perm.
Qed.

Lemma filter_ext_in {A} (P Q : A -> bool) (l : list A) :
  (forall x, x ∈ l -> P x = Q x) ->
  filter (fun x => P x) l = filter (fun x => Q x) l.
Proof.
  induction l as [|x l IH]; intros H; [reflexivity|].
  rewrite !filter_cons. rewrite (H x) by (by left).
  rewrite IH by (intros y Hy; apply H; by right). reflexivity.
Qed.

Lemma name_key_children_NoDup (folder_path : Path) (names : list string)
    (P : Path -> bool) :
  NoDup (map lower names) ->
  NoDup (map name_key (filter (fun p => P p) (map (path_join folder_path) names))).
Proof.
  intros Hnd. eapply sublist_NoDup; [exact Hnd|]. clear Hnd.
  induction names as [|n names IH]; simpl; [constructor|].
  rewrite filter_cons. destruct (decide (P (folder_path // n))); simpl.
  - unfold name_key at 1. rewrite path_name_join. by apply sublist_skip.
  - by apply sublist_cons.
Qed.

(** The order in which the operating system enumerates a folder does not
    show in the listings, as long as no two of its entries have names that
    are equal up to case: two worlds that hold the same entries under the
    folder, enumerated in any two orders, give the same products and the
    same images, in the same order. *)
Theorem listing_independent_of_enumeration (folder_path : Path) (w1 w2 : World)
    (names1 names2 : list string) :
  fs w1 !! folder_path = Some (Dir names1) ->
  fs w2 !! folder_path = Some (Dir names2) ->
  names1 ≡ₚ names2 ->
  NoDup (map lower names1) ->
  (forall n : string, fs w1 !! (folder_path // n) = fs w2 !! (folder_path // n)) ->
  (get_all_product_folders folder_path w1).1 = (get_all_product_folders folder_path w2).1
  /\ (get_images_in_folder folder_path w1).1 = (get_images_in_folder folder_path w2).1.
Proof.
  intros H1 H2 Hp Hnd Hsame.
  rewrite !get_all_product_folders_run, !get_images_in_folder_run
    by (unfold is_file_in; by rewrite ?H1, ?H2).
  simpl. unfold children. rewrite H1, H2.
  assert (forall P : FsMap -> Path -> bool,
            (forall n, P (fs w1) (folder_path // n) = P (fs w2) (folder_path // n)) ->
            sort_by_key name_key
              (filter (fun p => P (fs w1) p) (map (path_join folder_path) names1))
            = sort_by_key name_key
                (filter (fun p => P (fs w2) p) (map (path_join folder_path) names2)))
    as Hgen.
  { intros P HP.
    rewrite (filter_ext_in (P (fs w1)) (P (fs w2))).
    2:{ intros x Hx. apply list_elem_of_fmap in Hx as (n & -> & _). apply HP. }
    apply sort_by_key_perm_unique.
    - by rewrite Hp.
    - by apply name_key_children_NoDup. }
  split; f_equal.
  - apply (Hgen is_dir_in). intros n. unfold is_dir_in. by rewrite Hsame.
  - apply (Hgen image_in). intros n. unfold image_in, is_file_in. by rewrite Hsame.
Qed.

Lemma listing_independent_of_enumeration_witness :
  (get_all_product_folders ["src"] demo_world).1
  = (get_all_product_folders ["src"] demo_world_reordered).1
  /\ (get_images_in_folder ["src"] demo_world).1
     = (get_images_in_folder ["src"] demo_world_reordered).1.
Proof.
  apply (listing_independent_of_enumeration ["src"] demo_world demo_world_reordered
           ["p"; "Q"; "readme.txt"] ["Q"; "p"; "readme.txt"]).
  - vm_compute. reflexivity.
  - vm_compute. reflexivity.
  - apply perm_swap.
  - apply (bool_decide_unpack _). vm_compute. exact I.
  - intros n. simpl. symmetry. apply lookup_insert_ne, path_join_ne_self.
Defined.

Lemma listings_depend_on_folder_only (folder_path : Path) (w w' : World) :
  fs w' !! folder_path = fs w !! folder_path ->
  (forall n : string, fs w' !! (folder_path // n) = fs w !! (folder_path // n)) ->
  (get_all_product_folders folder_path w').1 = (get_all_product_folders folder_path w).1
  /\ (get_images_in_folder folder_path w').1 = (get_images_in_folder folder_path w).1.
Proof.
  intros Hroot Hsame.
  destruct (fs w !! folder_path) as [[c|names]|] eqn:E.
  - unfold get_all_product_folders, get_images_in_folder, bind, path_exists,
      exists_in, iterdir. rewrite Hroot, E. simpl. by rewrite Hroot, E.
  - rewrite !get_all_product_folders_run, !get_images_in_folder_run
      by (unfold is_file_in; by rewrite ?Hroot, ?E).
    simpl. unfold children. rewrite Hroot, E.
    split; do 2 f_equal.
    + apply (filter_ext_in (is_dir_in (fs w')) (is_dir_in (fs w))).
      intros x Hx. apply list_elem_of_fmap in Hx as (n & -> & _).
      unfold is_dir_in. by rewrite Hsame.
    + apply (filter_ext_in (image_in (fs w')) (image_in (fs w))).
      intros x Hx. apply list_elem_of_fmap in Hx as (n & -> & _).
      unfold image_in, is_file_in. by rewrite Hsame.
  - unfold get_all_product_folders, get_images_in_folder, bind, path_exists,
      exists_in. by rewrite Hroot, E.
Qed.

(** Saving never changes what the scanner shows: for a folder that is
    neither inside the product's output folder nor an ancestor of it (the
    source root, or any product folder of the source tree, when source and
    output are apart), both listings return after a save, successful or
    not, what they returned before it. *)
Theorem save_leaves_listings_unchanged (OUTPUT_FOLDER : Path) (product : string)
    (source_folder : Path) (sels : list ImgInfo) (user : string)
    (w : World) (r : Result bool) (w' : World) (folder_path : Path) :
  save_selection OUTPUT_FOLDER product source_folder sels user w = (r, w') ->
  ~ (OUTPUT_FOLDER // product) `prefix_of` folder_path ->
  ~ folder_path `prefix_of` (OUTPUT_FOLDER // product) ->
  (get_all_product_folders folder_path w').1 = (get_all_product_folders folder_path w).1
  /\ (get_images_in_folder folder_path w').1 = (get_images_in_folder folder_path w).1.
Proof.
  intros Hrun Hpf Hfp.
  pose proof (save_selection_same_outside OUTPUT_FOLDER product source_folder sels user
                w r w' Hrun) as Hout.
  apply listings_depend_on_folder_only.
  - by apply Hout.
  - intros n. apply Hout.
    + intros Hp. apply prefix_of_join_inv in Hp as [Hp|Hp]; [by apply Hpf|].
      apply Hfp. rewrite Hp. apply prefix_of_join.
    + intros Hp. by apply Hfp, join_prefix_of with n.
Qed.

Lemma save_leaves_listings_unchanged_witness :
  (get_all_product_folders ["src"] demo_saved).1
  = (get_all_product_folders ["src"] demo_world).1
  /\ (get_images_in_folder ["src"] demo_saved).1
     = (get_images_in_folder ["src"] demo_world).1.
Proof.
  apply (save_leaves_listings_unchanged ["out"] "p" ["src"; "p"] demo_selections "me"
           demo_world (Return true) demo_saved ["src"]).
  - vm_compute. reflexivity.
  - intros [k Hk]. vm_compute in Hk. discriminate.
  - intros [k Hk]. vm_compute in Hk. discriminate.
Defined.

(** ** The archive *)

Lemma zip_files_run (product_name : string) (files : list Path)
    (zip_file : list (string * Content)) (w : World) :
  zip_files product_name files zip_file w
  = (Return (zip_file ++
               omap (fun file =>
                       match fs w !! file with
                       | Some (File c) =>
                           Some (product_name +:+ "/" +:+ path_name file, c)
                       | _ => None
                       end) files), w).
Proof.
  revert zip_file. induction files as [|file files IH]; intros zip_file; simpl.
  - unfold ret. by rewrite app_nil_r.
  - unfold bind, is_file, is_file_in, read_file.
    destruct (fs w !! file) as [[c|names]|] eqn:E; simpl; rewrite ?E, IH;
      try reflexivity.
    by rewrite <- app_assoc.
Qed.

Lemma zip_products_run (folders : list Path) (zip_file : list (string * Content))
    (w : World) :
  zip_products folders zip_file w
  = (Return (zip_file ++
               (filter (fun p => is_dir_in (fs w) p) folders ≫= archive_files (fs w))), w).
Proof.
  revert zip_file. induction folders as [|pf folders IH]; intros zip_file; simpl.
  - unfold ret. by rewrite app_nil_r.
  - unfold bind at 1, is_dir at 1.
    destruct (is_dir_in (fs w) pf) eqn:Ed.
    + rewrite filter_cons_True by (by rewrite Ed).
      unfold is_dir_in in Ed.
      destruct (fs w !! pf) as [[c|names]|] eqn:E; try discriminate.
      unfold bind, iterdir. rewrite E, zip_files_run, IH.
      rewrite bind_cons. unfold archive_files at 2, children. rewrite E.
      by rewrite <- app_assoc.
    + rewrite filter_cons_False by (rewrite Ed; exact id). apply IH.
Qed.

Lemma count_completed_run (folders : list Path) (w : World) :
  count_completed folders w
  = (Return (length (filter (fun p => is_dir_in (fs w) p
                                      && exists_in (fs w) (p // "selection.json"))
                            folders)), w).
Proof.
  induction folders as [|p folders IH]; simpl; [reflexivity|].
  unfold bind, is_dir. rewrite filter_cons.
  destruct (is_dir_in (fs w) p) eqn:Ed; simpl.
  - unfold path_exists. rewrite IH. unfold ret.
    by destruct (exists_in (fs w) (p // "selection.json")).
  - unfold ret. by rewrite IH.
Qed.

Lemma main_generate_zip_run (OUTPUT_FOLDER : Path) (w : World) :
  is_file_in (fs w) OUTPUT_FOLDER = false ->
  main_generate_zip OUTPUT_FOLDER w
  = (Return (if bool_decide (children (fs w) OUTPUT_FOLDER = []) then NoSelectionsYet
             else Download (archive_of (fs w) OUTPUT_FOLDER)
                    (length (completed_in (fs w) OUTPUT_FOLDER))), w).
Proof.
  intros Hnf. unfold main_generate_zip, bind at 1, path_exists, exists_in, children.
  unfold is_file_in in Hnf.
  destruct (fs w !! OUTPUT_FOLDER) as [[c|names]|] eqn:E; try discriminate; simpl.
  2:{ reflexivity. }
  unfold bind at 1, iterdir at 1. rewrite E.
  destruct (bool_decide (map (path_join OUTPUT_FOLDER) names = [])); [reflexivity|].
  unfold bind, iterdir. rewrite E, zip_products_run, E, count_completed_run.
  unfold ret, archive_of, completed_in, children. by rewrite E.
Qed.

(** "Generate ZIP" only reads, and when the output root is not a regular
    file it always answers: with the warning exactly when the root is
    missing or has no entry, and otherwise with an archive whose members
    are exactly the regular files listed directly in the directories listed
    in the output root, each named [<directory>/<file>] and holding the
    file's content (loose files of the root and anything nested deeper are
    left out), and with the number of listed directories that have a
    [selection.json]. *)
Theorem archive_holds_files_of_product_folders (OUTPUT_FOLDER : Path) (w : World) :
  is_file_in (fs w) OUTPUT_FOLDER = false ->
  exists outcome : ExportOutcome,
    main_generate_zip OUTPUT_FOLDER w = (Return outcome, w)
    /\ match outcome with
       | NoSelectionsYet => children (fs w) OUTPUT_FOLDER = []
       | Download archive completed_count =>
           children (fs w) OUTPUT_FOLDER ≠ []
           /\ completed_count = length (completed_in (fs w) OUTPUT_FOLDER)
           /\ (completed_count <= length (children (fs w) OUTPUT_FOLDER))%nat
           /\ forall (arcname : string) (c : Content),
                (arcname, c) ∈ archive <->
                exists (product_folder file : Path),
                  product_folder ∈ children (fs w) OUTPUT_FOLDER
                  /\ file ∈ children (fs w) product_folder
                  /\ fs w !! file = Some (File c)
                  /\ arcname = path_name product_folder +:+ "/" +:+ path_name file
       end.
Proof.
  intros Hnf. rewrite main_generate_zip_run by exact Hnf.
  eexists. split; [reflexivity|].
  destruct (bool_decide (children (fs w) OUTPUT_FOLDER = [])) eqn:Eb.
  - by apply bool_decide_eq_true in Eb.
  - apply bool_decide_eq_false in Eb. split; [exact Eb|]. split; [reflexivity|].
    split; [apply length_filter|].
    intros arcname c. unfold archive_of. rewrite list_elem_of_bind. split.
    + intros (pf & Hin & Hpf). apply list_elem_of_filter in Hpf as [_ Hpf].
      unfold archive_files in Hin. apply list_elem_of_omap in Hin as (file & Hfile & Hc).
      exists pf, file. split; [exact Hpf|]. split; [exact Hfile|].
      destruct (fs w !! file) as [[c0|?]|]; try discriminate.
      by injection Hc as <- <-.
    + intros (pf & file & Hpf & Hfile & Hc & ->).
      exists pf. split.
      * unfold archive_files. apply list_elem_of_omap. exists file.
        split; [exact Hfile|]. by rewrite Hc.
      * apply list_elem_of_filter. split; [|exact Hpf].
        unfold children in Hfile. unfold is_dir_in.
        destruct (fs w !! pf) as [[?|?]|]; try (by apply elem_of_nil in Hfile).
        exact I.
Qed.

Lemma archive_holds_files_of_product_folders_witness :
  exists outcome : ExportOutcome,
    main_generate_zip ["out"] demo_saved = (Return outcome, demo_saved)
    /\ match outcome with
       | NoSelectionsYet => children (fs demo_saved) ["out"] = []
       | Download archive completed_count =>
           children (fs demo_saved) ["out"] ≠ []
           /\ completed_count = length (completed_in (fs demo_saved) ["out"])
           /\ (completed_count <= length (children (fs demo_saved) ["out"]))%nat
           /\ forall (arcname : string) (c : Content),
                (arcname, c) ∈ archive <->
                exists (product_folder file : Path),
                  product_folder ∈ children (fs demo_saved) ["out"]
                  /\ file ∈ children (fs demo_saved) product_folder
                  /\ fs demo_saved !! file = Some (File c)
                  /\ arcname = path_name product_folder +:+ "/" +:+ path_name file
       end.
Proof.
  apply (archive_holds_files_of_product_folders ["out"] demo_saved).
  vm_compute. reflexivity.
Defined.

Example demo_archive :
  (main_generate_zip ["out"] demo_saved).1
  = Return (Download
              [ ("p/ref_1_unknown.png", Bytes "BBB");
                ("p/ref_2_red.png", Bytes "AAA");
                ("p/selection.json",
                 Json {| product_name := "p"; completed := true; selected_by := "me";
                         timestamp := "2026-01-01T00:00:00";
                         images :=
                           [ {| original_file := "b.PNG";
                                saved_file := "ref_1_unknown.png"; color := "unknown" |};
                             {| original_file := "a.png";
                                saved_file := "ref_2_red.png"; color := "red" |} ] |}) ]
              1).
Proof. vm_compute. reflexivity. Qed.

(** A product that was just saved is in the archive: in the world a
    successful save leaves, if the output root lists the product's folder,
    "Generate ZIP" offers a download that contains
    [<product>/selection.json] with the record of that save, and counts at
    least one completed product. *)
Theorem saved_product_is_exported (OUTPUT_FOLDER : Path) (product : string)
    (source_folder : Path) (sels : list ImgInfo) (user : string) (w w' : World)
    (listed : list string) :
  save_selection OUTPUT_FOLDER product source_folder sels user w = (Return true, w') ->
  fs w' !! OUTPUT_FOLDER = Some (Dir listed) ->
  product ∈ listed ->
  exists (archive : list (string * Content)) (completed_count : nat),
    main_generate_zip OUTPUT_FOLDER w' = (Return (Download archive completed_count), w')
    /\ (product +:+ "/" +:+ "selection.json",
         Json {| product_name := product; completed := true; selected_by := user;
                 timestamp := now w;
                 images := imap (fun i => meta_of (S i)) sels |}) ∈ archive
    /\ (1 <= completed_count)%nat.
Proof.
  intros Hsave Hroot Hlisted.
  pose proof (save_selection_true _ _ _ _ _ _ _ Hsave) as (_ & Hsel & _).
  apply save_selection_true_stages in Hsave as (w1 & w3 & w4 & meta & Hst).
  destruct Hst as (_ & _ & _ & _ & _ & Hrp).
  apply replace_success in Hrp as (_ & names & Hdir & Hin & _); [|discriminate].
  assert (OUTPUT_FOLDER // product ∈ children (fs w') OUTPUT_FOLDER) as Hchild.
  { unfold children. rewrite Hroot. by apply list_elem_of_fmap_2. }
  rewrite main_generate_zip_run by (unfold is_file_in; by rewrite Hroot).
  rewrite bool_decide_eq_false_2.
  2:{ intros E. rewrite E in Hchild. by apply elem_of_nil in Hchild. }
  eexists _, _. split; [reflexivity|]. split.
  - unfold archive_of. apply list_elem_of_bind. exists (OUTPUT_FOLDER // product).
    split.
    + unfold archive_files. apply list_elem_of_omap.
      exists (OUTPUT_FOLDER // product // "selection.json"). split.
      * unfold children. rewrite Hdir. by apply list_elem_of_fmap_2.
      * rewrite Hsel. by rewrite !path_name_join.
    + apply list_elem_of_filter. split; [|exact Hchild].
      unfold is_dir_in. by rewrite Hdir.
  - assert (OUTPUT_FOLDER // product ∈ completed_in (fs w') OUTPUT_FOLDER) as Hc.
    { unfold completed_in. apply list_elem_of_filter. split; [|exact Hchild].
      unfold is_dir_in, exists_in. by rewrite Hdir, Hsel. }
    destruct (completed_in (fs w') OUTPUT_FOLDER); [by apply elem_of_nil in Hc|].
    simpl. lia.
Qed.

Lemma saved_product_is_exported_witness :
  exists (archive : list (string * Content)) (completed_count : nat),
    main_generate_zip ["out"] demo_saved
      = (Return (Download archive completed_count), demo_saved)
    /\ ("p" +:+ "/" +:+ "selection.json",
         Json {| product_name := "p"; completed := true; selected_by := "me";
                 timestamp := now demo_world;
                 images := imap (fun i => meta_of (S i)) demo_selections |}) ∈ archive
    /\ (1 <= completed_count)%nat.
Proof.
  apply (saved_product_is_exported ["out"] "p" ["src"; "p"] demo_selections "me"
           demo_world demo_saved ["p"]).
  - vm_compute. reflexivity.
  - vm_compute. reflexivity.
  - apply list_elem_of_singleton. reflexivity.
Defined.

(** ** Starting a session *)

(** The session is set up once: from any state of [st.session_state], when
    the source root is not a regular file, [init_session_state] returns
    with all five keys set, leaves the world untouched, and keeps every key
    that was already there; a fresh session starts at index 0 with no name,
    no selection and no product loaded, on the products the scanner lists.
    On the state it returns, a further call changes nothing and does not
    scan again, in whatever world it runs: the product list stays the one
    found at the start of the session. *)
Theorem init_session_state_once (SOURCE_FOLDER : Path) (st : SessionState) (w : World) :
  is_file_in (fs w) SOURCE_FOLDER = false ->
  exists (st' : SessionState) (s : Session),
    init_session_state SOURCE_FOLDER st w = (Return st', w)
    /\ session_of st' = Some s
    /\ (forall l, key_product_folders st = Some l -> product_folders s = l)
    /\ (key_product_folders st = None ->
        get_all_product_folders SOURCE_FOLDER w = (Return (product_folders s), w))
    /\ current_index s = default 0 (key_current_index st)
    /\ username s = default "" (key_username st)
    /\ current_selections s = default [] (key_current_selections st)
    /\ last_loaded_product s = default None (key_last_loaded_product st)
    /\ (forall w2 : World, init_session_state SOURCE_FOLDER st' w2 = (Return st', w2)).
Proof.
  intros Hnf. unfold init_session_state.
  destruct (key_product_folders st) as [l|] eqn:El.
  - unfold bind, ret. eexists _, _. split; [reflexivity|]. simpl.
    split; [reflexivity|]. simpl.
    split; [by intros l' [= <-]|]. split; [discriminate|].
    destruct (key_current_index st), (key_username st), (key_current_selections st),
      (key_last_loaded_product st); repeat split; reflexivity.
  - unfold bind. rewrite (get_all_product_folders_run _ _ Hnf). unfold ret.
    eexists _, _. split; [reflexivity|]. simpl.
    split; [reflexivity|]. simpl.
    split; [discriminate|]. split; [reflexivity|].
    destruct (key_current_index st), (key_username st), (key_current_selections st),
      (key_last_loaded_product st); repeat split; reflexivity.
Qed.

Lemma init_session_state_once_witness :
  exists (st' : SessionState) (s : Session),
    init_session_state ["src"] empty_state demo_world = (Return st', demo_world)
    /\ session_of st' = Some s
    /\ (forall l, key_product_folders empty_state = Some l -> product_folders s = l)
    /\ (key_product_folders empty_state = None ->
        get_all_product_folders ["src"] demo_world = (Return (product_folders s), demo_world))
    /\ current_index s = default 0 (key_current_index empty_state)
    /\ username s = default "" (key_username empty_state)
    /\ current_selections s = default [] (key_current_selections empty_state)
    /\ last_loaded_product s = default None (key_last_loaded_product empty_state)
    /\ (forall w2 : World, init_session_state ["src"] st' w2 = (Return st', w2)).
Proof.
  apply (init_session_state_once ["src"] empty_state demo_world).
  vm_compute. reflexivity.
Defined.

Lemma nav_run_in_range (evs : list NavEvent) (s : Session) :
  let n := Z.of_nat (length (product_folders s)) in
  0 < n -> 0 <= current_index s <= n - 1 -> Forall (nav_admissible n) evs ->
  product_folders (foldl nav_step s evs) = product_folders s
  /\ 0 <= current_index (foldl nav_step s evs) <= n - 1.
Proof.
  revert s. induction evs as [|e evs IH]; intros s n Hn Hidx Hevs; simpl; [by split|].
  inversion Hevs as [|? ? He Hrest]; subst.
  pose proof (nav_step_in_range s e Hn Hidx He) as Hstep.
  specialize (IH (nav_step s e)). rewrite nav_step_folders in IH.
  destruct (IH Hn Hstep Hrest) as [Hf Hr]. by split.
Qed.

(** [main] can always pick its current product: in a session that starts
    at index 0 over a non-empty product list, after any sequence of
    Previous, Next and jumps within the bounds of the number input,
    [product_folders[current_index]] is the product at that position of the
    list: the index never runs past the end ([IndexError]) and never turns
    negative (which Python would read from the end). *)
Theorem current_product_always_exists (s : Session) (evs : list NavEvent) :
  current_index s = 0 -> product_folders s ≠ [] ->
  Forall (nav_admissible (Z.of_nat (length (product_folders s)))) evs ->
  exists current_folder : Path,
    py_getitem (product_folders (foldl nav_step s evs))
      (current_index (foldl nav_step s evs)) = Some current_folder
    /\ 0 <= current_index (foldl nav_step s evs)
    /\ product_folders s !! Z.to_nat (current_index (foldl nav_step s evs))
       = Some current_folder.
Proof.
  intros H0 Hne Hevs.
  assert (0 < Z.of_nat (length (product_folders s))) as Hn.
  { destruct (product_folders s); [done|]. simpl. lia. }
  destruct (nav_run_in_range evs s Hn) as [Hf Hr]; [lia|exact Hevs|].
  rewrite Hf. unfold py_getitem.
  destruct (0 <=? current_index (foldl nav_step s evs)) eqn:E; [|lia].
  destruct (lookup_lt_is_Some_2 (product_folders s)
              (Z.to_nat (current_index (foldl nav_step s evs)))) as [x Hx]; [lia|].
  exists x. split; [exact Hx|]. split; [lia|exact Hx].
Qed.

Lemma current_product_always_exists_witness :
  exists current_folder : Path,
    py_getitem
      (product_folders
         (foldl nav_step (set_index 0 demo_session) [Next; Next; Next; JumpTo 2; Previous]))
      (current_index
         (foldl nav_step (set_index 0 demo_session) [Next; Next; Next; JumpTo 2; Previous]))
    = Some current_folder
    /\ 0 <= current_index
              (foldl nav_step (set_index 0 demo_session)
                 [Next; Next; Next; JumpTo 2; Previous])
    /\ product_folders (set_index 0 demo_session)
         !! Z.to_nat
              (current_index
                 (foldl nav_step (set_index 0 demo_session)
                    [Next; Next; Next; JumpTo 2; Previous]))
       = Some current_folder.
Proof.
  apply (current_product_always_exists (set_index 0 demo_session)
           [Next; Next; Next; JumpTo 2; Previous]).
  - reflexivity.
  - discriminate.
  - repeat constructor; simpl; lia.
Defined.

(** ** Extensions *)

Lemma str_length_app (s t : string) :
  String.length (s +:+ t) = (String.length s + String.length t)%nat.
Proof. induction s as [|a s IH]; simpl; [reflexivity|]. by rewrite IH. Qed.

Lemma substring_all (s : string) : String.substring 0 (String.length s) s = s.
Proof. induction s as [|a s IH]; simpl; [reflexivity|]. by rewrite IH. Qed.

Lemma substring_skip (pre rest : string) :
  String.substring (String.length pre) (String.length rest) (pre +:+ rest) = rest.
Proof. induction pre as [|a pre IH]; simpl; [apply substring_all|exact IH]. Qed.

Lemma rfind_dot_from_range (s : string) (i : Z) :
  rfind_dot_from i s = -1 \/ i <= rfind_dot_from i s.
Proof.
  revert i. induction s as [|a s IH]; intros i; simpl; [by left|].
  destruct (IH (i + 1)) as [Hr|Hr].
  - rewrite Hr. simpl. destruct (Ascii.eqb a "."); [right; lia|by left].
  - destruct (0 <=? rfind_dot_from (i + 1) s) eqn:E; [right; lia|].
    destruct (Ascii.eqb a "."); [right; lia|by left].
Qed.

Lemma rfind_dot_from_none (s : string) (i : Z) :
  no_char "." s -> rfind_dot_from i s = -1.
Proof.
  revert i. induction s as [|a s IH]; intros i Hs; simpl; [reflexivity|].
  destruct Hs as [Ha Hs]. rewrite (IH _ Hs). simpl.
  destruct (Ascii.eqb_spec a "."); [contradiction|reflexivity].
Qed.

Lemma rfind_dot_from_none_inv (s : string) (i : Z) :
  0 <= i -> rfind_dot_from i s = -1 -> no_char "." s.
Proof.
  revert i. induction s as [|a s IH]; intros i Hi H; simpl in *; [exact I|].
  destruct (rfind_dot_from_range s (i + 1)) as [Hr|Hr].
  - rewrite Hr in H. simpl in H.
    destruct (Ascii.eqb_spec a "."); [lia|]. split; [assumption|].
    apply (IH (i + 1)); [lia|exact Hr].
  - destruct (0 <=? rfind_dot_from (i + 1) s) eqn:E; [lia|].
    apply Z.leb_gt in E. lia.
Qed.

Lemma rfind_dot_from_last (pre e : string) (i : Z) :
  0 <= i -> no_char "." e ->
  rfind_dot_from i (pre +:+ String "." e) = i + Z.of_nat (String.length pre).
Proof.
  revert i. induction pre as [|a pre IH]; intros i Hi He; simpl.
  - rewrite (rfind_dot_from_none _ _ He). simpl. lia.
  - rewrite IH by (lia || assumption).
    destruct (0 <=? i + 1 + Z.of_nat (String.length pre)) eqn:E; [lia|].
    apply Z.leb_gt in E. lia.
Qed.

Lemma rfind_dot_from_split (s : string) (i : Z) :
  0 <= i -> rfind_dot_from i s ≠ -1 ->
  exists pre e : string,
    s = pre +:+ String "." e /\ no_char "." e
    /\ rfind_dot_from i s = i + Z.of_nat (String.length pre).
Proof.
  revert i. induction s as [|a s IH]; intros i Hi H; simpl in *; [done|].
  destruct (rfind_dot_from_range s (i + 1)) as [Hr|Hr].
  - rewrite Hr in *. simpl in *.
    destruct (Ascii.eqb_spec a ".") as [->|Hne]; [|done].
    exists "", s. split; [reflexivity|]. split; [|simpl; lia].
    apply (rfind_dot_from_none_inv s (i + 1)); [lia|exact Hr].
  - destruct (IH (i + 1)) as (pre & e & -> & He & Hpos); [lia|lia|].
    exists (String a pre), e. split; [reflexivity|]. split; [exact He|].
    rewrite Hpos.
    destruct (0 <=? i + 1 + Z.of_nat (String.length pre)) eqn:E;
      [simpl; lia|apply Z.leb_gt in E; lia].
Qed.

(** [suffix] of a name that ends in a dot followed by a non-empty part
    without dots, after a non-empty stem. *)
Lemma suffix_of_stem_dot_ext (pre e : string) :
  pre ≠ "" -> e ≠ "" -> no_char "." e ->
  suffix (pre +:+ String "." e) = String "." e.
Proof.
  intros Hpre He Hnd. unfold suffix, rfind_dot.
  rewrite (rfind_dot_from_last pre e 0) by (lia || assumption).
  unfold str_len, str_from. rewrite str_length_app. simpl.
  assert (0 < String.length pre)%nat by (destruct pre; [done|simpl; lia]).
  assert (0 < String.length e)%nat by (destruct e; [done|simpl; lia]).
  rewrite (proj2 (Z.ltb_lt 0 (0 + Z.of_nat (String.length pre)))) by lia.
  rewrite (proj2 (Z.ltb_lt (0 + Z.of_nat (String.length pre))
                    (Z.of_nat (String.length pre + S (String.length e)) - 1))) by lia.
  simpl.
  replace (Z.to_nat (0 + Z.of_nat (String.length pre))) with (String.length pre) by lia.
  replace (String.length pre + S (String.length e) - String.length pre)%nat
    with (String.length (String "." e)) by (simpl; lia).
  apply substring_skip.
Qed.

(** A non-empty [suffix] is a dot followed by a non-empty part without dots. *)
Lemma suffix_shape (s : string) :
  suffix s ≠ "" ->
  exists pre e : string,
    s = pre +:+ String "." e /\ pre ≠ "" /\ e ≠ "" /\ no_char "." e
    /\ suffix s = String "." e.
Proof.
  intros H. unfold suffix, rfind_dot in H.
  destruct (0 <? rfind_dot_from 0 s) eqn:E1; [|done].
  apply Z.ltb_lt in E1.
  destruct (rfind_dot_from_split s 0) as (pre & e & -> & He & Hpos); [lia|lia|].
  rewrite Hpos in *. unfold str_len in H. rewrite str_length_app in H. simpl in H.
  destruct (0 + Z.of_nat (String.length pre)
            <? Z.of_nat (String.length pre + S (String.length e)) - 1) eqn:E2; [|done].
  apply Z.ltb_lt in E2.
  assert (pre ≠ "") as Hpre by (intros ->; simpl in *; lia).
  assert (e ≠ "") as Hne by (intros ->; simpl in *; lia).
  exists pre, e. repeat split; try assumption.
  by apply suffix_of_stem_dot_ext.
Qed.

Lemma lower_ascii_dot (a : ascii) : lower_ascii a = "."%char -> a = "."%char.
Proof. destruct a as [[] [] [] [] [] [] [] []]; vm_compute; congruence. Qed.

Lemma lower_ascii_idem (a : ascii) : lower_ascii (lower_ascii a) = lower_ascii a.
Proof. destruct a as [[] [] [] [] [] [] [] []]; reflexivity. Qed.

Lemma lower_idem (s : string) : lower (lower s) = lower s.
Proof.
  induction s as [|a s IH]; simpl; [reflexivity|]. by rewrite lower_ascii_idem, IH.
Qed.

Lemma lower_no_dot (s : string) : no_char "." s -> no_char "." (lower s).
Proof.
  induction s as [|a s IH]; simpl; [done|]. intros [Ha Hs]. split; [|by apply IH].
  intros H. by apply lower_ascii_dot in H.
Qed.

Lemma str_app_assoc (s t u : string) : s +:+ (t +:+ u) = (s +:+ t) +:+ u.
Proof.
  induction s as [|a s IH]; [reflexivity|].
  change (String a (s +:+ (t +:+ u)) = String a ((s +:+ t) +:+ u)). by rewrite IH.
Qed.

Lemma str_app_assoc4 (s t u v x : string) :
  s +:+ t +:+ u +:+ v +:+ x = (s +:+ t +:+ u +:+ v) +:+ x.
Proof. by rewrite <- !str_app_assoc. Qed.

(** The saved name keeps the kind of the original: when the original name
    has an extension, the extension of [ref_<idx>_<color><ext>] as
    [Path.suffix] reads it back is that extension in lowercase, whatever
    the colour contains; so a reference file saved from a supported image
    has a supported extension itself. *)
Theorem saved_name_has_lowercase_extension (idx : nat) (color original_file : string) :
  suffix original_file ≠ "" ->
  suffix (new_filename idx color original_file) = lower (suffix original_file)
  /\ (lower (suffix original_file) ∈ SUPPORTED_EXTENSIONS ->
      lower (suffix (new_filename idx color original_file)) ∈ SUPPORTED_EXTENSIONS).
Proof.
  intros Hs. destruct (suffix_shape _ Hs) as (pre & e & _ & _ & He & Hnd & Hsuf).
  assert (suffix (new_filename idx color original_file) = lower (suffix original_file))
    as Heq.
  { unfold new_filename. rewrite Hsuf.
    change (lower (String "." e)) with (String "." (lower e)).
    rewrite (str_app_assoc4 "ref_" (pretty idx) "_" color).
    apply suffix_of_stem_dot_ext.
    - discriminate.
    - destruct e; [done|discriminate].
    - by apply lower_no_dot. }
  split; [exact Heq|]. intros Hin. rewrite Heq. by rewrite lower_idem.
Qed.

Lemma saved_name_has_lowercase_extension_witness :
  suffix (new_filename 1 "a.b" "IMG.01.JPG") = lower (suffix "IMG.01.JPG")
  /\ (lower (suffix "IMG.01.JPG") ∈ SUPPORTED_EXTENSIONS ->
      lower (suffix (new_filename 1 "a.b" "IMG.01.JPG")) ∈ SUPPORTED_EXTENSIONS).
Proof.
  apply (saved_name_has_lowercase_extension 1 "a.b" "IMG.01.JPG").
  vm_compute. discriminate.
Defined.

(** ** When a save succeeds *)

Lemma writing_call_no_fault (c : FsCall) (e : exn) (partial : FsMap -> FsMap)
    (step : FsMap -> option FsMap) (w : World) (m' : FsMap) :
  faults w = [] -> step (fs w) = Some m' ->
  writing_call c e partial step w = (Return tt, done_call c (with_fs m' w)).
Proof.
  intros Hf Hs. unfold writing_call, next_fault. rewrite Hf. by rewrite Hs.
Qed.

Lemma write_file_succeeds (parent : Path) (n : string) (c : Content) (m : FsMap) :
  is_dir_in m parent = true -> is_dir_in m (parent // n) = false ->
  exists m' : FsMap,
    write_file parent n c m = Some m'
    /\ is_dir_in m' parent = true
    /\ m' !! (parent // n) = Some (File c)
    /\ (forall q : Path, q ≠ parent -> q ≠ parent // n -> m' !! q = m !! q).
Proof.
  unfold is_dir_in, write_file. intros Hp Hn.
  destruct (m !! parent) as [[?|names]|]; try discriminate.
  assert (parent // n ≠ parent) as Hne.
  { intros E. symmetry in E. by apply path_join_ne_self in E. }
  exists (<[parent // n := File c]> (<[parent := Dir (add_name n names)]> m)).
  split; [by destruct (m !! (parent // n)) as [[?|?]|]|].
  split; [by rewrite lookup_insert_ne, lookup_insert_eq|].
  split; [by rewrite lookup_insert_eq|].
  intros q Hq1 Hq2. by rewrite !lookup_insert_ne.
Qed.

Lemma write_into_ready_output (pof : Path) (n : string) (c : Content) (w : World)
    (call : FsCall) :
  ready_output pof w ->
  exists m' : FsMap,
    write_file pof n c (fs w) = Some m'
    /\ ready_output pof (done_call call (with_fs m' w))
    /\ m' !! (pof // n) = Some (File c)
    /\ (forall q : Path, ~ pof `prefix_of` q -> m' !! q = fs w !! q)
    /\ (forall x : string, x ≠ n -> m' !! (pof // x) = fs w !! (pof // x)).
Proof.
  intros (Hf & Hd & Hnd).
  destruct (write_file_succeeds pof n c (fs w) Hd (Hnd n)) as (m' & Hw & Hd' & Hn & Hfr).
  exists m'. split; [exact Hw|]. split; [|split; [exact Hn|split]].
  - split; [exact Hf|]. split; [exact Hd'|]. intros x. simpl.
    destruct (decide (x = n)) as [->|Hx].
    + unfold is_dir_in. by rewrite Hn.
    + unfold is_dir_in. rewrite Hfr; [apply Hnd| |].
      * intros E. symmetry in E. by apply path_join_ne_self in E.
      * intros E. apply path_join_inj in E as [_ E]. by apply Hx.
  - intros q Hq. apply Hfr.
    + intros ->. by apply Hq.
    + intros ->. apply Hq, prefix_of_join.
  - intros x Hx. apply Hfr.
    + intros E. symmetry in E. by apply path_join_ne_self in E.
    + intros E. apply path_join_inj in E as [_ E]. by apply Hx.
Qed.

Lemma copy_selected_succeeds (source_folder pof : Path) (l : list ImgInfo) :
  ~ pof `prefix_of` source_folder ->
  ~ source_folder `prefix_of` pof ->
  forall (idx : nat) (acc : list ImageMeta) (w : World),
  ready_output pof w ->
  Forall (fun img => named img /\ is_file_in (fs w) (source_folder // file_of img) = true) l ->
  exists (meta : list ImageMeta) (w' : World),
    copy_selected source_folder pof l idx acc w = (Return meta, w')
    /\ ready_output pof w'.
Proof.
  intros Hps Hsp.
  assert (forall o : string, ~ pof `prefix_of` source_folder // o) as Hout.
  { intros o Hp. apply prefix_of_join_inv in Hp as [Hp| ->]; [by apply Hps|].
    apply Hsp, prefix_of_join. }
  induction l as [|img l IH]; intros idx acc w Hready Hl; simpl.
  - eexists _, _. split; [reflexivity|exact Hready].
  - inversion Hl as [|? ? [Hnamed Hfile] Hrest]; subst.
    unfold bind at 1, get_original_file. rewrite (named_file_of _ Hnamed). unfold ret.
    set (o := file_of img) in *. set (n := new_filename idx (get_color img) o).
    unfold is_file_in in Hfile.
    destruct (fs w !! (source_folder // o)) as [[c|?]|] eqn:Esrc; try discriminate.
    destruct (write_into_ready_output pof n c w (Copy2 (source_folder // o) (pof // n))
                Hready) as (m' & Hw & Hready' & _ & Hfr & _).
    assert (copy2 (source_folder // o) (pof // n) w
            = (Return tt, done_call (Copy2 (source_folder // o) (pof // n))
                            (with_fs m' w))) as Hcopy.
    { apply writing_call_no_fault; [apply Hready|].
      unfold copy2_step, copy2_target.
      destruct Hready as (_ & _ & Hnd). rewrite (Hnd n).
      rewrite bool_decide_eq_false_2.
      2:{ intros E. apply (Hout o). rewrite E. apply prefix_of_join. }
      rewrite Esrc, path_parent_join, path_name_join. exact Hw. }
    unfold bind. rewrite Hcopy.
    apply IH; [exact Hready'|].
    eapply Forall_impl; [exact Hrest|]. intros img' [Hn' Hf']. split; [exact Hn'|].
    unfold is_file_in in *. simpl. by rewrite Hfr by apply Hout.
Qed.

(** A save goes through when nothing stands in its way: if the environment
    fails no call, the product's output folder can be created (or is a
    directory already), it holds no directory, the source folder and the
    output folder are not nested in one another, and every selection names
    a regular file of the source folder, then [save_selection] returns
    [True]. *)
Theorem save_succeeds_when_unobstructed (OUTPUT_FOLDER : Path) (product : string)
    (source_folder : Path) (sels : list ImgInfo) (user : string) (w : World) :
  faults w = [] ->
  is_Some (mkdir_parents (rev (OUTPUT_FOLDER // product)) (fs w)) ->
  (forall x : string, is_dir_in (fs w) (OUTPUT_FOLDER // product // x) = false) ->
  ~ (OUTPUT_FOLDER // product) `prefix_of` source_folder ->
  ~ source_folder `prefix_of` (OUTPUT_FOLDER // product) ->
  Forall (fun img => named img
                     /\ is_file_in (fs w) (source_folder // file_of img) = true) sels ->
  exists w' : World,
    save_selection OUTPUT_FOLDER product source_folder sels user w = (Return true, w').
Proof.
  intros Hfaults [m1 Hm1] Hnodir Hps Hsp Hsels.
  set (pof := OUTPUT_FOLDER // product) in *.
  set (w1 := done_call (Mkdir pof) (with_fs m1 w)).
  assert (mkdir pof w = (Return tt, w1)) as Hmk.
  { by apply writing_call_no_fault. }
  assert (ready_output pof w1) as Hready1.
  { split; [exact Hfaults|]. split.
    - simpl. rewrite <- (rev_involutive pof). by apply (mkdir_parents_is_dir _ (fs w)).
    - intros x. simpl. unfold is_dir_in.
      rewrite (mkdir_parents_frame _ _ _ _ Hm1 (selection_file_not_above _ _)).
      apply Hnodir. }
  assert (Forall (fun img => named img
                   /\ is_file_in (fs w1) (source_folder // file_of img) = true) sels)
    as Hsels1.
  { eapply Forall_impl; [exact Hsels|]. intros img [Hn Hf]. split; [exact Hn|].
    unfold is_file_in in *. simpl.
    rewrite (mkdir_parents_frame _ _ _ _ Hm1); [exact Hf|].
    rewrite rev_involutive. intros Hp. by apply Hsp, join_prefix_of with (file_of img). }
  assert (Forall named sels) as Hnamed.
  { eapply Forall_impl; [exact Hsels|]. by intros img [Hn _]. }
  assert (missing_in (fs w1) source_folder sels = []) as Hnone.
  { unfold missing_in. clear -Hsels1.
    induction Hsels1 as [|img l [_ Hf] _ IH]; simpl; [reflexivity|].
    rewrite filter_cons_False; [exact IH|].
    unfold is_file_in, exists_in in *. intros Hex. simpl in Hf, Hex.
    destruct (m1 !! (source_folder // file_of img)) as [[?|?]|]; discriminate. }
  set (w2 := if exists_in (fs w1) (pof // "selection.json")
             then say AlreadySaved w1 else w1).
  assert (ready_output pof w2 /\ fs w2 = fs w1) as [Hready2 Hfs2].
  { subst w2. destruct (exists_in (fs w1) (pof // "selection.json")); by split. }
  destruct (copy_selected_succeeds source_folder pof sels Hps Hsp 1%nat [] w2 Hready2)
    as (meta & w3 & Hcp & Hready3).
  { by rewrite Hfs2. }
  set (data := {| product_name := product; completed := true; selected_by := user;
                  timestamp := now w3; images := meta |}).
  destruct (write_into_ready_output pof ".selection.json.tmp" (Json data) w3
              (WriteJson (pof // ".selection.json.tmp") data) Hready3)
    as (m4 & Hw4 & Hready4 & Htmp & _ & Hfr4).
  set (w4 := done_call (WriteJson (pof // ".selection.json.tmp") data) (with_fs m4 w3))
    in *.
  assert (write_json (pof // ".selection.json.tmp") data w3 = (Return tt, w4)) as Hwj.
  { unfold write_json. rewrite path_parent_join, path_name_join.
    apply writing_call_no_fault; [apply Hready3|exact Hw4]. }
  assert (exists m5 : FsMap,
            replace_step (pof // ".selection.json.tmp") (pof // "selection.json") (fs w4)
            = Some m5) as [m5 Hm5].
  { unfold replace_step. simpl. rewrite Htmp.
    rewrite bool_decide_eq_false_2.
    2:{ intros E. apply path_join_inj in E as [_ E]. discriminate. }
    rewrite !path_parent_join, !path_name_join.
    destruct Hready4 as (_ & Hd4 & Hnd4). simpl in Hd4, Hnd4.
    destruct (write_file_succeeds pof "selection.json" (Json data)
                (unlink pof ".selection.json.tmp" m4)) as (m5 & Hw5 & _).
    - unfold is_dir_in, unlink in *.
      rewrite lookup_delete_ne
        by (intros E; symmetry in E; by apply path_join_ne_self in E).
      destruct (m4 !! pof) as [[?|names]|]; try discriminate.
      by rewrite lookup_insert_eq.
    - unfold is_dir_in. rewrite unlink_frame.
      + apply Hnd4.
      + intros E. symmetry in E. by apply path_join_ne_self in E.
      + intros E. apply path_join_inj in E as [_ E]. discriminate.
    - by exists m5. }
  assert (replace (pof // ".selection.json.tmp") (pof // "selection.json") w4
          = (Return tt, done_call (Replace (pof // ".selection.json.tmp")
                                     (pof // "selection.json")) (with_fs m5 w4)))
    as Hrp.
  { apply writing_call_no_fault; [apply Hready4|exact Hm5]. }
  assert ((if exists_in (fs w1) (pof // "selection.json")
           then st_message AlreadySaved else ret tt) w1 = (Return tt, w2)) as Hwarn.
  { subst w2. by destruct (exists_in (fs w1) (pof // "selection.json")). }
  eexists. rewrite save_selection_run.
  assert (save_selection_body OUTPUT_FOLDER product source_folder sels user w
          = (Return true,
             done_call (Replace (pof // ".selection.json.tmp") (pof // "selection.json"))
               (with_fs m5 w4))) as ->; [|reflexivity].
  unfold save_selection_body. fold pof.
  rewrite (bind_return _ _ _ _ _ Hmk).
  rewrite (bind_return _ _ _ _ _
             (find_missing_files_named source_folder sels [] w1 Hnamed)).
  change ([] ++ missing_in (fs w1) source_folder sels)
    with (missing_in (fs w1) source_folder sels).
  rewrite Hnone. rewrite bool_decide_eq_true_2 by reflexivity. cbn [negb].
  rewrite (bind_return (path_exists (pof // "selection.json")) _ w1 w1
             (exists_in (fs w1) (pof // "selection.json")) eq_refl).
  rewrite (bind_return _ _ _ _ _ Hwarn).
  rewrite (bind_return _ _ _ _ _ Hcp).
  rewrite (bind_return datetime_now _ w3 w3 (now w3) eq_refl).
  fold data.
  rewrite (bind_return _ _ _ _ _ Hwj).
  rewrite (bind_return _ _ _ _ _ Hrp).
  reflexivity.
Qed.

Lemma save_succeeds_when_unobstructed_witness :
  exists w' : World,
    save_selection ["out"] "p" ["src"; "p"] demo_selections "me" demo_world
    = (Return true, w').
Proof.
  apply (save_succeeds_when_unobstructed ["out"] "p" ["src"; "p"] demo_selections "me"
           demo_world).
  - reflexivity.
  - vm_compute. by eexists.
  - intros x. unfold is_dir_in.
    assert (fs demo_world !! (["out"] // "p" // x) = None) as ->; [|reflexivity].
    change (demo_fs !! ["out"; "p"; x] = None). unfold demo_fs.
    apply not_elem_of_list_to_map_1. cbn [fmap list_fmap fst].
    intros H.
    repeat (apply elem_of_cons in H as [H|H]; [discriminate|]).
    by apply elem_of_nil in H.
  - intros [k Hk]. vm_compute in Hk. discriminate.
  - intros [k Hk]. vm_compute in Hk. discriminate.
  - repeat constructor; vm_compute; by eexists.
Defined.
